(** * Lead scraper: a shallow embedding of the ingestion pipeline

    The development follows the Python sources of the repository:
    - [realtime_linkedin_scraper.py]   (module [Realtime])
    - [ai_hardware_sales_platform.py]  (module [Platform])
    - [apollo_linkedin_scraper.py]     (module [Apollo])
    - [apify_sales_lead/apify_linkedin_scraper.py] (module [Apify])
    - [complete_scraper_gsheets.py]    (module [Complete])

    Python values are embedded as follows.  A [str] is a [string]: the
    sequence of its code points, for text whose code points are below 256
    (ASCII and the Latin-1 supplement), on which the text primitives below
    are exact; every statement about strings is a statement about such
    text.  An [int] is a [Z], a [dict] with string keys is a
    [gmap string _], a raised exception is the [Raise] branch of [res].
    External collaborators (HTTP sources, the clock, the random generator,
    the spreadsheet) are section variables or explicit state. *)

From Stdlib Require Import ZArith Ascii String List Bool Lia.
From stdpp Require Import base option gmap strings list sorting pretty.

Local Open Scope Z_scope.
Set Warnings "-clear-no-such-hyp".

(** ** Python primitives *)

Module Py.

Inductive pyval :=
| PyNone
| PyStr (s : string)
| PyInt (z : Z).

Global Instance pyval_eq_dec : EqDecision pyval.
Proof. solve_decision. Defined.

Inductive exn :=
| AttributeError
| KeyError
| IndexError
| TypeError
| ValueError
| ZeroDivisionError.

Inductive res (A : Type) :=
| Ok (a : A)
| Raise (e : exn).
Global Arguments Ok {A} a.
Global Arguments Raise {A} e.

Global Instance res_ret : MRet res := λ A a, Ok a.
Global Instance res_bind : MBind res := λ A B f m,
  match m with
  | Ok a => f a
  | Raise e => Raise e
  end.

(** [bool(v)] *)
Definition truthy (v : pyval) : bool :=
  match v with
  | PyNone => false
  | PyStr s => negb (String.eqb s "")
  | PyInt z => negb (z =? 0)
  end.

(** [a or b] *)
Definition por (a b : pyval) : pyval := if truthy a then a else b.

(** [d.get(k)], [d.get(k, dflt)] and [d[k]] *)
Definition get (d : gmap string pyval) (k : string) : pyval :=
  default PyNone (d !! k).
Definition get_or (d : gmap string pyval) (k : string) (dflt : pyval) : pyval :=
  default dflt (d !! k).
Definition item (d : gmap string pyval) (k : string) : res pyval :=
  match d !! k with
  | Some v => Ok v
  | None => Raise KeyError
  end.

(** *** Characters

    A character is a code point below 256: ASCII and the Latin-1
    supplement.  The classes are those of Python's [str] methods and of
    the [re] module (on [str] patterns) on that range. *)

Definition between (lo hi : nat) (c : ascii) : bool :=
  let n := nat_of_ascii c in (lo <=? n)%nat && (n <=? hi)%nat.

(** The characters [c.lower()] changes: A-Z and the upper-case letters of
    Latin-1 (192-214, 216-222); each is mapped 32 places up. *)
Definition is_upper (c : ascii) : bool :=
  between 65 90 c || between 192 214 c || between 216 222 c.

(** [c.isdecimal()]: the digits 0-9. *)
Definition is_decimal (c : ascii) : bool := between 48 57 c.

(** [c.isdigit()]: the digits 0-9 and the superscripts 2, 3 and 1 (178,
    179, 185). *)
Definition is_digit (c : ascii) : bool :=
  is_decimal c || between 178 179 c || between 185 185 c.

Definition lower_char (c : ascii) : ascii :=
  if is_upper c then ascii_of_nat (nat_of_ascii c + 32) else c.

(** [c.isspace()], the white space of [s.split()] and [s.strip()]: tab,
    LF, VT, FF, CR, FS, GS, RS, US, the blank, NEL (133) and the
    no-break space (160). *)
Definition isspace (c : ascii) : bool :=
  between 9 13 c || between 28 32 c || between 133 133 c
  || between 160 160 c.

(** [\w] of the [re] module: the letters, the digits and the other
    numeric characters of the range, and the underscore. *)
Definition is_word (c : ascii) : bool :=
  between 48 57 c || between 65 90 c || between 95 95 c || between 97 122 c
  || between 170 170 c || between 178 179 c || between 181 181 c
  || between 185 186 c || between 188 190 c || between 192 214 c
  || between 216 246 c || between 248 255 c.

(** *** Strings *)

(** [s.lower()] *)
Fixpoint lower (s : string) : string :=
  match s with
  | EmptyString => EmptyString
  | String c s' => String (lower_char c) (lower s')
  end.

(** [s.startswith(p)] *)
Definition startswith (s p : string) : bool := String.prefix p s.

(** [needle in hay] *)
Fixpoint contains (needle hay : string) : bool :=
  String.prefix needle hay
  || match hay with
     | EmptyString => false
     | String _ hay' => contains needle hay'
     end.

(** [c in s] for a single character. *)
Fixpoint has_char (c : ascii) (s : string) : bool :=
  match s with
  | EmptyString => false
  | String d s' => Ascii.eqb c d || has_char c s'
  end.

(** [s[i:j]] for [0 <= i <= j]. *)
Definition slice (s : string) (i j : nat) : string :=
  String.substring i (j - i) s.

(** [s.split()]: maximal runs of non-blank characters.  [cur] is the run
    being read, in reverse. *)
Fixpoint split_go (cur : option string) (s : string) : list string :=
  match s with
  | EmptyString => option_list (String.rev <$> cur)
  | String c s' =>
      if isspace c
      then option_list (String.rev <$> cur) ++ split_go None s'
      else split_go (Some (String c (default EmptyString cur))) s'
  end.
Definition split (s : string) : list string := split_go None s.

(** [s.lstrip()], [s.rstrip()], [s.strip()] *)
Fixpoint lstrip (s : string) : string :=
  match s with
  | EmptyString => EmptyString
  | String c s' => if isspace c then lstrip s' else s
  end.
Definition rstrip (s : string) : string :=
  String.rev (lstrip (String.rev s)).
Definition strip (s : string) : string := rstrip (lstrip s).

(** [v.lower()] on a dynamically typed value. *)
Definition str_lower (v : pyval) : res string :=
  match v with
  | PyStr s => Ok (lower s)
  | _ => Raise AttributeError
  end.

(** [any(w in s for w in ws)] *)
Definition any_in (ws : list string) (s : string) : bool :=
  existsb (λ w, contains w s) ws.

(** a method of [str] called on a dynamically typed value *)
Definition as_str (v : pyval) : res string :=
  match v with
  | PyStr s => Ok s
  | _ => Raise AttributeError
  end.

(** [parts[0]] and [parts[-1]] *)
Definition first {A} (l : list A) : res A :=
  match l with
  | [] => Raise IndexError
  | x :: _ => Ok x
  end.
Definition last {A} (l : list A) : res A :=
  match List.rev l with
  | [] => Raise IndexError
  | x :: _ => Ok x
  end.

(** [s.split(sep)] for a one-character separator: the pieces between the
    separators, empty pieces included. *)
Fixpoint split_on_go (sep : ascii) (cur : string) (s : string) : list string :=
  match s with
  | EmptyString => [String.rev cur]
  | String c s' =>
      if Ascii.eqb c sep
      then String.rev cur :: split_on_go sep EmptyString s'
      else split_on_go sep (String c cur) s'
  end.
Definition split_on (sep : ascii) (s : string) : list string :=
  split_on_go sep EmptyString s.

(** *** [re.sub(r'\b(a1|...|an)\b', '', s)]

    The alternatives are tried in order at every position where a word
    boundary holds; the first one that matches and is followed by a word
    boundary is deleted and the scan resumes after it.  [prev_word] tells
    whether the character before the current position is a word
    character. *)

Definition next_is_word (s : string) : bool :=
  match s with
  | EmptyString => false
  | String c _ => is_word c
  end.

Fixpoint strip_prefix (a s : string) : option string :=
  match a, s with
  | EmptyString, _ => Some s
  | String x a', String y s' =>
      if Ascii.eqb x y then strip_prefix a' s' else None
  | String _ _, EmptyString => None
  end.

Fixpoint last_is_word (prev_word : bool) (a : string) : bool :=
  match a with
  | EmptyString => prev_word
  | String c a' => last_is_word (is_word c) a'
  end.

Definition alt_matches (prev_word : bool) (s a : string) : bool :=
  match strip_prefix a s with
  | Some rest => xorb (last_is_word prev_word a) (next_is_word rest)
  | None => false
  end.

Definition match_alt (alts : list string) (prev_word : bool) (s : string)
  : option nat :=
  if xorb prev_word (next_is_word s)
  then String.length <$> List.find (alt_matches prev_word s) alts
  else None.

Fixpoint re_sub_go (alts : list string) (skip : nat) (prev_word : bool)
    (s : string) : string :=
  match s with
  | EmptyString => EmptyString
  | String c s' =>
      match skip with
      | S k => re_sub_go alts k (is_word c) s'
      | O =>
          match match_alt alts prev_word s with
          | Some (S k) => re_sub_go alts k (is_word c) s'
          | _ => String c (re_sub_go alts 0 (is_word c) s')
          end
      end
  end.
Definition re_sub_words (alts : list string) (s : string) : string :=
  re_sub_go alts 0 false s.

End Py.

Import Py.

(** ** The SQLite tables

    A table is the list of its rows in insertion order together with the
    AUTOINCREMENT counter.  A row maps column names to stored values.  Only
    what the program relies on is modelled: TEXT affinity of the key column,
    NOT NULL and UNIQUE constraints (NULLs never conflict), and that a
    failed INSERT raises [sqlite3.IntegrityError] and stores nothing. *)

Module Sqlite.

Inductive sqlval :=
| Null
| Text (s : string)
| Integer (z : Z).

Global Instance sqlval_eq_dec : EqDecision sqlval.
Proof. solve_decision. Defined.

(** Binding of a Python parameter to a statement. *)
Definition bind (v : pyval) : sqlval :=
  match v with
  | PyNone => Null
  | PyStr s => Text s
  | PyInt z => Integer z
  end.

(** What [dict(zip(columns, row))] gives back for a stored value. *)
Definition unbind (v : sqlval) : pyval :=
  match v with
  | Null => PyNone
  | Text s => PyStr s
  | Integer z => PyInt z
  end.

(** A column declared TEXT stores numbers in their text form. *)
Definition text_affinity (v : sqlval) : sqlval :=
  match v with
  | Integer z => Text (pretty z)
  | _ => v
  end.

Record Row := mkRow {
  rowid : Z;
  cells : gmap string sqlval
}.

Record Table := mkTable {
  rows : list Row;
  last_rowid : Z
}.

Definition empty : Table := mkTable [] 0.

Definition cell (r : Row) (col : string) : sqlval :=
  default Null (cells r !! col).

(** [SELECT ... WHERE col = ?]: a NULL parameter selects nothing. *)
Definition select_eq (t : Table) (col : string) (v : sqlval) : list Row :=
  match v with
  | Null => []
  | _ => List.filter (λ r, bool_decide (cell r col = v)) (rows t)
  end.

Record Schema := mkSchema {
  text_columns : list string;
  not_null : list string;
  unique : list string
}.

Definition coerce (sch : Schema) (kv : string * sqlval) : string * sqlval :=
  if bool_decide (kv.1 ∈ text_columns sch)
  then (kv.1, text_affinity kv.2) else kv.

Definition violates_not_null (sch : Schema) (c : gmap string sqlval) : bool :=
  existsb (λ col, bool_decide (default Null (c !! col) = Null)) (not_null sch).

Definition violates_unique (sch : Schema) (t : Table)
    (c : gmap string sqlval) : bool :=
  existsb (λ col,
    negb (bool_decide (select_eq t col (default Null (c !! col)) = [])))
    (unique sch).

(** [INSERT INTO leads (cols) VALUES (?, ...)]: [None] is
    [sqlite3.IntegrityError]; otherwise the new table and [lastrowid]. *)
Definition insert (sch : Schema) (t : Table) (values : list (string * sqlval))
  : option (Table * Z) :=
  let c : gmap string sqlval := list_to_map (coerce sch <$> values) in
  if violates_not_null sch c || violates_unique sch t c then None
  else
    let id := last_rowid t + 1 in
    Some (mkTable (rows t ++ [mkRow id c]) id, id).

(** The number of stored rows whose column [col] holds the text [u]. *)
Definition count_key (t : Table) (col : string) (u : string) : nat :=
  length (select_eq t col (Text u)).

(** The UNIQUE constraint as a property of a table. *)
Definition unique_on (col : string) (t : Table) : Prop :=
  ∀ v, v ≠ Null → (length (select_eq t col v) ≤ 1)%nat.

(** The order of stored values: NULL, then numbers, then text. *)
Definition sql_compare (a b : sqlval) : comparison :=
  match a, b with
  | Null, Null => Eq
  | Null, _ => Lt
  | _, Null => Gt
  | Integer x, Integer y => Z.compare x y
  | Integer _, Text _ => Lt
  | Text _, Integer _ => Gt
  | Text x, Text y => String.compare x y
  end.

(** [ORDER BY c1 DESC, c2 DESC, ...]: [r1] may come before [r2]. *)
Fixpoint desc_leb (cols : list string) (r1 r2 : Row) : bool :=
  match cols with
  | [] => true
  | c :: cols' =>
      match sql_compare (cell r1 c) (cell r2 c) with
      | Gt => true
      | Lt => false
      | Eq => desc_leb cols' r1 r2
      end
  end.

Definition order_by_desc (cols : list string) (rs : list Row) : list Row :=
  merge_sort (λ r1 r2, Is_true (desc_leb cols r1 r2)) rs.

(** [SELECT c1, c2, ... FROM leads ORDER BY ... DESC]: one tuple per row. *)
Definition select_desc (cols order : list string) (t : Table)
  : list (list pyval) :=
  (λ r, (λ c, unbind (cell r c)) <$> cols) <$> order_by_desc order (rows t).

(** [SELECT * FROM leads ORDER BY ... DESC] read back as dictionaries. *)
Definition select_all_desc (order : list string) (t : Table)
  : list (gmap string pyval) :=
  (λ r, <["id" := PyInt (rowid r)]> (unbind <$> cells r))
    <$> order_by_desc order (rows t).

End Sqlite.

(** ** The spreadsheet (gspread worksheet)

    The sink is external: what is recorded is the sequence of requests it
    receives, and the content of row 1, the only cells the program reads
    back ([row_values(1)]).  Requests are assumed to succeed. *)

Module Gspread.

Inductive request :=
| InsertRow (values : list pyval) (index : Z)
| Format (range : string)
| AppendRows (values : list (list pyval))
| BatchClear (ranges : list string)
| Clear
| Update (range : string) (values : list (list pyval)).

Record Sheet := mkSheet {
  first_row : list pyval;
  requests : list request
}.

Definition blank : Sheet := mkSheet [] [].

Definition log (r : request) (sh : Sheet) (row1 : list pyval) : Sheet :=
  mkSheet row1 (requests sh ++ [r]).

Definition row_values_1 (sh : Sheet) : list pyval := first_row sh.

(** [sheet.insert_row(values, 1)] *)
Definition insert_row_1 (values : list pyval) (sh : Sheet) : Sheet :=
  log (InsertRow values 1) sh values.

Definition format (range : string) (sh : Sheet) : Sheet :=
  log (Format range) sh (first_row sh).

(** [sheet.append_rows(rows)]: the rows go below the data already there. *)
Definition append_rows (values : list (list pyval)) (sh : Sheet) : Sheet :=
  log (AppendRows values) sh
    (match first_row sh with
     | [] => List.hd [] values
     | _ => first_row sh
     end).

(** [sheet.batch_clear(ranges)] for ranges that start below row 1. *)
Definition batch_clear (ranges : list string) (sh : Sheet) : Sheet :=
  log (BatchClear ranges) sh (first_row sh).

Definition clear (sh : Sheet) : Sheet := log Clear sh [].

(** [sheet.update('A1', values)] *)
Definition update_A1 (values : list (list pyval)) (sh : Sheet) : Sheet :=
  let new := List.hd [] values in
  log (Update "A1" values) sh (new ++ drop (length new) (first_row sh)).

(** A request that removes or overwrites cells already written. *)
Definition destructive (r : request) : bool :=
  match r with
  | BatchClear _ | Clear | Update _ _ => true
  | InsertRow _ _ | Format _ | AppendRows _ => false
  end.

Definition is_write (r : request) : bool :=
  match r with
  | Format _ => false
  | _ => true
  end.

End Gspread.

(** ** realtime_linkedin_scraper.py *)

Module Realtime.

(** *** class LeadScorer *)

Definition title_points (title : string) : Z :=
  if any_in ["cto"; "cio"; "chief"] title then 40
  else if any_in ["director"; "vp"; "head"] title then 30
  else if contains "manager" title then 20
  else if contains "senior" title then 15
  else 0.

Definition large_companies : list string :=
  ["emirates"; "etisalat"; "du"; "adnoc"; "dewa"; "sewa";
   "airport"; "bank"; "university"; "hospital"].

Definition calculate_score (lead : gmap string pyval) : res Z :=
  let score := 0 in
  title ← str_lower (get_or lead "title" (PyStr ""));
  let company := get_or lead "company" (PyStr "") in
  location ← str_lower (get_or lead "location" (PyStr ""));
  let score := score + title_points title in
  company_lower ← str_lower company;
  let score :=
    if any_in large_companies company_lower then score + 20
    else if truthy company then score + 10
    else score in
  let score :=
    if contains "sharjah" location || contains "ras al khaimah" location
       || contains "rak" location then score + 15
    else if contains "dubai" location || contains "uae" location
    then score + 10
    else score in
  let score := if truthy (get lead "email_1") then score + 10 else score in
  let score := if truthy (get lead "phone") then score + 8 else score in
  let score := if truthy (get lead "linkedin_url") then score + 7 else score in
  Ok (Z.min score 100).

Definition get_priority (score : Z) : string :=
  if 90 <=? score then "Hot"
  else if 80 <=? score then "High"
  else if 70 <=? score then "Medium"
  else "Low".

(** *** class EmailGenerator *)

Definition generate_emails (first_name last_name company_domain : string)
  : res (list string) :=
  let first := strip (lower first_name) in
  let last := strip (lower last_name) in
  let domain := strip (lower company_domain) in
  initial ← match first with
            | String c _ => Ok (String c EmptyString)
            | EmptyString => Raise IndexError
            end;
  Ok [ first +:+ "." +:+ last +:+ "@" +:+ domain;
       first +:+ "@" +:+ domain;
       first +:+ last +:+ "@" +:+ domain;
       initial +:+ last +:+ "@" +:+ domain;
       first +:+ "_" +:+ last +:+ "@" +:+ domain;
       last +:+ "." +:+ first +:+ "@" +:+ domain ].

Definition corporate_suffixes : list string :=
  ["llc"; "ltd"; "limited"; "inc"; "corporation"; "corp"; "group"; "holdings"].

Definition uae_companies : list (string * string) :=
  [ ("emirates", "emirates.com");
    ("etisalat", "etisalat.ae");
    ("du", "du.ae");
    ("adnoc", "adnoc.ae");
    ("enoc", "enoc.com");
    ("dewa", "dewa.gov.ae");
    ("sewa", "sewa.gov.ae");
    ("rakbank", "rakbank.ae");
    ("mashreq", "mashreqbank.com");
    ("emirates nbd", "emiratesnbd.com") ].

(** The cleaned name the lookups work on. *)
Definition clean_company_name (company_name : string) : string :=
  let name := lower company_name in
  let name := re_sub_words corporate_suffixes name in
  strip name.

Definition guess_company_domain (company_name : string) : string :=
  let name := clean_company_name company_name in
  match List.find (λ kd, contains kd.1 name) uae_companies with
  | Some (_, domain) => domain
  | None =>
      match split name with
      | base :: _ => base +:+ ".ae"
      | [] => "company.ae"
      end
  end.

(** *** class LeadDatabase *)

Record Clock := mkClock {
  today : string;      (* datetime.now().strftime('%Y-%m-%d') *)
  iso_now : string;    (* datetime.now().isoformat() *)
  timestamp : string   (* CURRENT_TIMESTAMP *)
}.

Definition schema : Sqlite.Schema :=
  {| Sqlite.text_columns :=
       ["date_added"; "name"; "title"; "company"; "location"; "industry";
        "company_size"; "linkedin_url"; "email_1"; "email_2"; "email_3";
        "phone"; "whatsapp"; "company_website"; "products_interest";
        "priority"; "notes"; "next_action"; "status"];
     Sqlite.not_null := ["name"];
     Sqlite.unique := ["linkedin_url"] |}.

Definition is_duplicate (db : Sqlite.Table) (linkedin_url : pyval) : bool :=
  negb (bool_decide
    (Sqlite.select_eq db "linkedin_url"
       (Sqlite.text_affinity (Sqlite.bind linkedin_url)) = [])).

Definition insert_values (clk : Clock) (lead : gmap string pyval)
  : list (string * Sqlite.sqlval) :=
  let col k dflt := (k, Sqlite.bind (get_or lead k dflt)) in
  [ ("date_added", Sqlite.Text (today clk));
    col "name" (PyStr "");
    col "title" (PyStr "");
    col "company" (PyStr "");
    col "location" (PyStr "");
    col "industry" (PyStr "");
    col "company_size" (PyStr "");
    col "linkedin_url" (PyStr "");
    col "email_1" (PyStr "");
    col "email_2" (PyStr "");
    col "email_3" (PyStr "");
    col "phone" (PyStr "");
    col "whatsapp" (PyStr "");
    col "company_website" (PyStr "");
    col "products_interest" (PyStr "IT Hardware, Servers, Storage");
    col "lead_score" (PyInt 0);
    col "priority" (PyStr "Medium");
    col "notes" (PyStr "");
    col "next_action" (PyStr "Send LinkedIn connection");
    col "status" (PyStr "New");
    ("created_at", Sqlite.Text (timestamp clk)) ].

(** Returns the database and the Python result: [Some lastrowid] or
    [None]. *)
Definition insert_lead (clk : Clock) (db : Sqlite.Table)
    (lead : gmap string pyval) : Sqlite.Table * option Z :=
  if is_duplicate db (get_or lead "linkedin_url" (PyStr "")) then (db, None)
  else
    match Sqlite.insert schema db (insert_values clk lead) with
    | Some (db', id) => (db', Some id)
    | None => (db, None)
    end.

(** *** class GoogleSheetsSync *)

Definition headers : list pyval :=
  PyStr <$>
  ["Date Added"; "Name"; "Title"; "Company"; "Location"; "Industry";
   "Company Size"; "LinkedIn"; "Email Option 1"; "Email Option 2";
   "Email Option 3"; "Phone"; "WhatsApp"; "Website"; "Products Interest";
   "Lead Score"; "Priority"; "Status"; "Next Action"; "Notes"].

(** [not existing or existing[0] != 'Date Added'], negated. *)
Definition has_header (existing : list pyval) : bool :=
  match existing with
  | [] => false
  | v :: _ => bool_decide (v = PyStr "Date Added")
  end.

Definition setup_headers (sh : Gspread.Sheet) : Gspread.Sheet :=
  if has_header (Gspread.row_values_1 sh) then sh
  else Gspread.format "A1:T1" (Gspread.insert_row_1 headers sh).

Definition sheet_row (lead : gmap string pyval) : list pyval :=
  [ get_or lead "date_added" (PyStr "");
    get_or lead "name" (PyStr "");
    get_or lead "title" (PyStr "");
    get_or lead "company" (PyStr "");
    get_or lead "location" (PyStr "");
    get_or lead "industry" (PyStr "");
    get_or lead "company_size" (PyStr "");
    get_or lead "linkedin_url" (PyStr "");
    get_or lead "email_1" (PyStr "");
    get_or lead "email_2" (PyStr "");
    get_or lead "email_3" (PyStr "");
    get_or lead "phone" (PyStr "");
    get_or lead "whatsapp" (PyStr "");
    get_or lead "company_website" (PyStr "");
    get_or lead "products_interest" (PyStr "");
    get_or lead "lead_score" (PyInt 0);
    get_or lead "priority" (PyStr "");
    get_or lead "status" (PyStr "");
    get_or lead "next_action" (PyStr "");
    get_or lead "notes" (PyStr "") ].

Definition append_new_leads (leads : list (gmap string pyval))
    (sh : Gspread.Sheet) : Gspread.Sheet :=
  match leads with
  | [] => sh
  | _ => Gspread.append_rows (sheet_row <$> leads) sh
  end.

(** *** class LinkedInProfileFinder, class CompanyWebsiteScraper

    The network is a state [World] read through the functions of [Env]:
    each call returns its answer and the next state.  [http_title] is the
    request of [scrape_linkedin_profile] up to the text of the page's
    title tag: [None] when the request raises, [Some None] when the page
    has no title tag. *)

Definition TARGET_TITLES : list string :=
  ["IT Director UAE"; "CTO Dubai"; "CTO Sharjah"; "IT Manager RAK";
   "Technology Director UAE"; "Infrastructure Manager Dubai"; "CIO UAE";
   "VP IT Dubai"; "Head of IT Sharjah"; "IT Procurement Manager UAE"].

Definition TARGET_LOCATIONS : list string :=
  ["Ras Al Khaimah"; "Sharjah"; "Dubai"; "United Arab Emirates"].

Record Env (World : Type) := mkEnv {
  now : World → Clock;
  http_title : string → World → option (option string) * World;
  search_linkedin_profiles :
    string → string → Z → World → list string * World;
  find_company_website : pyval → World → option string * World;
  extract_contacts_from_website :
    string → World → (list string * list string) * World;
  shuffle :
    list (string * string) → World → list (string * string) * World
}.
Global Arguments now {World} _ _.
Global Arguments http_title {World} _ _ _.
Global Arguments search_linkedin_profiles {World} _ _ _ _ _.
Global Arguments find_company_website {World} _ _ _.
Global Arguments extract_contacts_from_website {World} _ _ _.
Global Arguments shuffle {World} _ _ _.

Inductive Exit :=
| TargetReached
| MaxAttempts
| QueueExhausted.

Record Run (World : Type) := mkRun {
  world : World;
  db : Sqlite.Table;
  new_leads : list (gmap string pyval);
  attempts : Z
}.
Global Arguments mkRun {World} _ _ _ _.
Global Arguments world {World} _.
Global Arguments db {World} _.
Global Arguments new_leads {World} _.
Global Arguments attempts {World} _.

(** What a run leaves behind; the value returned by
    [collect_daily_leads] is [new_leads (final o)]. *)
Record Outcome (World : Type) := mkOutcome {
  final : Run World;
  exit : Exit;
  sheets : option Gspread.Sheet
}.
Global Arguments mkOutcome {World} _ _ _.
Global Arguments final {World} _.
Global Arguments exit {World} _.
Global Arguments sheets {World} _.

Section Collector.
Context {World : Type} (env : Env World).

Definition scrape_linkedin_profile (profile_url : string) (w : World)
  : option (gmap string pyval) * World :=
  let '(page, w) := http_title env profile_url w in
  match page with
  | None => (None, w)
  | Some title_tag =>
      let profile_data : gmap string pyval :=
        list_to_map
          [ ("linkedin_url", PyStr profile_url);
            ("name", PyStr "");
            ("title", PyStr "");
            ("company", PyStr "");
            ("location", PyStr "");
            ("scraped_at", PyStr (iso_now (now env w))) ] in
      let profile_data :=
        match title_tag with
        | Some title_text =>
            match split_on "|" title_text with
            | p0 :: p1 :: _ =>
                <["title" := PyStr (strip p1)]>
                  (<["name" := PyStr (strip p0)]> profile_data)
            | _ => profile_data
            end
        | None => profile_data
        end in
      (if truthy (get profile_data "name") then Some profile_data else None,
       w)
  end.

Definition initial_lead (linkedin_url : string) : gmap string pyval :=
  list_to_map
    [ ("linkedin_url", PyStr linkedin_url);
      ("name", PyStr "");
      ("title", PyStr "");
      ("company", PyStr "");
      ("location", PyStr "");
      ("industry", PyStr "");
      ("company_size", PyStr "");
      ("email_1", PyStr "");
      ("email_2", PyStr "");
      ("email_3", PyStr "");
      ("phone", PyStr "");
      ("whatsapp", PyStr "");
      ("company_website", PyStr "");
      ("products_interest",
        PyStr "IT Hardware, Servers, GPU Systems, Storage, AMC");
      ("lead_score", PyInt 0);
      ("priority", PyStr "Medium");
      ("notes", PyStr "");
      ("next_action", PyStr "Send LinkedIn connection request");
      ("status", PyStr "New") ].

(** "Parse name for email generation" *)
Definition derive_emails (lead : gmap string pyval)
  : res (gmap string pyval) :=
  name ← item lead "name";
  if truthy name then
    name ← as_str name;
    let name_parts := split name in
    if (2 <=? length name_parts)%nat then
      first_name ← first name_parts;
      last_name ← last name_parts;
      company ← item lead "company";
      if truthy company then
        company ← as_str company;
        let domain := guess_company_domain company in
        emails ← generate_emails first_name last_name domain;
        Ok (<["email_3" := PyStr (nth 2 emails "")]>
             (<["email_2" := PyStr (nth 1 emails "")]>
               (<["email_1" := PyStr (nth 0 emails "")]> lead)))
      else Ok lead
    else Ok lead
  else Ok lead.

(** "Find company website", "Extract contacts from website" and the
    WhatsApp check. *)
Definition mark_whatsapp (lead : gmap string pyval)
  : res (gmap string pyval) :=
  phone ← item lead "phone";
  phone_s ← as_str phone;
  if has_char "5" phone_s then Ok (<["whatsapp" := phone]> lead)
  else Ok lead.

Definition find_contacts (lead : gmap string pyval) (w : World)
  : res (gmap string pyval * World) :=
  company ← item lead "company";
  if truthy company then
    let '(website, w) := find_company_website env company w in
    match website with
    | Some site =>
        if negb (String.eqb site "") then
          let lead := <["company_website" := PyStr site]> lead in
          let '((_, phones), w) :=
            extract_contacts_from_website env site w in
          match phones with
          | phone :: _ =>
              lead ← mark_whatsapp (<["phone" := PyStr phone]> lead);
              Ok (lead, w)
          | [] => Ok (lead, w)
          end
        else Ok (lead, w)
    | None => Ok (lead, w)
    end
  else Ok (lead, w).

Definition score_lead (lead : gmap string pyval)
  : res (gmap string pyval) :=
  score ← calculate_score lead;
  let lead := <["lead_score" := PyInt score]> lead in
  Ok (<["priority" := PyStr (get_priority score)]> lead).

Definition enrich_lead (linkedin_url : string) (w : World)
  : res (option (gmap string pyval) * World) :=
  let lead := initial_lead linkedin_url in
  let '(profile_data, w) := scrape_linkedin_profile linkedin_url w in
  let lead :=
    match profile_data with
    | Some pd => pd ∪ lead
    | None => lead
    end in
  lead ← derive_emails lead;
  '(lead, w) ← find_contacts lead w;
  lead ← score_lead lead;
  name ← item lead "name";
  Ok (if truthy name then Some lead else None, w).

(** *** class DailyLeadCollector *)

Definition searches : list (string * string) :=
  title ← TARGET_TITLES;
  location ← take 2 TARGET_LOCATIONS;
  [(title, location)].

Definition accept (st : Run World) (lead_data : option (gmap string pyval))
  : Run World :=
  match lead_data with
  | Some lead =>
      if truthy (get lead "name") then
        match insert_lead (now env (world st)) (db st) lead with
        | (db', Some lead_id) =>
            if negb (lead_id =? 0)
            then mkRun (world st) db' (new_leads st ++ [lead]) (attempts st)
            else mkRun (world st) db' (new_leads st) (attempts st)
        | (db', None) =>
            mkRun (world st) db' (new_leads st) (attempts st)
        end
      else st
  | None => st
  end.

(** "Process each profile": the inner loop. *)
Fixpoint process_urls (target : Z) (urls : list string) (st : Run World)
  : res (Run World) :=
  match urls with
  | [] => Ok st
  | url :: rest =>
      if target <=? Z.of_nat (length (new_leads st)) then Ok st
      else
        let st := mkRun (world st) (db st) (new_leads st) (attempts st + 1) in
        if is_duplicate (db st) (PyStr url) then process_urls target rest st
        else
          '(lead_data, w) ← enrich_lead url (world st);
          let st := mkRun w (db st) (new_leads st) (attempts st) in
          process_urls target rest (accept st lead_data)
  end.

(** The outer loop over the shuffled searches, with the way it ended. *)
Fixpoint run_searches (target max_attempts : Z)
    (queue : list (string * string)) (st : Run World)
  : res (Run World * Exit) :=
  match queue with
  | [] => Ok (st, QueueExhausted)
  | (title, location) :: rest =>
      if target <=? Z.of_nat (length (new_leads st))
      then Ok (st, TargetReached)
      else if max_attempts <=? attempts st then Ok (st, MaxAttempts)
      else
        let '(linkedin_urls, w) :=
          search_linkedin_profiles env title location 5 (world st) in
        let st := mkRun w (db st) (new_leads st) (attempts st) in
        st ← process_urls target linkedin_urls st;
        run_searches target max_attempts rest st
  end.

(** The pauses ([time.sleep]) and the printed report do not change the
    state and are left out, except for the division by [target] in the
    "Success rate" line, which raises when [target] is zero. *)
Definition collect_daily_leads (target : Z) (w : World)
    (database : Sqlite.Table) (sh : option Gspread.Sheet)
  : res (Outcome World) :=
  let max_attempts := target * 3 in
  let '(queue, w) := shuffle env searches w in
  '(st, how) ← run_searches target max_attempts queue
                 (mkRun w database [] 0);
  if target =? 0 then Raise ZeroDivisionError
  else
    let sh :=
      match sh, new_leads st with
      | Some sheet, _ :: _ => Some (append_new_leads (new_leads st) sheet)
      | _, _ => sh
      end in
    Ok (mkOutcome st how sh).

End Collector.

End Realtime.

(** ** ai_hardware_sales_platform.py *)

Module Platform.

Inductive LeadStatus :=
| NEW | ENRICHED | LINKEDIN_PENDING | LINKEDIN_CONNECTED | CONTACTED
| RESPONDED | QUALIFIED | MEETING_SCHEDULED | PROPOSAL_SENT | NEGOTIATION
| WON | LOST.

(** The dataclass [Lead].  The fields no embedded function reads
    (product interests, vendors, budget, dates, activity log) are left
    out.  [lead_score] is a float in the source; every value the program
    gives it is a sum of the integer weights below, which floats hold
    exactly, so it is a [Z] here. *)
Record Lead := mkLead {
  id : string;
  company_name : string;
  contact_name : string;
  job_title : string;
  email : option string;
  phone : option string;
  whatsapp : option string;
  linkedin_url : option string;
  company_website : option string;
  company_size : option string;
  industry : option string;
  location : string;
  city : option string;
  tech_stack : option (list string);
  status : LeadStatus;
  lead_score : Z;
  linkedin_connection_sent : bool;
  linkedin_connection_accepted : bool;
  linkedin_message_sent : bool;
  linkedin_response_received : bool;
  notes : string;
  source : string
}.

(** [bool(x)] for an [Optional[str]] and an optional list. *)
Definition some_text (o : option string) : bool :=
  match o with
  | Some s => negb (String.eqb s "")
  | None => false
  end.
Definition some_items {A} (o : option (list A)) : bool :=
  match o with
  | Some (_ :: _) => true
  | _ => false
  end.

(** *** class ContactEnrichment *)

Definition find_whatsapp (phone : string) : option string :=
  if negb (String.eqb phone "") && startswith phone "+971" then
    if has_char "5" (slice phone 4 6) then Some phone else None
  else None.

(** *** class LeadScoringEngine *)

Definition title_scores : list (string * Z) :=
  [("CTO", 30); ("CIO", 30); ("VP", 25);
   ("Director", 20); ("Manager", 15); ("Head", 20)].

(** The loop over [title_scores.items()] with its [break]. *)
Fixpoint title_score (table : list (string * Z)) (job_title : string) : Z :=
  match table with
  | [] => 0
  | (keyword, points) :: table' =>
      if contains (lower keyword) (lower job_title) then points
      else title_score table' job_title
  end.

Definition size_scores : list (string * Z) :=
  [("1000+", 20); ("501-1000", 18); ("201-500", 15);
   ("51-200", 12); ("11-50", 8)].

Definition size_score (company_size : string) : Z :=
  match List.find (λ kv, String.eqb kv.1 company_size) size_scores with
  | Some (_, points) => points
  | None => 5
  end.

Definition relevant_tech : list string :=
  ["AWS"; "Azure"; "Dell"; "HPE"; "Cisco"; "VMware"].

Definition tech_matches (stack : list string) : Z :=
  Z.of_nat (size ((list_to_set stack : gset string) ∩ list_to_set relevant_tech)).

Definition calculate_score (lead : Lead) : Z :=
  let score := 0 in
  let score := score + title_score title_scores (job_title lead) in
  let score :=
    match company_size lead with
    | Some sz => if negb (String.eqb sz "") then score + size_score sz else score
    | None => score
    end in
  let score := if some_text (email lead) then score + 10 else score in
  let score := if some_text (phone lead) then score + 8 else score in
  let score := if some_text (linkedin_url lead) then score + 7 else score in
  let score :=
    if some_items (tech_stack lead)
    then score + Z.min (tech_matches (default [] (tech_stack lead)) * 5) 15
    else score in
  let score := if linkedin_connection_accepted lead then score + 5 else score in
  let score := if linkedin_response_received lead then score + 5 else score in
  Z.min score 100.

(** *** class SalesIntelligencePlatform

    The methods of [ContactEnrichment] that call outside services are
    placeholders in the source (their body is [pass], which returns
    [None]); what the services answer is a parameter. *)

Record Services := mkServices {
  find_email : string → string → pyval → option string;
  find_phone : string → string → string → option string;
  enrich_company_data : pyval → option (gmap string pyval);
  get_tech_stack : pyval → option (list string)
}.

Definition placeholders : Services :=
  {| find_email := λ _ _ _, None;
     find_phone := λ _ _ _, None;
     enrich_company_data := λ _, None;
     get_tech_stack := λ _, None |}.

(** [raw_lead['name'].split()[0]] and [raw_lead['name'].split()[-1]] *)
Definition split_name (name : string) : res (string * string) :=
  first_name ← first (split name);
  last_name ← last (split name);
  Ok (first_name, last_name).

Definition opt_str (v : pyval) : option string :=
  match v with
  | PyStr s => Some s
  | _ => None
  end.

Definition enrich_lead (svc : Services) (raw_lead : gmap string pyval)
  : res Lead :=
  id ← item raw_lead "id" ≫= as_str;
  company ← item raw_lead "company" ≫= as_str;
  name ← item raw_lead "name" ≫= as_str;
  title ← item raw_lead "title" ≫= as_str;
  url ← item raw_lead "linkedin_url";
  let domain := raw_lead !! "company_domain" in
  email ← match domain with
          | Some d =>
              '(first_name, last_name) ← split_name name;
              Ok (find_email svc first_name last_name d)
          | None => Ok None
          end;
  let phone := find_phone svc name company "UAE" in
  let whatsapp :=
    if some_text phone then find_whatsapp (default "" phone) else None in
  '(size, industry) ←
    match domain with
    | Some d =>
        match enrich_company_data svc d with
        | Some company_data =>
            Ok (opt_str (get company_data "size"),
                opt_str (get company_data "industry"))
        | None => Raise AttributeError
        end
    | None => Ok (None, None)
    end;
  let stack :=
    match domain with
    | Some d => get_tech_stack svc d
    | None => None
    end in
  let lead :=
    mkLead id company name title email phone whatsapp (opt_str url)
      None size industry "UAE" None stack NEW 0
      false false false false "" "" in
  Ok (mkLead id company name title email phone whatsapp (opt_str url)
        None size industry "UAE" None stack NEW (calculate_score lead)
        false false false false "" "LinkedIn Sales Navigator").

End Platform.

(** ** apollo_linkedin_scraper.py *)

Module Apollo.

Definition DAILY_TARGET : Z := 50.

(** A person of the search answer: its scalar members, its phone numbers
    and its organization (an absent organization is the empty
    dictionary). *)
Record Person := mkPerson {
  fields : gmap string pyval;
  phone_numbers : list (gmap string pyval);
  organization : gmap string pyval
}.

Record Body := mkBody {
  people : list Person;
  pagination : gmap string pyval
}.

(** An HTTP answer; [json] is [None] when [response.json()] raises. *)
Record Response := mkResponse {
  status_code : Z;
  json : option Body
}.

(** The session: the outside world and the pauses taken so far, in
    seconds, oldest first. *)
Record Session (World : Type) := mkSession {
  world : World;
  slept : list Z
}.
Global Arguments mkSession {World} _ _.
Global Arguments world {World} _.
Global Arguments slept {World} _.

Section Search.
Context {World : Type}.
(** [self.session.post(endpoint, json=payload, timeout=30)]; [None] when
    the request raises. *)
Variable post : Z → Z → World → option Response * World.

Definition sleep (seconds : Z) (st : Session World) : Session World :=
  mkSession (world st) (slept st ++ [seconds]).

(** The retry is a recursive call and the source gives it no bound of its
    own.  What ends it against a source that keeps answering 429 is the
    interpreter's recursion limit: the call that exceeds it raises
    [RecursionError], the handler [except Exception] of the frame that
    made the call returns the empty page, and every frame above returns
    that value.  [limit] is the number of nested retries the interpreter
    leaves room for. *)
Fixpoint search_people (limit : nat) (page per_page : Z)
    (st : Session World)
  : (list Person * gmap string pyval) * Session World :=
  let '(answer, w) := post page per_page (world st) in
  let st := mkSession w (slept st) in
  match answer with
  | Some response =>
      if status_code response =? 200 then
        match json response with
        | Some data => ((people data, pagination data), st)
        | None => (([], ∅), st)
        end
      else if status_code response =? 429 then
        let st := sleep 60 st in
        match limit with
        | S limit' => search_people limit' page per_page st
        | O => (([], ∅), st)
        end
      else (([], ∅), st)
  | None => (([], ∅), st)
  end.
End Search.

(** *** calculate_lead_score *)

Definition title_points (title : string) : Z :=
  if any_in ["cto"; "chief technology"; "chief information"] title then 35
  else if any_in ["director"; "vp"; "vice president"] title then 30
  else if contains "manager" title then 20
  else if contains "head" title || contains "lead" title then 15
  else 0.

(** [emp_count >= n] on a dynamically typed count. *)
Definition as_int (v : pyval) : res Z :=
  match v with
  | PyInt z => Ok z
  | _ => Raise TypeError
  end.

Definition calculate_lead_score (person : Person) : res Z :=
  let score := 0 in
  title ← str_lower (get_or (fields person) "title" (PyStr ""));
  let score := score + title_points title in
  let email_status := get (fields person) "email_status" in
  let score :=
    if bool_decide (email_status = PyStr "verified") then score + 20
    else if bool_decide (email_status = PyStr "guessed") then score + 10
    else score in
  let score :=
    match phone_numbers person with
    | _ :: _ => score + 10
    | [] => score
    end in
  emp_count ← as_int (get_or (organization person)
                              "estimated_num_employees" (PyInt 0));
  let score :=
    if 1000 <=? emp_count then score + 20
    else if 200 <=? emp_count then score + 15
    else if 50 <=? emp_count then score + 10
    else if 10 <=? emp_count then score + 5
    else score in
  location ← str_lower (get_or (fields person) "city" (PyStr ""));
  let score :=
    if any_in ["dubai"; "sharjah"; "rak"; "abu dhabi"] location
    then score + 15 else score in
  Ok (Z.min score 100).

(** *** sync_to_google_sheets *)

Definition headers : list pyval :=
  PyStr <$>
  ["Name"; "Title"; "Company"; "Location"; "Email"; "Phone";
   "LinkedIn"; "Website"; "Score"; "Email Status"; "Collected"; "Notes"].

Definition sheet_columns : list string :=
  ["name"; "title"; "company_name"; "location_city"; "email"; "phone";
   "linkedin_url"; "company_website"; "lead_score"; "email_status";
   "collected_date"; "notes"].

(** [credentials] is [os.path.exists(GOOGLE_CREDS)].  Returns the sheet
    and the Boolean result. *)
Definition sync_to_google_sheets (credentials : bool) (db : Sqlite.Table)
    (sheet : Gspread.Sheet) : Gspread.Sheet * bool :=
  if negb credentials then (sheet, false)
  else
    let leads :=
      Sqlite.select_desc sheet_columns ["lead_score"; "collected_date"] db in
    let sheet := Gspread.clear sheet in
    let sheet := Gspread.update_A1 (headers :: leads) sheet in
    let sheet := Gspread.format "A1:L1" sheet in
    (sheet, true).

End Apollo.

(** ** apify_sales_lead/apify_linkedin_scraper.py *)

Module Apify.

Definition DAILY_TARGET : Z := 50.

(** A member of [contactInfo]: a scalar or a list. *)
Inductive contact :=
| One (v : pyval)
| Many (l : list pyval).

(** An item of the actor's dataset: its scalar members, [contactInfo]
    (absent: the empty dictionary) and [positions] (absent: the empty
    list). *)
Record Profile := mkProfile {
  fields : gmap string pyval;
  contactInfo : gmap string contact;
  positions : list (gmap string pyval)
}.




(** [str(v)].  The decimal conversion of an integer of more than 4300
    digits raises [ValueError]: the interpreter's limit on such
    conversions ([sys.int_max_str_digits], from Python 3.11). *)
Definition int_max_str_digits : nat := 4300.

Definition py_str (v : pyval) : res string :=
  match v with
  | PyNone => Ok "None"
  | PyStr s => Ok s
  | PyInt z =>
      if (int_max_str_digits <? String.length (pretty (Z.abs z)))%nat
      then Raise ValueError
      else Ok (pretty z)
  end.

(** [''.join(filter(str.isdigit, s))] *)
Fixpoint digits (s : string) : string :=
  match s with
  | EmptyString => EmptyString
  | String c s' => if is_digit c then String c (digits s') else digits s'
  end.

(** [int(ds or 0)] for a string [ds] of characters that satisfy
    [str.isdigit]: [ValueError] when one of them is not a decimal digit
    (a superscript) or when there are more than 4300 of them. *)
Fixpoint all_decimal (s : string) : bool :=
  match s with
  | EmptyString => true
  | String c s' => is_decimal c && all_decimal s'
  end.
Fixpoint int_of_digits (acc : Z) (s : string) : Z :=
  match s with
  | EmptyString => acc
  | String c s' => int_of_digits (acc * 10 + Z.of_nat (nat_of_ascii c - 48)) s'
  end.
Definition py_int (ds : string) : res Z :=
  if String.eqb ds "" then Ok 0
  else if all_decimal ds && (String.length ds <=? int_max_str_digits)%nat
  then Ok (int_of_digits 0 ds)
  else Raise ValueError.

Definition title_points (title : string) : Z :=
  if any_in ["cto"; "chief technology"; "chief information"] title then 40
  else if any_in ["director"; "vp"; "vice president"] title then 30
  else if contains "manager" title then 20
  else if any_in ["head"; "lead"] title then 15
  else 0.

Definition calculate_lead_score (profile : gmap string pyval) : res Z :=
  let score := 0 in
  title ← str_lower (por (get profile "title")
                        (por (get profile "headline") (PyStr "")));
  let score := score + title_points title in
  location ← str_lower (por (get profile "location") (PyStr ""));
  let score :=
    if any_in ["dubai"; "sharjah"; "rak"; "ras al khaimam"; "uae"; "emirates"]
         location
    then score + 20 else score in
  let score := if truthy (get profile "email") then score + 10 else score in
  let score := if truthy (get profile "phone") then score + 10 else score in
  let score := if truthy (get profile "about") then score + 5 else score in
  let score := if truthy (get profile "company_name") then score + 5 else score in
  connections_points ←
    (if truthy (get profile "connections") then
       connections ← py_str (get_or profile "connections" (PyStr ""));
       if contains "500+" connections then Ok 10
       else
         count ← py_int (digits connections);
         Ok (if 200 <? count then 5 else 0)
     else Ok 0);
  let score := score + connections_points in
  Ok (Z.min score 100).

(** *** The table *)

Definition columns : list string :=
  ["linkedin_url"; "name"; "first_name"; "last_name"; "title"; "headline";
   "location"; "email"; "phone"; "company_name"; "company_website";
   "company_linkedin"; "company_industry"; "connections"; "about";
   "lead_score"; "collected_date"; "notes"].

Definition schema : Sqlite.Schema :=
  {| Sqlite.text_columns :=
       List.filter (λ c, negb (String.eqb c "lead_score")) columns;
     Sqlite.not_null := [];
     Sqlite.unique := ["linkedin_url"] |}.

Definition is_duplicate (db : Sqlite.Table) (linkedin_url : pyval) : bool :=
  negb (bool_decide
    (Sqlite.select_eq db "linkedin_url"
       (Sqlite.text_affinity (Sqlite.bind linkedin_url)) = [])).


(** The names: lines "Extract name" of [process_profile]. *)
Definition names (profile_data : gmap string pyval)
  : res (pyval * pyval * pyval) :=
  let full_name := por (get profile_data "fullName")
                       (get_or profile_data "name" (PyStr "")) in
  let first_name := get_or profile_data "firstName" (PyStr "") in
  let last_name := get_or profile_data "lastName" (PyStr "") in
  if negb (truthy first_name) && truthy full_name then
    full ← as_str full_name;
    let parts := split full in
    let first_name :=
      match parts with
      | p :: _ => PyStr p
      | [] => PyStr ""
      end in
    let last_name :=
      if (1 <? length parts)%nat
      then PyStr (List.last parts "") else PyStr "" in
    Ok (full_name, first_name, last_name)
  else Ok (full_name, first_name, last_name).


(** The scraper object: the table behind [DATABASE], the counter
    [leads_collected] and the worksheet. *)
Record Scraper := mkScraper {
  db : Sqlite.Table;
  leads_collected : Z;
  sheet : Gspread.Sheet
}.

(** The tuple of the INSERT: [None] when a key is missing (KeyError). *)
Definition insert_values (lead : gmap string pyval)
  : option (list (string * Sqlite.sqlval)) :=
  mapM (λ c, v ← lead !! c; Some (c, Sqlite.bind v)) columns.

Definition save_lead (s : Scraper) (lead : gmap string pyval)
  : Scraper * bool :=
  match insert_values lead with
  | None => (s, false)
  | Some values =>
      match Sqlite.insert schema (db s) values with
      | Some (db', _) =>
          (mkScraper db' (leads_collected s + 1) (sheet s), true)
      | None => (s, false)
      end
  end.

Definition headers : list pyval :=
  PyStr <$>
  ["Name"; "Title"; "Company"; "Location"; "Email"; "Phone";
   "LinkedIn"; "Website"; "Score"; "Connections"; "Collected"; "Notes"].

Definition sheet_columns : list string :=
  ["name"; "title"; "company_name"; "location"; "email"; "phone";
   "linkedin_url"; "company_website"; "lead_score"; "connections";
   "collected_date"; "notes"].

Definition sync_to_google_sheets (credentials : bool) (s : Scraper)
  : Scraper * bool :=
  if negb credentials then (s, false)
  else
    let leads :=
      Sqlite.select_desc sheet_columns ["lead_score"; "collected_date"]
        (db s) in
    let sh := Gspread.clear (sheet s) in
    let sh := Gspread.update_A1 (headers :: leads) sh in
    let sh := Gspread.format "A1:L1" sh in
    (mkScraper (db s) (leads_collected s) sh, true).

(** *** run_daily_collection *)

Inductive Exit :=
| NoProfiles
| TargetReached
| QueueExhausted.

Record Env (World : Type) := mkEnv {
  run_linkedin_scraper_actor : World → option (list Profile) * World;
  now_iso : World → string * World;
  credentials : World → bool
}.
Global Arguments run_linkedin_scraper_actor {World} _ _.
Global Arguments now_iso {World} _ _.
Global Arguments credentials {World} _.

Section Run.
Context {World : Type} (env : Env World).


End Run.

End Apify.

(** ** complete_scraper_gsheets.py *)

Module Complete.

Definition schema : Sqlite.Schema :=
  {| Sqlite.text_columns :=
       ["date_added"; "name"; "title"; "company"; "location"; "industry";
        "company_size"; "linkedin_url"; "email_1"; "email_2"; "email_3";
        "phone"; "whatsapp"; "company_website"; "products_interest";
        "priority"; "notes"; "next_action"; "status"];
     Sqlite.not_null := ["name"];
     Sqlite.unique := ["linkedin_url"] |}.

Definition insert_values (clk : Realtime.Clock) (lead : gmap string pyval)
  : list (string * Sqlite.sqlval) :=
  let col k := (k, Sqlite.bind (get lead k)) in
  let col_or k dflt := (k, Sqlite.bind (get_or lead k dflt)) in
  [ ("date_added", Sqlite.Text (Realtime.today clk));
    col "name"; col "title"; col "company"; col "location"; col "industry";
    col "company_size"; col "linkedin_url"; col "email_1"; col "email_2";
    col "email_3"; col "phone"; col "whatsapp"; col "company_website";
    col "products_interest";
    col_or "lead_score" (PyInt 0);
    col_or "priority" (PyStr "Medium");
    col_or "notes" (PyStr "");
    col_or "next_action" (PyStr "");
    col_or "status" (PyStr "New");
    ("created_at", Sqlite.Text (Realtime.timestamp clk)) ].

Definition insert_lead (clk : Realtime.Clock) (db : Sqlite.Table)
    (lead : gmap string pyval) : Sqlite.Table * option Z :=
  match Sqlite.insert schema db (insert_values clk lead) with
  | Some (db', id) => (db', Some id)
  | None => (db, None)
  end.

Definition get_all_leads (db : Sqlite.Table) : list (gmap string pyval) :=
  Sqlite.select_all_desc ["lead_score"] db.

Definition setup_headers (sh : Gspread.Sheet) : Gspread.Sheet :=
  if Realtime.has_header (Gspread.row_values_1 sh) then sh
  else Gspread.format "A1:T1" (Gspread.insert_row_1 Realtime.headers sh).

Definition sync_leads (leads : list (gmap string pyval))
    (sh : Gspread.Sheet) : Gspread.Sheet :=
  let sh := Gspread.batch_clear ["A2:T1000"] sh in
  match Realtime.sheet_row <$> leads with
  | [] => sh
  | rows => Gspread.append_rows rows sh
  end.

(** "Insert sample leads": the loop of [main], counting the inserted
    leads.  [clk i] is the clock when the lead at position [i] is
    inserted. *)
Fixpoint insert_all (clk : nat → Realtime.Clock) (i : nat)
    (leads : list (gmap string pyval)) (db : Sqlite.Table)
  : Sqlite.Table * Z :=
  match leads with
  | [] => (db, 0)
  | lead :: rest =>
      match insert_lead (clk i) db lead with
      | (db', Some lead_id) =>
          let '(db'', n) := insert_all clk (S i) rest db' in
          (db'', if negb (lead_id =? 0) then n + 1 else n)
      | (db', None) => insert_all clk (S i) rest db'
      end
  end.

(** [main], with the list [SAMPLE_LEADS] as a parameter.  [gsheets] is
    [GSHEETS_AVAILABLE and os.path.exists(CONFIG["google_credentials"])].
    Returns the database, [inserted_count] and the worksheet. *)
Definition main (sample_leads : list (gmap string pyval))
    (clk : nat → Realtime.Clock) (gsheets : bool)
    (db : Sqlite.Table) (sh : Gspread.Sheet)
  : Sqlite.Table * Z * Gspread.Sheet :=
  let '(db, inserted_count) := insert_all clk 0 sample_leads db in
  let all_leads := get_all_leads db in
  let sh :=
    if gsheets then sync_leads all_leads (setup_headers sh) else sh in
  (db, inserted_count, sh).

End Complete.

(** * Vocabulary of the statements and sample inputs *)

(** The keys [calculate_score] reads. *)
Definition score_keys : list string :=
  ["title"; "company"; "location"; "email_1"; "phone"; "linkedin_url"].

(** A value on which [.lower()] is defined, or no value at all. *)
Definition text_or_absent (o : option pyval) : Prop :=
  match o with
  | Some (PyStr _) | None => True
  | _ => False
  end.

Definition demo_lead : gmap string pyval :=
  <["title" := PyStr "IT Manager"]>
    (<["company" := PyStr "RAK Ceramics"]>
      (<["location" := PyStr "Ras Al Khaimah, UAE"]>
        (<["email_1" := PyStr "ahmed.hassan@rak.ae"]>
          (<["phone" := PyStr "+971 7 244 8222"]>
            (<["linkedin_url" := PyStr "https://linkedin.com/in/ahmed-hassan"]>
              ∅))))).

Definition demo_platform_lead : Platform.Lead :=
  Platform.mkLead "L-1" "RAK Ceramics" "Ahmed Hassan" "IT Director"
    (Some "ahmed.hassan@rakceramics.com") (Some "+971 7 244 8222") None
    (Some "https://linkedin.com/in/ahmed-hassan") None (Some "1000+")
    (Some "Manufacturing") "UAE" None (Some ["Dell"; "VMware"; "Oracle"])
    Platform.NEW 0 false true false false "" "".

(** The claim on title seniority, in its own words: an ordered list of
    keyword bands, the first band with a keyword in the title gives the
    points. *)
Fixpoint spec_first_band (bands : list (list string * Z)) (title : string) : Z :=
  match bands with
  | [] => 0
  | (keywords, points) :: bands' =>
      if any_in keywords title then points else spec_first_band bands' title
  end.

(** Most senior first: the points never increase along the list. *)
Fixpoint spec_senior_first (bands : list (list string * Z)) : Prop :=
  match bands with
  | [] => True
  | (_, points) :: bands' =>
      (∀ b, b ∈ bands' → b.2 ≤ points) ∧ spec_senior_first bands'
  end.

Definition apify_title_bands : list (list string * Z) :=
  [ (["cto"; "chief technology"; "chief information"], 40);
    (["director"; "vp"; "vice president"], 30);
    (["manager"], 20);
    (["head"; "lead"], 15) ].

Definition apollo_title_bands : list (list string * Z) :=
  [ (["cto"; "chief technology"; "chief information"], 35);
    (["director"; "vp"; "vice president"], 30);
    (["manager"], 20);
    (["head"; "lead"], 15) ].

Definition realtime_title_bands : list (list string * Z) :=
  [ (["cto"; "cio"; "chief"], 40);
    (["director"; "vp"; "head"], 30);
    (["manager"], 20);
    (["senior"], 15) ].

(** The bands of [LeadScoringEngine.title_scores], one keyword each, in the
    order of the dictionary. *)
Definition platform_title_bands : list (list string * Z) :=
  (λ kp, ([lower kp.1], kp.2)) <$> Platform.title_scores.

(** The claim on WhatsApp, in its own words: the prefix +971 followed by a
    5 in the operator-prefix position, the first digit after the country
    code (blanks and dashes in between do not count). *)
Fixpoint first_digit (s : string) : option ascii :=
  match s with
  | EmptyString => None
  | String c s' => if is_decimal c then Some c else first_digit s'
  end.

Fixpoint string_drop (n : nat) (s : string) : string :=
  match n, s with
  | O, _ => s
  | S n', String _ s' => string_drop n' s'
  | S _, EmptyString => EmptyString
  end.

Definition spec_uae_mobile (phone : string) : bool :=
  startswith phone "+971"
  && bool_decide (first_digit (string_drop 4 phone) = Some "5"%char).

(** A profile that brings its own first and last name. *)
Definition profile_with_first_name : gmap string pyval :=
  <["fullName" := PyStr "John Smith"]>
    (<["firstName" := PyStr "Johnny"]>
      (<["lastName" := PyStr "S"]> ∅)).

(** The identity key of a lead as the table sees it: the value bound to
    the column [linkedin_url], in its TEXT form. *)
Definition realtime_key (lead : gmap string pyval) : Sqlite.sqlval :=
  Sqlite.text_affinity (Sqlite.bind (get_or lead "linkedin_url" (PyStr ""))).

Definition apify_key (lead : gmap string pyval) : Sqlite.sqlval :=
  Sqlite.text_affinity (Sqlite.bind (get lead "linkedin_url")).

(** A sequence of candidates through [LeadDatabase.insert_lead], each with
    the clock at its insertion, and through [save_lead]. *)
Definition realtime_insert_all
    (inputs : list (Realtime.Clock * gmap string pyval)) (db : Sqlite.Table)
  : Sqlite.Table :=
  fold_left (λ db input, (Realtime.insert_lead input.1 db input.2).1) inputs db.

Definition apify_save_all (leads : list (gmap string pyval)) (s : Apify.Scraper)
  : Apify.Scraper :=
  fold_left (λ s lead, (Apify.save_lead s lead).1) leads s.

Definition sample_clock : Realtime.Clock :=
  Realtime.mkClock "2024-05-01" "2024-05-01T09:00:00" "2024-05-01 09:00:00".

Definition sample_candidate : gmap string pyval :=
  <["name" := PyStr "Ahmed Hassan"]>
    (<["linkedin_url" := PyStr "https://linkedin.com/in/ahmed-hassan"]> ∅).

Definition sample_apify_lead : gmap string pyval :=
  list_to_map ((λ c, (c, PyStr "x")) <$> Apify.columns).

Definition empty_scraper : Apify.Scraper :=
  Apify.mkScraper Sqlite.empty 0 Gspread.blank.

(** The world after [n] requests of the same query. *)
Fixpoint after_requests {World : Type}
    (post : Z → Z → World → option Apollo.Response * World)
    (page per_page : Z) (n : nat) (w : World) : World :=
  match n with
  | O => w
  | S n' => after_requests post page per_page n' (post page per_page w).2
  end.

(** The n-th answer (from 0) to the same query. *)
Definition nth_answer {World : Type}
    (post : Z → Z → World → option Apollo.Response * World)
    (page per_page : Z) (n : nat) (w : World) : option Apollo.Response :=
  (post page per_page (after_requests post page per_page n w)).1.

Definition rate_limited (answer : option Apollo.Response) : Prop :=
  ∃ r, answer = Some r ∧ Apollo.status_code r = 429.

(** What [search_people] returns for an answer that is not a 429. *)
Definition final_outcome (answer : option Apollo.Response)
  : list Apollo.Person * gmap string pyval :=
  match answer with
  | Some r =>
      if Apollo.status_code r =? 200 then
        match Apollo.json r with
        | Some data => (Apollo.people data, Apollo.pagination data)
        | None => ([], ∅)
        end
      else ([], ∅)
  | None => ([], ∅)
  end.

(** A source that answers 429 to every request, and one that answers 429
    to the first [k] requests and 200 with an empty page afterwards; the
    world of the second counts the requests. *)
Definition always_429 (page per_page : Z) (w : unit)
  : option Apollo.Response * unit :=
  (Some (Apollo.mkResponse 429 None), w).

Definition recovers_after (k : nat) (page per_page : Z) (n : nat)
  : option Apollo.Response * nat :=
  (if (n <? k)%nat
   then Some (Apollo.mkResponse 429 None)
   else Some (Apollo.mkResponse 200 (Some (Apollo.mkBody [] ∅))),
   S n).

(** What the collector knows of a lead when it enriches it: a name and a
    title that are strings, and an empty company and location. *)
Definition bare (lead : gmap string pyval) : Prop :=
  (∃ n, lead !! "name" = Some (PyStr n))
  ∧ (∃ t, lead !! "title" = Some (PyStr t))
  ∧ lead !! "company" = Some (PyStr "")
  ∧ lead !! "location" = Some (PyStr "").

(** The run has accepted no more leads than its target. *)
Definition within {World : Type} (target : Z) (st : Realtime.Run World) : Prop :=
  Z.of_nat (length (Realtime.new_leads st)) ≤ target.

(** The text members of an Apify item are strings or missing. *)
Definition not_a_number (v : pyval) : Prop :=
  match v with
  | PyInt _ => False
  | _ => True
  end.

(** A connection count that converts: [str] of it returns, and so does
    [int] of the digits of that text (no superscript among them, and no
    more than 4300 digits). *)
Definition converts (v : pyval) : Prop :=
  ∃ text count,
    Apify.py_str v = Ok text ∧ Apify.py_int (Apify.digits text) = Ok count.







(** A small world for the collector: every search finds the same profile,
    whose page title gives a name and a job title. *)
Definition demo_env : Realtime.Env unit :=
  Realtime.mkEnv unit
    (λ _, sample_clock)
    (λ _ w, (Some (Some "Ahmed Hassan | IT Director | LinkedIn"), w))
    (λ _ _ _ w, (["https://linkedin.com/in/ahmed-hassan"], w))
    (λ _ w, (None, w))
    (λ _ w, (([], []), w))
    (λ queue w, (queue, w)).



(** The identity key of a sample lead of [complete_scraper_gsheets], and
    what makes its INSERT fail: a missing name, or a stored key. *)
Definition complete_key (lead : gmap string pyval) : Sqlite.sqlval :=
  Sqlite.text_affinity (Sqlite.bind (get lead "linkedin_url")).

Definition blocked (db : Sqlite.Table) (lead : gmap string pyval) : Prop :=
  Sqlite.text_affinity (Sqlite.bind (get lead "name")) = Sqlite.Null
  ∨ Sqlite.select_eq db "linkedin_url" (complete_key lead) ≠ [].

(** The worksheet has its header row. *)
Definition headed (sh : Gspread.Sheet) : Prop :=
  Realtime.has_header (Gspread.first_row sh) = true.

(** The requests of a full synchronisation of [complete_scraper_gsheets]. *)
Definition full_sync_requests (db : Sqlite.Table) : list Gspread.request :=
  Gspread.BatchClear ["A2:T1000"]
  :: match Realtime.sheet_row <$> Complete.get_all_leads db with
     | [] => []
     | rows => [Gspread.AppendRows rows]
     end.

(** Two runs of [main] on the same sample leads. *)
Definition first_run (samples : list (gmap string pyval))
    (clk : nat → Realtime.Clock) (db : Sqlite.Table) (sh : Gspread.Sheet)
  : Sqlite.Table * Z * Gspread.Sheet :=
  Complete.main samples clk true db sh.

Definition second_run (samples : list (gmap string pyval))
    (clk clk' : nat → Realtime.Clock) (db : Sqlite.Table) (sh : Gspread.Sheet)
  : Sqlite.Table * Z * Gspread.Sheet :=
  let '(db1, _, sh1) := first_run samples clk db sh in
  Complete.main samples clk' true db1 sh1.

(** The requests the second run adds to those of the first. *)
Definition second_run_requests (samples : list (gmap string pyval))
    (clk clk' : nat → Realtime.Clock) (db : Sqlite.Table) (sh : Gspread.Sheet)
  : list Gspread.request :=
  drop (length (Gspread.requests (first_run samples clk db sh).2))
    (Gspread.requests (second_run samples clk clk' db sh).2).

(** Auxiliary notions for the cleaning of company names: the maximal run
    of word characters at the head of a string, what follows it, a string
    of word characters only, and what the substitution does with a whole
    run. *)
Fixpoint word_prefix (s : string) : string :=
  match s with
  | EmptyString => EmptyString
  | String c s' => if is_word c then String c (word_prefix s') else EmptyString
  end.

Fixpoint after_word (s : string) : string :=
  match s with
  | EmptyString => EmptyString
  | String c s' => if is_word c then after_word s' else s
  end.

Fixpoint all_word (s : string) : bool :=
  match s with
  | EmptyString => true
  | String c s' => is_word c && all_word s'
  end.

Definition flush (alts : list string) (run : string) : string :=
  if existsb (String.eqb run) alts then EmptyString else run.

(** A key of the override table as the lookups need it: not empty, made of
    word characters, neither starting nor ending with a blank, and inside
    no corporate suffix. *)
Definition first_nonspace (s : string) : bool :=
  match s with
  | EmptyString => false
  | String c _ => negb (isspace c)
  end.

Definition plain_key (k : string) : bool :=
  negb (String.eqb k "") && all_word k
  && first_nonspace k && first_nonspace (String.rev k)
  && negb (existsb (contains k) Realtime.corporate_suffixes).

(** [k] occurs in [s], on the lists of characters. *)
Definition occurs (k s : list ascii) : Prop :=
  ∃ pre post, s = pre ++ k ++ post.

(** The keys of a lead that [enrich_lead] can only fill from a company
    name. *)
Definition contact_keys : list string :=
  ["company"; "email_1"; "email_2"; "email_3"; "phone"; "whatsapp";
   "company_website"].

(** The dictionary built by [scrape_linkedin_profile] from a page whose
    title has a [|]. *)
Definition scraped (url name title stamp : string) : gmap string pyval :=
  <["title" := PyStr title]>
    (<["name" := PyStr name]>
      (list_to_map
         [ ("linkedin_url", PyStr url); ("name", PyStr "");
           ("title", PyStr ""); ("company", PyStr "");
           ("location", PyStr ""); ("scraped_at", PyStr stamp) ])).

(** The URL cell of a stored row, and a key that no stored row holds. *)
Definition url_cell (r : Sqlite.Row) : Sqlite.sqlval :=
  Sqlite.cell r "linkedin_url".

Definition fresh_in (db : Sqlite.Table) (k : Sqlite.sqlval) : Prop :=
  k ≠ Sqlite.Null ∧ Sqlite.select_eq db "linkedin_url" k = [].

(** A lead as [enrich_lead] returns it. *)
Definition enriched (lead : gmap string pyval) : Prop :=
  ∃ url name title stamp s,
    name ≠ "" ∧ 0 ≤ s ≤ 47
    ∧ lead = <["priority" := PyStr (Realtime.get_priority s)]>
               (<["lead_score" := PyInt s]>
                 (scraped url name title stamp ∪ Realtime.initial_lead url)).

(** From the table [db0] and the accepted leads [l0], a run has reached
    [db1] and [l1]: the new rows are those of the new leads, in order; the
    new leads are enriched leads with pairwise different keys, none of
    them stored in [db0]. *)
Definition extends (db0 : Sqlite.Table) (l0 : list (gmap string pyval))
    (db1 : Sqlite.Table) (l1 : list (gmap string pyval)) : Prop :=
  ∃ new leads,
    Sqlite.rows db1 = Sqlite.rows db0 ++ new
    ∧ l1 = l0 ++ leads
    ∧ url_cell <$> new = realtime_key <$> leads
    ∧ NoDup (realtime_key <$> leads)
    ∧ Forall (fresh_in db0) (realtime_key <$> leads)
    ∧ Forall enriched leads
    ∧ Sqlite.last_rowid db0 ≤ Sqlite.last_rowid db1.

(** A lead whose URL is the Python [None]. *)
Definition anonymous_lead : gmap string pyval :=
  <["name" := PyStr "Ahmed Hassan"]> (<["linkedin_url" := PyNone]> ∅).

(** What [enrich_lead] returns in the small world [demo_env]. *)
Definition demo_enriched : gmap string pyval :=
  <["priority" := PyStr "Low"]>
    (<["lead_score" := PyInt 47]>
      (scraped "https://linkedin.com/in/ahmed-hassan" "Ahmed Hassan"
         "IT Director" "2024-05-01T09:00:00"
       ∪ Realtime.initial_lead "https://linkedin.com/in/ahmed-hassan")).


(** A string without blanks that is not empty, as the tokens of
    [s.split()] are; a string without upper-case letters, as [s.lower()]
    returns. *)
Definition solid (s : string) : Prop :=
  s ≠ "" ∧ Forall (λ c, isspace c = false) (list_ascii_of_string s).

Definition lowered (s : string) : Prop :=
  Forall (λ c, lower_char c = c) (list_ascii_of_string s).

Definition named_lead : gmap string pyval :=
  <["name" := PyStr "Ahmed Hassan Al Qasimi"]>
    (<["company" := PyStr "RAK Ceramics LLC"]> ∅).

(** What [process_profile] makes of [demo_profile] on an empty table. *)
Definition demo_apify_lead : gmap string pyval :=
  <["notes" := PyStr ""]>
    (<["lead_score" := PyInt 40]>
      (list_to_map
         [ ("linkedin_url", PyStr "https://linkedin.com/in/ahmed-hassan");
           ("name", PyStr "Ahmed Hassan");
           ("first_name", PyStr "Ahmed");
           ("last_name", PyStr "Hassan");
           ("title", PyStr "IT Director");
           ("headline", PyStr "");
           ("location", PyStr "");
           ("email", PyNone);
           ("phone", PyNone);
           ("company_name", PyStr "");
           ("company_website", PyStr "");
           ("company_linkedin", PyStr "");
           ("company_industry", PyStr "");
           ("connections", PyStr "");
           ("about", PyStr "");
           ("collected_date", PyStr "2024-05-01T09:00:00") ])).

(** The one-character string of a code point below 256. *)
Definition code_point (n : nat) : string :=
  String (ascii_of_nat n) EmptyString.


(** [ORDER BY col DESC] as a relation on rows: the first row does not
    come below the second. *)
Definition not_below (col : string) (r1 r2 : Sqlite.Row) : Prop :=
  Sqlite.sql_compare (Sqlite.cell r1 col) (Sqlite.cell r2 col) ≠ Lt.

(* end of vocabulary *)

(** * Properties *)

(** ** Priority tiers *)

Section Tiers.
Import Realtime.

Lemma get_priority_cases (s : Z) :
  (90 ≤ s ∧ get_priority s = "Hot")
  ∨ (80 ≤ s < 90 ∧ get_priority s = "High")
  ∨ (70 ≤ s < 80 ∧ get_priority s = "Medium")
  ∨ (s < 70 ∧ get_priority s = "Low").
Proof.
  unfold get_priority.
  destruct (Z.leb_spec 90 s); [left; done|].
  destruct (Z.leb_spec 80 s); [right; left; split; [lia|done]|].
  destruct (Z.leb_spec 70 s); [right; right; left; split; [lia|done]|].
  right; right; right. split; [lia|done].
Qed.

Lemma score_lead_priority (lead lead' : gmap string pyval) :
  score_lead lead = Ok lead' →
  ∃ s, calculate_score lead = Ok s
       ∧ lead' !! "lead_score" = Some (PyInt s)
       ∧ lead' !! "priority" = Some (PyStr (get_priority s)).
Proof.
  unfold score_lead. destruct (calculate_score lead) as [s|e]; simpl; [|done].
  intros [= <-]. exists s. split; [done|]. split.
  - rewrite lookup_insert_ne by done. by rewrite lookup_insert_eq.
  - by rewrite lookup_insert_eq.
Qed.
End Tiers.

(** C8.  For every score [s] the tier given by [get_priority] is Hot
    exactly when [s >= 90], High exactly when [80 <= s < 90], Medium exactly
    when [70 <= s < 80] and Low exactly when [s < 70]; the one place where
    a tier is derived from a score, the scoring step of [enrich_lead],
    stores [get_priority] of the score it stores. *)
Theorem priority_thresholds :
  (∀ s : Z,
      (Realtime.get_priority s = "Hot" ↔ 90 ≤ s)
      ∧ (Realtime.get_priority s = "High" ↔ 80 ≤ s < 90)
      ∧ (Realtime.get_priority s = "Medium" ↔ 70 ≤ s < 80)
      ∧ (Realtime.get_priority s = "Low" ↔ s < 70))
  ∧ (∀ lead lead' : gmap string pyval,
      Realtime.score_lead lead = Ok lead' →
      ∃ s, lead' !! "lead_score" = Some (PyInt s)
           ∧ lead' !! "priority" = Some (PyStr (Realtime.get_priority s))).
Proof.
  split.
  - intros s.
    destruct (get_priority_cases s) as [[? ->]|[[? ->]|[[? ->]|[? ->]]]];
      repeat split; intros; try lia; try done.
  - intros lead lead' H.
    destruct (score_lead_priority _ _ H) as (s & _ & ? & ?). eauto.
Qed.

Lemma priority_thresholds_witness :
  Realtime.calculate_score demo_lead = Ok 70
  ∧ ∃ s, (<["priority" := PyStr "Medium"]>
            (<["lead_score" := PyInt 70]> demo_lead)) !! "lead_score"
         = Some (PyInt s)
         ∧ (<["priority" := PyStr "Medium"]>
              (<["lead_score" := PyInt 70]> demo_lead)) !! "priority"
           = Some (PyStr (Realtime.get_priority s)).
Proof.
  split; [vm_compute; reflexivity|].
  apply (proj2 priority_thresholds demo_lead).
  vm_compute. reflexivity.
Defined.

(** ** Scoring *)

Section RealtimeScore.
Import Realtime.

Lemma realtime_title_points_range (t : string) : 0 ≤ title_points t ≤ 40.
Proof. unfold title_points. repeat case_match; lia. Qed.

Lemma realtime_score_range (lead : gmap string pyval) (s : Z) :
  calculate_score lead = Ok s → 0 ≤ s ≤ 100.
Proof.
  unfold calculate_score.
  destruct (str_lower (get_or lead "title" _)) as [t|]; simpl; [|done].
  destruct (str_lower (get_or lead "location" _)) as [l|]; simpl; [|done].
  destruct (str_lower (get_or lead "company" _)) as [c|]; simpl; [|done].
  intros [= <-].
  pose proof (realtime_title_points_range t).
  repeat case_match; lia.
Qed.

Lemma score_keys_elem (k : string) :
  k ∈ score_keys →
  k = "title" ∨ k = "company" ∨ k = "location" ∨ k = "email_1"
  ∨ k = "phone" ∨ k = "linkedin_url".
Proof.
  unfold score_keys. rewrite !elem_of_cons, elem_of_nil. tauto.
Qed.

Lemma score_keys_intro (k : string) :
  k = "title" ∨ k = "company" ∨ k = "location" ∨ k = "email_1"
  ∨ k = "phone" ∨ k = "linkedin_url" →
  k ∈ score_keys.
Proof.
  unfold score_keys. rewrite !elem_of_cons, elem_of_nil. tauto.
Qed.

Lemma realtime_score_reads (l1 l2 : gmap string pyval) :
  (∀ k, k ∈ score_keys → l1 !! k = l2 !! k) →
  calculate_score l1 = calculate_score l2.
Proof.
  intros H. unfold calculate_score, get, get_or.
  rewrite (H "title"), (H "company"), (H "location"), (H "email_1"),
    (H "phone"), (H "linkedin_url");
    [done|unfold score_keys; set_solver..].
Qed.

Lemma realtime_score_returns (lead : gmap string pyval) :
  text_or_absent (lead !! "title") →
  text_or_absent (lead !! "company") →
  text_or_absent (lead !! "location") →
  ∃ s, calculate_score lead = Ok s.
Proof.
  unfold calculate_score, get_or, text_or_absent.
  destruct (lead !! "title") as [[]|]; try done;
    destruct (lead !! "company") as [[]|]; try done;
    destruct (lead !! "location") as [[]|]; try done;
    intros _ _ _; simpl; eauto.
Qed.
End RealtimeScore.

Section PlatformScore.
Import Platform.

Lemma platform_title_score_range (t : string) :
  0 ≤ title_score title_scores t ≤ 30.
Proof.
  unfold title_scores. cbn [title_score]. repeat case_match; lia.
Qed.

Lemma platform_size_score_range (sz : string) : 0 ≤ size_score sz ≤ 20.
Proof.
  unfold size_score, size_scores. cbn [List.find fst].
  repeat case_match; simplify_eq; lia.
Qed.

Lemma platform_score_range (lead : Lead) : 0 ≤ calculate_score lead ≤ 100.
Proof.
  unfold calculate_score.
  pose proof (platform_title_score_range (job_title lead)).
  assert (Hsz : ∀ sz, 0 ≤ size_score sz ≤ 20)
    by apply platform_size_score_range.
  assert (0 ≤ tech_matches (default [] (tech_stack lead)))
    by (unfold tech_matches; lia).
  destruct (company_size lead) as [sz|]; [pose proof (Hsz sz)|];
    repeat case_match; lia.
Qed.

(** The score is a function of the fields it reads. *)
Lemma platform_score_reads (l1 l2 : Lead) :
  job_title l1 = job_title l2 →
  company_size l1 = company_size l2 →
  email l1 = email l2 →
  phone l1 = phone l2 →
  linkedin_url l1 = linkedin_url l2 →
  tech_stack l1 = tech_stack l2 →
  linkedin_connection_accepted l1 = linkedin_connection_accepted l2 →
  linkedin_response_received l1 = linkedin_response_received l2 →
  calculate_score l1 = calculate_score l2.
Proof.
  intros H1 H2 H3 H4 H5 H6 H7 H8. unfold calculate_score.
  by rewrite H1, H2, H3, H4, H5, H6, H7, H8.
Qed.
End PlatformScore.

(** C3.  Scoring is a function of the attributes it reads and its result
    lies in [0, 100].  For [LeadScorer.calculate_score]: two leads that
    agree on title, company, location, email_1, phone and linkedin_url get
    the same result (so scoring a lead again after its score and tier were
    stored gives the same score), a returned score is within [0, 100], and a
    score is returned whenever title, company and location are strings or
    absent.  For [LeadScoringEngine.calculate_score]: leads with the same
    scored fields get the same score, and every score is within
    [0, 100]. *)
Theorem score_deterministic_bounded :
  (∀ l1 l2 : gmap string pyval,
      (∀ k, k ∈ score_keys → l1 !! k = l2 !! k) →
      Realtime.calculate_score l1 = Realtime.calculate_score l2)
  ∧ (∀ (lead : gmap string pyval) (s : Z) (p : string),
      Realtime.calculate_score
        (<["priority" := PyStr p]> (<["lead_score" := PyInt s]> lead))
      = Realtime.calculate_score lead)
  ∧ (∀ (lead : gmap string pyval) (s : Z),
      Realtime.calculate_score lead = Ok s → 0 ≤ s ≤ 100)
  ∧ (∀ lead : gmap string pyval,
      text_or_absent (lead !! "title") →
      text_or_absent (lead !! "company") →
      text_or_absent (lead !! "location") →
      ∃ s, Realtime.calculate_score lead = Ok s ∧ 0 ≤ s ≤ 100)
  ∧ (∀ l1 l2 : Platform.Lead,
      Platform.job_title l1 = Platform.job_title l2 →
      Platform.company_size l1 = Platform.company_size l2 →
      Platform.email l1 = Platform.email l2 →
      Platform.phone l1 = Platform.phone l2 →
      Platform.linkedin_url l1 = Platform.linkedin_url l2 →
      Platform.tech_stack l1 = Platform.tech_stack l2 →
      Platform.linkedin_connection_accepted l1
      = Platform.linkedin_connection_accepted l2 →
      Platform.linkedin_response_received l1
      = Platform.linkedin_response_received l2 →
      Platform.calculate_score l1 = Platform.calculate_score l2)
  ∧ (∀ lead : Platform.Lead, 0 ≤ Platform.calculate_score lead ≤ 100).
Proof.
  split; [exact realtime_score_reads|].
  split.
  { intros lead s p. apply realtime_score_reads. intros k Hk.
    apply score_keys_elem in Hk.
    destruct Hk as [->|[->|[->|[->|[->| ->]]]]];
      by rewrite !lookup_insert_ne. }
  split; [exact realtime_score_range|].
  split.
  { intros lead Ht Hc Hl.
    destruct (realtime_score_returns lead Ht Hc Hl) as [s Hs].
    exists s. split; [done|]. by apply (realtime_score_range lead). }
  split; [exact platform_score_reads|exact platform_score_range].
Qed.

Lemma score_deterministic_bounded_witness :
  (∃ s, Realtime.calculate_score demo_lead = Ok s ∧ 0 ≤ s ≤ 100)
  ∧ Realtime.calculate_score (<["notes" := PyStr "call back"]> demo_lead)
    = Realtime.calculate_score demo_lead
  ∧ Platform.calculate_score demo_platform_lead = 90.
Proof.
  destruct score_deterministic_bounded as (Hreads & _ & _ & Hret & _ & _).
  split; [|split].
  - apply Hret; vm_compute; exact I.
  - apply Hreads. intros k Hk.
    apply score_keys_elem in Hk.
    destruct Hk as [->|[->|[->|[->|[->| ->]]]]];
      by rewrite lookup_insert_ne.
  - vm_compute. reflexivity.
Defined.

(** ** Title seniority *)

Section TitleBands.

Lemma spec_first_band_highest (bands : list (list string * Z)) (title : string) :
  spec_senior_first bands →
  ∀ keywords points,
    (keywords, points) ∈ bands → any_in keywords title = true →
    points ≤ spec_first_band bands title.
Proof.
  induction bands as [|[kws p] bands IH]; intros Hsorted keywords points Hin Hany.
  - by apply elem_of_nil in Hin.
  - destruct Hsorted as [Hle Hrest]. simpl.
    apply elem_of_cons in Hin as [[= -> ->]|Hin].
    + by rewrite Hany.
    + destruct (any_in kws title).
      * apply (Hle (keywords, points) Hin).
      * by apply (IH Hrest keywords).
Qed.

(** The points are those of one band, never a sum of several. *)
Lemma spec_first_band_single (bands : list (list string * Z)) (title : string) :
  spec_first_band bands title = 0
  ∨ ∃ keywords, (keywords, spec_first_band bands title) ∈ bands
                ∧ any_in keywords title = true.
Proof.
  induction bands as [|[kws p] bands IH]; simpl; [by left|].
  destruct (any_in kws title) eqn:Hany.
  - right. exists kws. split; [apply list_elem_of_here|done].
  - destruct IH as [?|(k & ? & ?)]; [by left|].
    right. exists k. split; [by apply list_elem_of_further|done].
Qed.

Lemma any_in_one (k title : string) : any_in [k] title = contains k title.
Proof. unfold any_in. cbn [existsb]. apply orb_false_r. Qed.

Lemma any_in_two (a b title : string) :
  any_in [a; b] title = contains a title || contains b title.
Proof. unfold any_in. cbn [existsb]. by rewrite orb_false_r. Qed.

Lemma apify_title_points_bands (title : string) :
  Apify.title_points title = spec_first_band apify_title_bands title.
Proof.
  unfold Apify.title_points, apify_title_bands. cbn [spec_first_band].
  by rewrite any_in_one.
Qed.

Lemma apollo_title_points_bands (title : string) :
  Apollo.title_points title = spec_first_band apollo_title_bands title.
Proof.
  unfold Apollo.title_points, apollo_title_bands. cbn [spec_first_band].
  by rewrite any_in_one, any_in_two.
Qed.

Lemma realtime_title_points_bands (title : string) :
  Realtime.title_points title = spec_first_band realtime_title_bands title.
Proof.
  unfold Realtime.title_points, realtime_title_bands. cbn [spec_first_band].
  by rewrite !any_in_one.
Qed.

Lemma platform_title_score_bands (table : list (string * Z)) (title : string) :
  Platform.title_score table title
  = spec_first_band ((λ kp, ([lower kp.1], kp.2)) <$> table) (lower title).
Proof.
  induction table as [|[k p] table IH]; [done|].
  cbn [Platform.title_score fmap list_fmap spec_first_band fst snd].
  rewrite any_in_one.
  destruct (contains (lower k) (lower title)); [done|]. apply IH.
Qed.

Ltac senior_first :=
  repeat split;
  try (intros [? ?]; rewrite ?elem_of_cons, elem_of_nil;
       intros H; repeat destruct H as [H|H]; simplify_eq; simpl; lia).

Lemma apify_bands_senior_first : spec_senior_first apify_title_bands.
Proof. simpl. senior_first. Qed.

Lemma apollo_bands_senior_first : spec_senior_first apollo_title_bands.
Proof. simpl. senior_first. Qed.

Lemma realtime_bands_senior_first : spec_senior_first realtime_title_bands.
Proof. simpl. senior_first. Qed.

(** On the three sibling paths the highest matching band gives the points. *)
Lemma sibling_title_points_highest (title : string) :
  (∀ keywords points,
      (keywords, points) ∈ apify_title_bands → any_in keywords title = true →
      points ≤ Apify.title_points title)
  ∧ (∀ keywords points,
      (keywords, points) ∈ apollo_title_bands → any_in keywords title = true →
      points ≤ Apollo.title_points title)
  ∧ (∀ keywords points,
      (keywords, points) ∈ realtime_title_bands → any_in keywords title = true →
      points ≤ Realtime.title_points title).
Proof.
  rewrite apify_title_points_bands, apollo_title_points_bands,
    realtime_title_points_bands.
  split; [|split]; intros keywords points.
  - apply spec_first_band_highest, apify_bands_senior_first.
  - apply spec_first_band_highest, apollo_bands_senior_first.
  - apply spec_first_band_highest, realtime_bands_senior_first.
Qed.

(** The order of [title_scores] is not most senior first: "Manager" (15)
    comes before "Head" (20). *)
Lemma platform_bands_not_senior_first :
  ¬ spec_senior_first platform_title_bands.
Proof.
  assert (platform_title_bands
          = [(["cto"], 30); (["cio"], 30); (["vp"], 25); (["director"], 20);
             (["manager"], 15); (["head"], 20)]) as -> by (vm_compute; done).
  cbn [spec_senior_first].
  intros (_ & _ & _ & _ & (H & _)).
  specialize (H (["head"], 20)). cbn [snd] in H.
  assert (20 ≤ 15); [|lia]. apply H. apply list_elem_of_here.
Qed.

End TitleBands.

(** C5.  [LeadScoringEngine.calculate_score] checks "Manager" (15 points)
    before "Head" (20 points): a title with both keywords gets the 15 points
    of the lower band, where the title with "Head" alone gets 20.  The bands
    are still exclusive: the result is the points of one band. *)
Theorem platform_title_lower_band_wins :
  Platform.title_score Platform.title_scores "Head of IT and Procurement Manager" = 15
  ∧ contains "head" (lower "Head of IT and Procurement Manager") = true
  ∧ contains "manager" (lower "Head of IT and Procurement Manager") = true
  ∧ Platform.title_score Platform.title_scores "Head of IT" = 20
  ∧ Platform.title_score Platform.title_scores "Procurement Manager" = 15.
Proof. vm_compute. done. Qed.

(** ** WhatsApp inference *)

Section WhatsApp.

Lemma has_char_get (c : ascii) (s : string) :
  has_char c s = true ↔ ∃ i, String.get i s = Some c.
Proof.
  induction s as [|d s IH]; simpl.
  - split; [done|]. by intros [i ?].
  - rewrite orb_true_iff, IH, Ascii.eqb_eq. split.
    + intros [->|[i Hi]]; [by exists O|by exists (S i)].
    + intros [[|i] Hi]; simpl in Hi; [left; congruence|right; eauto].
Qed.

Lemma has_char_window (c : ascii) (s : string) :
  has_char c (String.substring 0 2 s) = true
  ↔ String.get 0 s = Some c ∨ String.get 1 s = Some c.
Proof.
  destruct s as [|c0 [|c1 s]]; simpl;
    rewrite ?orb_false_r, ?orb_true_iff, ?Ascii.eqb_eq.
  - split; [done|]. by intros [?|?].
  - split; [intros ->; by left|]. intros [[= ->]|[=]]. done.
  - assert (substring 0 0 s = "") as -> by (by destruct s).
    cbn [has_char].
    split.
    + intros [->|[->|[=]]]; [by left|by right].
    + intros [[= ->]|[= ->]]; [by left|right; by left].
Qed.

Lemma prefix_split (p s : string) :
  String.prefix p s = true → ∃ rest, s = p +:+ rest.
Proof.
  revert s. induction p as [|a p IH]; intros s H.
  - by exists s.
  - destruct s as [|b s]; [done|]. cbn [String.prefix] in H.
    destruct (Ascii.ascii_dec a b) as [->|]; [|done].
    destruct (IH s H) as [rest ->]. by exists rest.
Qed.

Lemma find_whatsapp_window (phone : string) :
  Platform.find_whatsapp phone = Some phone
  ↔ startswith phone "+971" = true
    ∧ (String.get 4 phone = Some "5"%char ∨ String.get 5 phone = Some "5"%char).
Proof.
  unfold Platform.find_whatsapp, startswith, slice.
  destruct (String.prefix "+971" phone) eqn:Hp.
  - destruct (prefix_split _ _ Hp) as [rest ->].
    change (String.substring 4 (6 - 4) ("+971" +:+ rest))
      with (String.substring 0 2 rest).
    change (String.get 4 ("+971" +:+ rest)) with (String.get 0 rest).
    change (String.get 5 ("+971" +:+ rest)) with (String.get 1 rest).
    rewrite <- has_char_window.
    change (negb ("+971" +:+ rest =? "")%string) with true.
    cbn [andb].
    destruct (has_char _ _); split; try done; intros [_ ?]; done.
  - rewrite andb_false_r. split; [done|]. by intros [? _].
Qed.

Lemma find_whatsapp_range (phone : string) :
  Platform.find_whatsapp phone = Some phone
  ∨ Platform.find_whatsapp phone = None.
Proof. unfold Platform.find_whatsapp. repeat case_match; auto. Qed.

Lemma mark_whatsapp_any_five (lead : gmap string pyval) (p : string) :
  lead !! "phone" = Some (PyStr p) →
  Realtime.mark_whatsapp lead
  = Ok (if has_char "5" p then <["whatsapp" := PyStr p]> lead else lead).
Proof.
  intros H. unfold Realtime.mark_whatsapp, item. rewrite H. simpl.
  by destruct (has_char "5" p).
Qed.

Lemma find_contacts_whatsapp {World} (env : Realtime.Env World)
    (lead lead' : gmap string pyval) (w w' : World) :
  Realtime.find_contacts env lead w = Ok (lead', w') →
  lead' !! "whatsapp" = lead !! "whatsapp"
  ∨ ∃ p, has_char "5" p = true
         ∧ lead' !! "phone" = Some (PyStr p)
         ∧ lead' !! "whatsapp" = Some (PyStr p).
Proof.
  unfold Realtime.find_contacts.
  destruct (item lead "company") as [company|]; simpl; [|done].
  destruct (truthy company); [|intros [= <- <-]; by left].
  destruct (Realtime.find_company_website env company w) as [[site|] w1];
    [|intros [= <- <-]; by left].
  destruct (negb (site =? "")%string); [|intros [= <- <-]; by left].
  destruct (Realtime.extract_contacts_from_website env site w1)
    as [[emails [|phone phones]] w2].
  { intros [= <- <-]. left. by rewrite lookup_insert_ne. }
  rewrite (mark_whatsapp_any_five _ phone) by apply lookup_insert_eq.
  simpl. intros [= <- <-].
  destruct (has_char "5" phone) eqn:Hfive.
  - right. exists phone. split; [done|]. split.
    + rewrite lookup_insert_ne by done. apply lookup_insert_eq.
    + apply lookup_insert_eq.
  - left. by rewrite !lookup_insert_ne.
Qed.

End WhatsApp.

(** C4, as stated, fails: [find_whatsapp] marks a Dubai landline number
    whose subscriber part starts with 5, and the collector marks a local
    number without the +971 prefix that has a 5 in it. *)
Lemma whatsapp_pattern_counterexample :
  Platform.find_whatsapp "+97145551234" = Some "+97145551234"
  ∧ spec_uae_mobile "+97145551234" = false
  ∧ Realtime.mark_whatsapp
      (<["phone" := PyStr "04 555 1234"]> (Realtime.initial_lead "u"))
    = Ok (<["whatsapp" := PyStr "04 555 1234"]>
            (<["phone" := PyStr "04 555 1234"]> (Realtime.initial_lead "u")))
  ∧ spec_uae_mobile "04 555 1234" = false.
Proof. split; [|split; [|split]]; vm_compute; reflexivity. Qed.

(** C4, amended.  [find_whatsapp] gives a number a WhatsApp value exactly
    when the number starts with +971 and one of its two characters at
    positions 4 and 5 is a 5; the collector marks the phone found on the
    company website exactly when it has a 5 anywhere; the WhatsApp value
    is the phone number itself, and no other number is given one. *)
Theorem whatsapp_heuristic :
  (∀ phone : string,
      (Platform.find_whatsapp phone = Some phone
       ↔ startswith phone "+971" = true
         ∧ (String.get 4 phone = Some "5"%char
            ∨ String.get 5 phone = Some "5"%char))
      ∧ (Platform.find_whatsapp phone = Some phone
         ∨ Platform.find_whatsapp phone = None))
  ∧ (∀ (lead : gmap string pyval) (p : string),
      lead !! "phone" = Some (PyStr p) →
      Realtime.mark_whatsapp lead
      = Ok (if has_char "5" p then <["whatsapp" := PyStr p]> lead else lead))
  ∧ (∀ p : string,
      has_char "5" p = true ↔ ∃ i, String.get i p = Some "5"%char)
  ∧ (∀ World (env : Realtime.Env World) (lead lead' : gmap string pyval)
       (w w' : World),
      Realtime.find_contacts env lead w = Ok (lead', w') →
      lead' !! "whatsapp" = lead !! "whatsapp"
      ∨ ∃ p, has_char "5" p = true
             ∧ lead' !! "phone" = Some (PyStr p)
             ∧ lead' !! "whatsapp" = Some (PyStr p)).
Proof.
  split; [|split; [|split]].
  - intros phone. split; [apply find_whatsapp_window|apply find_whatsapp_range].
  - apply mark_whatsapp_any_five.
  - intros p. apply has_char_get.
  - intros World env. apply find_contacts_whatsapp.
Qed.

Lemma whatsapp_heuristic_witness :
  Realtime.mark_whatsapp
    (<["phone" := PyStr "+971 50 123 4567"]> (Realtime.initial_lead "u"))
  = Ok (<["whatsapp" := PyStr "+971 50 123 4567"]>
          (<["phone" := PyStr "+971 50 123 4567"]> (Realtime.initial_lead "u"))).
Proof.
  apply (proj1 (proj2 whatsapp_heuristic)
           (<["phone" := PyStr "+971 50 123 4567"]> (Realtime.initial_lead "u"))
           "+971 50 123 4567").
  vm_compute. reflexivity.
Defined.

(** ** Name splitting *)

Section Names.

Lemma last_of_two_or_more {A} (x y : A) (l : list A) (d : A) :
  List.rev (x :: y :: l) = List.last (x :: y :: l) d :: List.rev (removelast (x :: y :: l)).
Proof.
  assert (Hne : x :: y :: l ≠ []) by done.
  rewrite (app_removelast_last d Hne) at 1.
  by rewrite rev_app_distr.
Qed.

Lemma py_last_is_last {A} (x : A) (l : list A) :
  Py.last (x :: l) = Ok (List.last (x :: l) x).
Proof.
  unfold Py.last.
  assert (Hne : x :: l ≠ []) by done.
  rewrite (app_removelast_last x Hne) at 1.
  by rewrite rev_app_distr.
Qed.

Lemma apify_names_derived (pd : gmap string pyval) (full : string) :
  por (get pd "fullName") (get_or pd "name" (PyStr "")) = PyStr full →
  full ≠ "" →
  truthy (get_or pd "firstName" (PyStr "")) = false →
  Apify.names pd
  = Ok (PyStr full,
        PyStr (List.hd "" (split full)),
        PyStr (match split full with
               | _ :: _ :: _ => List.last (split full) ""
               | _ => ""
               end)).
Proof.
  intros Hfull Hne Hfirst. unfold Apify.names. rewrite Hfull, Hfirst.
  assert (truthy (PyStr full) = true) as ->.
  { simpl. destruct (String.eqb_spec full ""); done. }
  simpl. by destruct (split full) as [|t [|t' ts]].
Qed.

Lemma apify_names_supplied (pd : gmap string pyval) :
  truthy (get_or pd "firstName" (PyStr "")) = true →
  Apify.names pd
  = Ok (por (get pd "fullName") (get_or pd "name" (PyStr "")),
        get_or pd "firstName" (PyStr ""),
        get_or pd "lastName" (PyStr "")).
Proof. intros H. unfold Apify.names. by rewrite H. Qed.

Lemma derive_emails_short_name (lead : gmap string pyval) (name : string) :
  lead !! "name" = Some (PyStr name) →
  (length (split name) < 2)%nat →
  Realtime.derive_emails lead = Ok lead.
Proof.
  intros Hname Hshort. unfold Realtime.derive_emails, item. rewrite Hname.
  simpl. destruct (negb (name =? "")%string); [|done].
  destruct (split name) as [|t [|t' ts]]; simpl in *; [done|done|lia].
Qed.

Lemma derive_emails_two_tokens (lead : gmap string pyval)
    (name company first_name : string) (more : list string) :
  lead !! "name" = Some (PyStr name) →
  lead !! "company" = Some (PyStr company) →
  company ≠ "" →
  split name = first_name :: more →
  more ≠ [] →
  Realtime.derive_emails lead
  = (emails ← Realtime.generate_emails first_name
                (List.last more first_name)
                (Realtime.guess_company_domain company);
     Ok (<["email_3" := PyStr (nth 2 emails "")]>
          (<["email_2" := PyStr (nth 1 emails "")]>
            (<["email_1" := PyStr (nth 0 emails "")]> lead)))).
Proof.
  intros Hname Hcompany Hne Hsplit Hmore.
  unfold Realtime.derive_emails, item. rewrite Hname, Hcompany. simpl.
  assert (name ≠ "") as Hn by (intros ->; done).
  destruct (String.eqb_spec name ""); [done|]. simpl.
  rewrite Hsplit. destruct more as [|t ts]; [done|].
  cbn [length Nat.leb Py.first mbind res_bind].
  rewrite py_last_is_last. cbn [mbind res_bind].
  destruct (String.eqb_spec company ""); [done|]. simpl.
  done.
Qed.

Lemma platform_split_two_tokens (name first_name : string) (more : list string) :
  split name = first_name :: more →
  more ≠ [] →
  Platform.split_name name = Ok (first_name, List.last more first_name).
Proof.
  intros Hsplit Hmore. unfold Platform.split_name. rewrite Hsplit.
  cbn [Py.first mbind res_bind]. rewrite py_last_is_last.
  destruct more; done.
Qed.

End Names.

(** C9, as stated, fails: a candidate that brings its own first name keeps
    it whatever its full name is, and the platform gives a one-token name
    the token as last name. *)
Lemma name_split_counterexample :
  Apify.names profile_with_first_name
  = Ok (PyStr "John Smith", PyStr "Johnny", PyStr "S")
  ∧ split "John Smith" = ["John"; "Smith"]
  ∧ Platform.split_name "Madonna" = Ok ("Madonna", "Madonna").
Proof. vm_compute. done. Qed.

(** C9, amended (for names of code points below 256, where [split] is
    exact: its white space includes NEL and the no-break space).  Where
    the names are derived from the full name, the first name is its first
    blank-delimited token and the last name its last token: on the Apify path when the candidate has a non-empty full
    name and no first name of its own (a one-token name gives an empty last
    name, as does a blank name, which also gives an empty first name); in
    the collector when the name has at least two tokens (with fewer tokens
    nothing is derived and the lead is left as it is); on the platform for
    names of at least two tokens.  An Apify candidate with a first name of
    its own keeps its own first and last name. *)
Theorem name_split_first_last :
  (∀ (pd : gmap string pyval) (full : string),
      por (get pd "fullName") (get_or pd "name" (PyStr "")) = PyStr full →
      full ≠ "" →
      truthy (get_or pd "firstName" (PyStr "")) = false →
      Apify.names pd
      = Ok (PyStr full,
            PyStr (List.hd "" (split full)),
            PyStr (match split full with
                   | _ :: _ :: _ => List.last (split full) ""
                   | _ => ""
                   end)))
  ∧ (∀ pd : gmap string pyval,
      truthy (get_or pd "firstName" (PyStr "")) = true →
      Apify.names pd
      = Ok (por (get pd "fullName") (get_or pd "name" (PyStr "")),
            get_or pd "firstName" (PyStr ""),
            get_or pd "lastName" (PyStr "")))
  ∧ (∀ (lead : gmap string pyval) (name : string),
      lead !! "name" = Some (PyStr name) →
      (length (split name) < 2)%nat →
      Realtime.derive_emails lead = Ok lead)
  ∧ (∀ (lead : gmap string pyval) (name company first_name : string)
       (more : list string),
      lead !! "name" = Some (PyStr name) →
      lead !! "company" = Some (PyStr company) →
      company ≠ "" →
      split name = first_name :: more →
      more ≠ [] →
      Realtime.derive_emails lead
      = (emails ← Realtime.generate_emails first_name
                    (List.last more first_name)
                    (Realtime.guess_company_domain company);
         Ok (<["email_3" := PyStr (nth 2 emails "")]>
              (<["email_2" := PyStr (nth 1 emails "")]>
                (<["email_1" := PyStr (nth 0 emails "")]> lead)))))
  ∧ (∀ (name first_name : string) (more : list string),
      split name = first_name :: more →
      more ≠ [] →
      Platform.split_name name = Ok (first_name, List.last more first_name)).
Proof.
  split; [exact apify_names_derived|].
  split; [exact apify_names_supplied|].
  split; [exact derive_emails_short_name|].
  split; [exact derive_emails_two_tokens|exact platform_split_two_tokens].
Qed.

Lemma name_split_first_last_witness :
  Apify.names (<["fullName" := PyStr "Ahmed Hassan Al Qasimi"]> ∅)
  = Ok (PyStr "Ahmed Hassan Al Qasimi", PyStr "Ahmed", PyStr "Qasimi")
  ∧ Apify.names (<["name" := PyStr "Madonna"]> ∅)
    = Ok (PyStr "Madonna", PyStr "Madonna", PyStr "")
  ∧ Platform.split_name "Ahmed Hassan Al Qasimi" = Ok ("Ahmed", "Qasimi").
Proof.
  destruct name_split_first_last as (Hderived & _ & _ & _ & Hplatform).
  split; [|split].
  - apply (Hderived (<["fullName" := PyStr "Ahmed Hassan Al Qasimi"]> ∅)
             "Ahmed Hassan Al Qasimi"); [vm_compute; reflexivity|done|done].
  - apply (Hderived (<["name" := PyStr "Madonna"]> ∅) "Madonna");
      [vm_compute; reflexivity|done|done].
  - apply (Hplatform "Ahmed Hassan Al Qasimi" "Ahmed" ["Hassan"; "Al"; "Qasimi"]);
      [vm_compute; reflexivity|done].
Defined.

(** ** The deduplication invariant *)

Section Unique.
Import Sqlite.

Lemma select_eq_filter (t : Table) (col : string) (v : sqlval) :
  v ≠ Null →
  select_eq t col v = List.filter (λ r, bool_decide (cell r col = v)) (rows t).
Proof. by destruct v. Qed.

Lemma unique_on_empty (col : string) : unique_on col Sqlite.empty.
Proof. intros v Hv. rewrite select_eq_filter by done. simpl. lia. Qed.

Lemma unique_on_count (col : string) (t : Table) (u : string) :
  unique_on col t → (count_key t col u ≤ 1)%nat.
Proof. intros H. by apply H. Qed.

Lemma insert_rows (sch : Schema) (t t' : Table)
    (values : list (string * sqlval)) (id : Z) :
  insert sch t values = Some (t', id) →
  ∃ c, c = list_to_map (coerce sch <$> values)
       ∧ rows t' = rows t ++ [mkRow id c]
       ∧ violates_not_null sch c = false
       ∧ violates_unique sch t c = false.
Proof.
  unfold insert.
  destruct (violates_not_null _ _) eqn:Hnn; [done|].
  destruct (violates_unique _ _ _) eqn:Hu; [done|].
  intros [= <- <-]. eauto.
Qed.

Lemma violates_unique_false (sch : Schema) (t : Table)
    (c : gmap string sqlval) (col : string) :
  violates_unique sch t c = false → In col (unique sch) →
  select_eq t col (default Null (c !! col)) = [].
Proof.
  unfold violates_unique. intros H Hin.
  destruct (bool_decide (select_eq t col (default Null (c !! col)) = []))
    eqn:Hd; [by apply bool_decide_eq_true in Hd|].
  assert (existsb (λ col, negb (bool_decide
            (select_eq t col (default Null (c !! col)) = []))) (unique sch)
          = true); [|congruence].
  apply existsb_exists. exists col. by rewrite Hd.
Qed.

Lemma insert_keeps_unique (sch : Schema) (t t' : Table)
    (values : list (string * sqlval)) (id : Z) (col : string) :
  In col (unique sch) →
  insert sch t values = Some (t', id) →
  unique_on col t → unique_on col t'.
Proof.
  intros Hcol Hins Huniq v Hv.
  destruct (insert_rows _ _ _ _ _ Hins) as (c & _ & Hrows & _ & Hu).
  rewrite select_eq_filter, Hrows, List.filter_app, length_app by done.
  specialize (Huniq v Hv). rewrite select_eq_filter in Huniq by done.
  cbn [List.filter]. case_bool_decide as Hcell; [|simpl; lia].
  pose proof (violates_unique_false _ _ _ _ Hu Hcol) as Hnone.
  unfold cell in Hcell. cbn [cells] in Hcell. rewrite Hcell in Hnone.
  rewrite select_eq_filter in Hnone by done. rewrite Hnone. simpl. lia.
Qed.

Lemma insert_rejects_stored (sch : Schema) (t : Table)
    (values : list (string * sqlval)) (col : string) :
  In col (unique sch) →
  select_eq t col
    (default Null ((list_to_map (coerce sch <$> values) : gmap string sqlval)
                     !! col)) ≠ [] →
  insert sch t values = None.
Proof.
  intros Hcol Hstored. unfold insert.
  assert (violates_unique sch t (list_to_map (coerce sch <$> values)) = true)
    as ->; [|by rewrite orb_true_r].
  apply existsb_exists. exists col. split; [done|].
  by rewrite bool_decide_eq_false_2.
Qed.

Lemma count_key_positive (t : Table) (col u : string) :
  (0 < count_key t col u)%nat → select_eq t col (Text u) ≠ [].
Proof. unfold count_key. by destruct (select_eq t col (Text u)); [simpl; lia|]. Qed.

End Unique.

Section RealtimeStore.
Import Realtime.

Lemma realtime_insert_keeps_unique (clk : Clock) (db : Sqlite.Table)
    (lead : gmap string pyval) :
  Sqlite.unique_on "linkedin_url" db →
  Sqlite.unique_on "linkedin_url" (insert_lead clk db lead).1.
Proof.
  intros H. unfold insert_lead.
  destruct (is_duplicate _ _); [done|].
  destruct (Sqlite.insert _ _ _) as [[db' id]|] eqn:Hins; [|done].
  eapply insert_keeps_unique; [|exact Hins|exact H]. simpl. by left.
Qed.

Lemma realtime_insert_stored (clk : Clock) (db : Sqlite.Table)
    (lead : gmap string pyval) (u : string) :
  realtime_key lead = Sqlite.Text u →
  (0 < Sqlite.count_key db "linkedin_url" u)%nat →
  insert_lead clk db lead = (db, None).
Proof.
  intros Hkey Hstored. unfold insert_lead, is_duplicate.
  fold (realtime_key lead). rewrite Hkey.
  rewrite bool_decide_eq_false_2; [done|].
  by apply count_key_positive.
Qed.

Lemma realtime_insert_appends (clk : Clock) (db : Sqlite.Table)
    (lead : gmap string pyval) :
  ∃ new, Sqlite.rows (insert_lead clk db lead).1 = Sqlite.rows db ++ new.
Proof.
  unfold insert_lead. destruct (is_duplicate _ _).
  { exists []. by rewrite app_nil_r. }
  destruct (Sqlite.insert _ _ _) as [[db' id]|] eqn:Hins.
  - destruct (insert_rows _ _ _ _ _ Hins) as (c & _ & Hrows & _).
    cbn [fst]. rewrite Hrows. eauto.
  - exists []. by rewrite app_nil_r.
Qed.

Lemma realtime_insert_all_unique
    (inputs : list (Clock * gmap string pyval)) (db : Sqlite.Table) :
  Sqlite.unique_on "linkedin_url" db →
  Sqlite.unique_on "linkedin_url" (realtime_insert_all inputs db).
Proof.
  revert db. induction inputs as [|[clk lead] inputs IH]; intros db H; [done|].
  apply IH. by apply realtime_insert_keeps_unique.
Qed.

End RealtimeStore.

Section ApifyStore.
Import Apify.

Lemma apify_save_keeps_unique (s : Scraper) (lead : gmap string pyval) :
  Sqlite.unique_on "linkedin_url" (db s) →
  Sqlite.unique_on "linkedin_url" (db (save_lead s lead).1).
Proof.
  intros H. unfold save_lead.
  destruct (insert_values lead); [|done].
  destruct (Sqlite.insert _ _ _) as [[db' id]|] eqn:Hins; [|done].
  eapply insert_keeps_unique; [|exact Hins|exact H]. simpl. by left.
Qed.

Lemma apify_insert_values_key (lead : gmap string pyval)
    (values : list (string * Sqlite.sqlval)) :
  insert_values lead = Some values →
  default Sqlite.Null
    ((list_to_map (Sqlite.coerce schema <$> values) : gmap string Sqlite.sqlval)
       !! "linkedin_url")
  = apify_key lead.
Proof.
  unfold insert_values, apify_key, get, columns.
  cbn [mapM]. unfold mbind, mret, option_bind, option_ret.
  destruct (lead !! "linkedin_url") as [v|]; [|done].
  repeat (match goal with
          | |- context [lead !! ?k] => destruct (lead !! k); [|done]
          end).
  intros [= <-]. by vm_compute.
Qed.

Lemma apify_save_stored (s : Scraper) (lead : gmap string pyval) (u : string) :
  apify_key lead = Sqlite.Text u →
  (0 < Sqlite.count_key (db s) "linkedin_url" u)%nat →
  save_lead s lead = (s, false).
Proof.
  intros Hkey Hstored. unfold save_lead.
  destruct (insert_values lead) as [values|] eqn:Hvalues; [|done].
  rewrite (insert_rejects_stored schema (db s) values "linkedin_url"); [done|..].
  - simpl. by left.
  - rewrite (apify_insert_values_key _ _ Hvalues), Hkey.
    by apply count_key_positive.
Qed.

Lemma apify_save_appends (s : Scraper) (lead : gmap string pyval) :
  ∃ new, Sqlite.rows (db (save_lead s lead).1) = Sqlite.rows (db s) ++ new.
Proof.
  unfold save_lead. destruct (insert_values lead).
  2:{ exists []. by rewrite app_nil_r. }
  destruct (Sqlite.insert _ _ _) as [[db' id]|] eqn:Hins.
  - destruct (insert_rows _ _ _ _ _ Hins) as (c & _ & Hrows & _).
    cbn [fst db]. rewrite Hrows. eauto.
  - exists []. by rewrite app_nil_r.
Qed.

Lemma apify_save_all_unique (leads : list (gmap string pyval)) (s : Scraper) :
  Sqlite.unique_on "linkedin_url" (db s) →
  Sqlite.unique_on "linkedin_url" (db (apify_save_all leads s)).
Proof.
  revert s. induction leads as [|lead leads IH]; intros s H; [done|].
  apply IH. by apply apify_save_keeps_unique.
Qed.

End ApifyStore.

(** C1.  Through [LeadDatabase.insert_lead] and through [save_lead], any
    sequence of candidates leaves at most one stored record per profile
    URL; every outcome of an insertion, the failing ones included, keeps
    the uniqueness of the URL column and only appends to the stored rows;
    a candidate whose URL is already stored changes nothing and gets the
    answer [None], respectively [False]. *)
Theorem dedup_invariant :
  (∀ (inputs : list (Realtime.Clock * gmap string pyval)) (u : string),
      (Sqlite.count_key (realtime_insert_all inputs Sqlite.empty)
         "linkedin_url" u ≤ 1)%nat)
  ∧ (∀ (clk : Realtime.Clock) (db : Sqlite.Table) (lead : gmap string pyval),
      Sqlite.unique_on "linkedin_url" db →
      Sqlite.unique_on "linkedin_url" (Realtime.insert_lead clk db lead).1)
  ∧ (∀ (clk : Realtime.Clock) (db : Sqlite.Table) (lead : gmap string pyval)
       (u : string),
      realtime_key lead = Sqlite.Text u →
      (0 < Sqlite.count_key db "linkedin_url" u)%nat →
      Realtime.insert_lead clk db lead = (db, None))
  ∧ (∀ (clk : Realtime.Clock) (db : Sqlite.Table) (lead : gmap string pyval),
      ∃ new, Sqlite.rows (Realtime.insert_lead clk db lead).1
             = Sqlite.rows db ++ new)
  ∧ (∀ (leads : list (gmap string pyval)) (u : string),
      (Sqlite.count_key (Apify.db (apify_save_all leads empty_scraper))
         "linkedin_url" u ≤ 1)%nat)
  ∧ (∀ (s : Apify.Scraper) (lead : gmap string pyval),
      Sqlite.unique_on "linkedin_url" (Apify.db s) →
      Sqlite.unique_on "linkedin_url" (Apify.db (Apify.save_lead s lead).1))
  ∧ (∀ (s : Apify.Scraper) (lead : gmap string pyval) (u : string),
      apify_key lead = Sqlite.Text u →
      (0 < Sqlite.count_key (Apify.db s) "linkedin_url" u)%nat →
      Apify.save_lead s lead = (s, false))
  ∧ (∀ (s : Apify.Scraper) (lead : gmap string pyval),
      ∃ new, Sqlite.rows (Apify.db (Apify.save_lead s lead).1)
             = Sqlite.rows (Apify.db s) ++ new).
Proof.
  repeat split.
  - intros inputs u. apply unique_on_count, realtime_insert_all_unique,
      unique_on_empty.
  - exact realtime_insert_keeps_unique.
  - exact realtime_insert_stored.
  - exact realtime_insert_appends.
  - intros leads u. apply unique_on_count, apify_save_all_unique,
      unique_on_empty.
  - exact apify_save_keeps_unique.
  - exact apify_save_stored.
  - exact apify_save_appends.
Qed.

Lemma dedup_invariant_witness :
  (∃ id, Realtime.insert_lead sample_clock Sqlite.empty sample_candidate
         = ((Realtime.insert_lead sample_clock Sqlite.empty sample_candidate).1,
            Some id))
  ∧ Realtime.insert_lead sample_clock
      (Realtime.insert_lead sample_clock Sqlite.empty sample_candidate).1
      sample_candidate
    = ((Realtime.insert_lead sample_clock Sqlite.empty sample_candidate).1, None)
  ∧ Apify.save_lead (Apify.save_lead empty_scraper sample_apify_lead).1
      sample_apify_lead
    = ((Apify.save_lead empty_scraper sample_apify_lead).1, false).
Proof.
  destruct dedup_invariant as (_ & _ & Hr & _ & _ & _ & Ha & _).
  split; [|split].
  - exists 1. vm_compute. reflexivity.
  - apply (Hr sample_clock _ sample_candidate
             "https://linkedin.com/in/ahmed-hassan");
      [vm_compute; reflexivity|vm_compute; lia].
  - apply (Ha _ sample_apify_lead "x");
      [vm_compute; reflexivity|vm_compute; lia].
Defined.

(** ** Retrying a rate-limited search *)

Section Retry.
Context {World : Type}.
Variable post : Z → Z → World → option Apollo.Response * World.
Variables page per_page : Z.

Lemma search_people_rate_limited (limit : nat) (st : Apollo.Session World) :
  rate_limited (post page per_page (Apollo.world st)).1 →
  Apollo.search_people post (S limit) page per_page st
  = Apollo.search_people post limit page per_page
      (Apollo.mkSession (post page per_page (Apollo.world st)).2
         (Apollo.slept st ++ [60])).
Proof.
  intros (r & Hr & H429). cbn [Apollo.search_people].
  destruct (post page per_page (Apollo.world st)) as [answer w'].
  simpl in Hr. subst answer. rewrite H429. done.
Qed.

Lemma search_people_at_limit (st : Apollo.Session World) :
  rate_limited (post page per_page (Apollo.world st)).1 →
  Apollo.search_people post 0 page per_page st
  = (([], ∅),
     Apollo.mkSession (post page per_page (Apollo.world st)).2
       (Apollo.slept st ++ [60])).
Proof.
  intros (r & Hr & H429). cbn [Apollo.search_people].
  destruct (post page per_page (Apollo.world st)) as [answer w'].
  simpl in Hr. subst answer. rewrite H429. done.
Qed.

Lemma search_people_answered (limit : nat) (st : Apollo.Session World) :
  ¬ rate_limited (post page per_page (Apollo.world st)).1 →
  Apollo.search_people post limit page per_page st
  = (final_outcome (post page per_page (Apollo.world st)).1,
     Apollo.mkSession (post page per_page (Apollo.world st)).2
       (Apollo.slept st)).
Proof.
  intros Hnot.
  destruct limit as [|limit]; cbn [Apollo.search_people];
    (destruct (post page per_page (Apollo.world st)) as [[r|] w']; simpl;
     [|done]);
    (destruct (Z.eqb_spec (Apollo.status_code r) 200) as [H200|H200];
     [by destruct (Apollo.json r)|]);
    (destruct (Z.eqb_spec (Apollo.status_code r) 429) as [H429|H429];
     [|done]);
    destruct Hnot; by exists r.
Qed.

Lemma search_people_retries (k : nat) :
  ∀ (limit : nat) (w : World) (naps : list Z),
    (k ≤ limit)%nat →
    (∀ i, (i < k)%nat → rate_limited (nth_answer post page per_page i w)) →
    ¬ rate_limited (nth_answer post page per_page k w) →
    Apollo.search_people post limit page per_page (Apollo.mkSession w naps)
    = (final_outcome (nth_answer post page per_page k w),
       Apollo.mkSession (after_requests post page per_page (S k) w)
         (naps ++ replicate k 60)).
Proof.
  induction k as [|k IH]; intros limit w naps Hroom Hlimited Hanswer.
  - rewrite search_people_answered by exact Hanswer.
    cbn [Apollo.world Apollo.slept replicate]. by rewrite app_nil_r.
  - destruct limit as [|limit]; [lia|].
    rewrite search_people_rate_limited by (apply (Hlimited O); lia).
    cbn [Apollo.world Apollo.slept].
    rewrite IH.
    + cbn [replicate]. by rewrite <- app_assoc.
    + lia.
    + intros i Hi. apply (Hlimited (S i)). lia.
    + exact Hanswer.
Qed.

Lemma search_people_gives_up (limit : nat) :
  ∀ (w : World) (naps : list Z),
    (∀ i, (i ≤ limit)%nat →
        rate_limited (nth_answer post page per_page i w)) →
    Apollo.search_people post limit page per_page (Apollo.mkSession w naps)
    = (([], ∅),
       Apollo.mkSession (after_requests post page per_page (S limit) w)
         (naps ++ replicate (S limit) 60)).
Proof.
  induction limit as [|limit IH]; intros w naps Hlimited.
  - rewrite search_people_at_limit by (apply (Hlimited O); lia). done.
  - rewrite search_people_rate_limited by (apply (Hlimited O); lia).
    cbn [Apollo.world Apollo.slept]. rewrite IH.
    + cbn [replicate]. by rewrite <- app_assoc.
    + intros i Hi. apply (Hlimited (S i)). lia.
Qed.

End Retry.

(** C6, as stated, fails: the pause does not grow and the code has no cap
    on the retries.  Against a source that recovers after three 429
    answers the three pauses are 60 seconds each; against a source that
    keeps answering 429 the call retries as often as the interpreter's
    recursion limit lets it (here: room for 40 nested retries, 41 requests
    and 41 pauses of 60 seconds) and then returns the empty page. *)
Lemma retry_unbounded_counterexample :
  Apollo.search_people (recovers_after 3) 40 1 25 (Apollo.mkSession O [])
  = (([], ∅), Apollo.mkSession 4%nat [60; 60; 60])
  ∧ Apollo.search_people always_429 40 1 25 (Apollo.mkSession () [])
    = (([], ∅), Apollo.mkSession () (replicate 41 60)).
Proof. split; vm_compute; reflexivity. Qed.

(** C6, amended.  On a 429 answer [search_people] pauses 60 seconds and
    repeats the same query; the pause does not grow, and the code counts
    no retries and has no cap on them.  If the source answers 429 to the
    first [k] requests and something else to the next one, with [k] within
    the room the recursion limit leaves, the call returns the outcome of
    that answer after exactly [k] pauses of 60 seconds.  The retries are
    bounded only by the interpreter's recursion limit: if the source keeps
    answering 429, the call makes one request and one pause of 60 seconds
    for every nested call the limit allows, and then returns the empty
    page (the handler catches the [RecursionError]). *)
Theorem retry_fixed_pause :
  ∀ (World : Type) (post : Z → Z → World → option Apollo.Response * World)
    (page per_page : Z) (limit : nat) (w : World) (naps : list Z),
    (∀ k : nat,
        (k ≤ limit)%nat →
        (∀ i, (i < k)%nat → rate_limited (nth_answer post page per_page i w)) →
        ¬ rate_limited (nth_answer post page per_page k w) →
        Apollo.search_people post limit page per_page (Apollo.mkSession w naps)
        = (final_outcome (nth_answer post page per_page k w),
           Apollo.mkSession (after_requests post page per_page (S k) w)
             (naps ++ replicate k 60)))
    ∧ ((∀ i, (i ≤ limit)%nat →
           rate_limited (nth_answer post page per_page i w)) →
       Apollo.search_people post limit page per_page (Apollo.mkSession w naps)
       = (([], ∅),
          Apollo.mkSession (after_requests post page per_page (S limit) w)
            (naps ++ replicate (S limit) 60))).
Proof.
  intros World post page per_page limit w naps. split.
  - intros k Hroom Hlimited Hanswer. by apply search_people_retries.
  - apply search_people_gives_up.
Qed.

Lemma retry_fixed_pause_witness :
  Apollo.search_people (recovers_after 2) 5 1 25 (Apollo.mkSession O [])
  = (final_outcome (nth_answer (recovers_after 2) 1 25 2 O),
     Apollo.mkSession (after_requests (recovers_after 2) 1 25 3 O)
       ([] ++ replicate 2 60))
  ∧ Apollo.search_people always_429 5 1 25 (Apollo.mkSession () [])
    = (([], ∅),
       Apollo.mkSession (after_requests always_429 1 25 6 ())
         ([] ++ replicate 6 60)).
Proof.
  split.
  - apply (proj1 (retry_fixed_pause nat (recovers_after 2) 1 25 5 O []) 2%nat).
    + lia.
    + intros i Hi. exists (Apollo.mkResponse 429 None).
      assert (i = 0 ∨ i = 1)%nat as [-> | ->] by lia; split; reflexivity.
    + intros (r & Hr & H429). vm_compute in Hr.
      injection Hr as <-. vm_compute in H429. discriminate H429.
  - apply (proj2 (retry_fixed_pause unit always_429 1 25 5 () [])).
    intros i _. exists (Apollo.mkResponse 429 None). split; [|reflexivity].
    unfold nth_answer. generalize (after_requests always_429 1 25 i ()).
    by intros [].
Defined.

(** ** Collection runs *)

Section RealtimeRun.
Import Realtime.
Context {World : Type} (env : Env World).

Lemma initial_lead_bare (url : string) : bare (initial_lead url).
Proof. repeat split; try (by eexists); by vm_compute. Qed.

Lemma scraped_profile_bare (url : string) (w w' : World)
    (pd : gmap string pyval) :
  scrape_linkedin_profile env url w = (Some pd, w') → bare pd.
Proof.
  unfold scrape_linkedin_profile.
  destruct (http_title env url w) as [[title_tag|] w1]; [|done].
  set (p0 := list_to_map _ : gmap string pyval).
  assert (bare p0) as Hp0 by (repeat split; try (by eexists); by vm_compute).
  assert (∀ a b, bare (<["title" := PyStr a]> (<["name" := PyStr b]> p0)))
    as Hset.
  { intros a b. destruct Hp0 as (_ & _ & Hc & Hl).
    split; [|split; [|split]].
    - exists b. rewrite lookup_insert_ne by done. apply lookup_insert_eq.
    - exists a. apply lookup_insert_eq.
    - by rewrite !lookup_insert_ne.
    - by rewrite !lookup_insert_ne. }
  destruct title_tag as [text|].
  - destruct (split_on "|" text) as [|a [|b l]];
      case_match; intros [= <- <-]; auto.
  - case_match; intros [= <- <-]; auto.
Qed.

Lemma union_bare (pd lead : gmap string pyval) : bare pd → bare (pd ∪ lead).
Proof.
  intros ((n & Hn) & (t & Ht) & Hc & Hl).
  repeat split; try eexists; by apply lookup_union_Some_l.
Qed.

Lemma derive_emails_bare (lead : gmap string pyval) :
  bare lead → derive_emails lead = Ok lead.
Proof.
  intros ((n & Hn) & _ & Hc & _). unfold derive_emails, item.
  rewrite Hn, Hc. simpl.
  destruct (negb (n =? "")%string); [|done].
  destruct (split n) as [|a [|b l]]; [done|done|].
  cbn [length Nat.leb Py.first mbind res_bind].
  by rewrite py_last_is_last.
Qed.

Lemma find_contacts_bare (lead : gmap string pyval) (w : World) :
  bare lead → find_contacts env lead w = Ok (lead, w).
Proof.
  intros (_ & _ & Hc & _). unfold find_contacts, item. by rewrite Hc.
Qed.

Lemma score_lead_bare (lead : gmap string pyval) :
  bare lead → ∃ lead', score_lead lead = Ok lead' ∧ bare lead'.
Proof.
  intros Hb. pose proof Hb as ((n & Hn) & (t & Ht) & Hc & Hl).
  destruct (realtime_score_returns lead) as [s Hs];
    [by rewrite Ht|by rewrite Hc|by rewrite Hl|].
  unfold score_lead. rewrite Hs. simpl. eexists. split; [done|].
  repeat split; try eexists; rewrite !lookup_insert_ne by done; eauto.
Qed.

(** [enrich_lead] raises no exception. *)
Lemma enrich_lead_returns (url : string) (w : World) :
  ∃ r w', enrich_lead env url w = Ok (r, w').
Proof.
  unfold enrich_lead.
  destruct (scrape_linkedin_profile env url w) as [pd w1] eqn:Hscrape.
  set (lead := match pd with Some pd0 => pd0 ∪ initial_lead url | None => initial_lead url end).
  assert (bare lead) as Hb.
  { subst lead. destruct pd as [pd0|].
    - apply union_bare. by eapply scraped_profile_bare.
    - apply initial_lead_bare. }
  rewrite (derive_emails_bare lead Hb). cbn [mbind res_bind].
  rewrite (find_contacts_bare lead w1 Hb). cbn [mbind res_bind].
  destruct (score_lead_bare lead Hb) as (lead' & -> & ((n & Hn) & _)).
  cbn [mbind res_bind]. unfold item. rewrite Hn. simpl. eauto.
Qed.

Lemma accept_within (target : Z) (st : Run World)
    (lead_data : option (gmap string pyval)) :
  Z.of_nat (length (new_leads st)) < target →
  within target (accept env st lead_data)
  ∧ attempts (accept env st lead_data) = attempts st.
Proof.
  intros H. unfold accept, within.
  destruct lead_data as [lead|]; [|simpl; lia].
  destruct (truthy _); [|simpl; lia].
  destruct (insert_lead _ _ _) as [db' [lead_id|]]; [|simpl; lia].
  destruct (negb _); simpl; rewrite ?length_app; simpl; lia.
Qed.

Lemma process_urls_returns (target : Z) (urls : list string) :
  ∀ st, within target st →
    ∃ st', process_urls env target urls st = Ok st'
           ∧ within target st' ∧ attempts st ≤ attempts st'.
Proof.
  induction urls as [|url urls IH]; intros st Hst.
  - exists st. simpl. split; [done|]. split; [done|lia].
  - cbn [process_urls].
    destruct (Z.leb_spec target (Z.of_nat (length (new_leads st)))) as [Hfull|Hroom].
    { exists st. split; [done|]. split; [done|lia]. }
    cbn [db world new_leads attempts].
    destruct (is_duplicate (db st) (PyStr url)).
    + destruct (IH (mkRun (world st) (db st) (new_leads st) (attempts st + 1)))
        as (st' & Hrun & Hin & Hatt); [exact Hst|].
      exists st'. split; [done|]. split; [done|]. simpl in Hatt. lia.
    + destruct (enrich_lead_returns url (world st)) as (r & w' & ->).
      cbn [mbind res_bind].
      set (st1 := mkRun w' (db st) (new_leads st) (attempts st + 1)).
      destruct (accept_within target st1 r) as [Hin1 Hatt1]; [exact Hroom|].
      destruct (IH (accept env st1 r) Hin1) as (st' & Hrun & Hin & Hatt).
      exists st'. split; [done|]. split; [done|].
      rewrite Hatt1 in Hatt. simpl in Hatt. lia.
Qed.

Lemma run_searches_returns (target max_attempts : Z)
    (queue : list (string * string)) :
  ∀ st, within target st →
    ∃ st' how,
      run_searches env target max_attempts queue st = Ok (st', how)
      ∧ within target st'
      ∧ (how = TargetReached → Z.of_nat (length (new_leads st')) = target)
      ∧ (how = MaxAttempts →
           max_attempts ≤ attempts st'
           ∧ Z.of_nat (length (new_leads st')) < target).
Proof.
  induction queue as [|[title location] queue IH]; intros st Hst.
  - exists st, QueueExhausted. simpl. repeat split; done.
  - cbn [run_searches].
    destruct (Z.leb_spec target (Z.of_nat (length (new_leads st)))) as [Hfull|Hroom].
    { exists st, TargetReached. unfold within in Hst.
      repeat split; try done; lia. }
    destruct (Z.leb_spec max_attempts (attempts st)) as [Hmax|Hless].
    { exists st, MaxAttempts. repeat split; try done; lia. }
    destruct (search_linkedin_profiles env title location 5 (world st))
      as [urls w1].
    destruct (process_urls_returns target urls
                (mkRun w1 (db st) (new_leads st) (attempts st)))
      as (st1 & -> & Hin1 & _); [exact Hst|].
    cbn [mbind res_bind]. apply IH, Hin1.
Qed.

End RealtimeRun.

Section ApifyRun.
Import Apify.
Context {World : Type} (env : Env World).


Lemma lower_of_text (a b : pyval) :
  not_a_number a → not_a_number b →
  ∃ s, str_lower (por a (por b (PyStr ""))) = Ok s.
Proof.
  intros Ha Hb. unfold por.
  destruct a as [|sa|]; [|simpl; case_match; [eauto|]|done];
    destruct b as [|sb|]; try done; simpl; try case_match; eauto.
Qed.

Lemma apify_score_returns (profile : gmap string pyval) :
  not_a_number (get profile "title") →
  not_a_number (get profile "headline") →
  not_a_number (get profile "location") →
  converts (get_or profile "connections" (PyStr "")) →
  ∃ s, calculate_lead_score profile = Ok s.
Proof.
  intros Ht Hh Hl (text & count & Htext & Hcount).
  unfold calculate_lead_score.
  destruct (lower_of_text _ _ Ht Hh) as [t ->]. cbn [mbind res_bind].
  assert (∃ l, str_lower (por (get profile "location") (PyStr "")) = Ok l)
    as [l ->].
  { unfold por. destruct (get profile "location"); try done; simpl;
      try case_match; eauto. }
  cbn [mbind res_bind]. rewrite Htext. cbn [mbind res_bind].
  destruct (truthy (get profile "connections")); [|cbn; eauto].
  destruct (contains "500+" text); [cbn; eauto|].
  rewrite Hcount. cbn. eauto.
Qed.







End ApifyRun.

Section RealtimeTurns.
Import Realtime.
Context {World : Type} (env : Env World).


End RealtimeTurns.



(** ** Running twice *)

Section CompleteRuns.
Import Complete.

Lemma select_eq_grows (db db' : Sqlite.Table) (col : string)
    (v : Sqlite.sqlval) (new : list Sqlite.Row) :
  Sqlite.rows db' = Sqlite.rows db ++ new →
  Sqlite.select_eq db col v ≠ [] → Sqlite.select_eq db' col v ≠ [].
Proof.
  intros Hrows. destruct v; [done|..]; simpl; rewrite Hrows, List.filter_app;
    intros H Happ; by apply app_eq_nil in Happ as [? _].
Qed.

Lemma blocked_grows (db db' : Sqlite.Table) (lead : gmap string pyval)
    (new : list Sqlite.Row) :
  Sqlite.rows db' = Sqlite.rows db ++ new →
  blocked db lead → blocked db' lead.
Proof.
  intros Hrows [Hname|Hkey]; [by left|right].
  by eapply select_eq_grows.
Qed.

Lemma complete_cell_name (clk : Realtime.Clock) (lead : gmap string pyval) :
  default Sqlite.Null
    ((list_to_map (Sqlite.coerce schema <$> insert_values clk lead)
       : gmap string Sqlite.sqlval) !! "name")
  = Sqlite.text_affinity (Sqlite.bind (get lead "name")).
Proof.
  unfold insert_values. generalize (get lead "name"). intros v.
  by vm_compute.
Qed.

Lemma complete_cell_key (clk : Realtime.Clock) (lead : gmap string pyval) :
  default Sqlite.Null
    ((list_to_map (Sqlite.coerce schema <$> insert_values clk lead)
       : gmap string Sqlite.sqlval) !! "linkedin_url")
  = complete_key lead.
Proof.
  unfold insert_values, complete_key. generalize (get lead "linkedin_url").
  intros v. by vm_compute.
Qed.

Lemma complete_insert_cases (clk : Realtime.Clock) (db : Sqlite.Table)
    (lead : gmap string pyval) :
  (blocked db lead ∧ insert_lead clk db lead = (db, None))
  ∨ (∃ db' id r,
        insert_lead clk db lead = (db', Some id)
        ∧ Sqlite.rows db' = Sqlite.rows db ++ [r]
        ∧ Sqlite.cell r "linkedin_url" = complete_key lead).
Proof.
  unfold insert_lead.
  destruct (Sqlite.insert schema db (insert_values clk lead))
    as [[db' id]|] eqn:Hins.
  - right. destruct (insert_rows _ _ _ _ _ Hins) as (c & -> & Hrows & _).
    eexists db', id, _. split; [done|]. split; [exact Hrows|].
    unfold Sqlite.cell. cbn [Sqlite.cells]. apply complete_cell_key.
  - left. split; [|done]. unfold Sqlite.insert in Hins.
    destruct (Sqlite.violates_not_null _ _) eqn:Hnn.
    + left. unfold Sqlite.violates_not_null in Hnn. cbn [Sqlite.not_null schema existsb] in Hnn.
      rewrite orb_false_r in Hnn. apply bool_decide_eq_true in Hnn.
      by rewrite complete_cell_name in Hnn.
    + right. destruct (Sqlite.violates_unique _ _ _) eqn:Hu; [|done].
      unfold Sqlite.violates_unique in Hu. cbn [Sqlite.unique schema existsb] in Hu.
      rewrite orb_false_r in Hu. apply negb_true_iff, bool_decide_eq_false in Hu.
      by rewrite complete_cell_key in Hu.
Qed.

Lemma complete_insert_blocked (clk : Realtime.Clock) (db : Sqlite.Table)
    (lead : gmap string pyval) :
  blocked db lead → insert_lead clk db lead = (db, None).
Proof.
  intros Hb.
  destruct (complete_insert_cases clk db lead)
    as [[_ ?]|(db' & id & r & Hins & _ & _)]; [done|].
  exfalso. unfold insert_lead in Hins.
  destruct (Sqlite.insert schema db (insert_values clk lead))
    as [[db1 id1]|] eqn:Hi; [|done].
  destruct (insert_rows _ _ _ _ _ Hi) as (c & -> & _ & Hnn & Hu).
  destruct Hb as [Hname|Hkey].
  - unfold Sqlite.violates_not_null in Hnn.
    cbn [Sqlite.not_null schema existsb] in Hnn.
    rewrite orb_false_r, complete_cell_name, Hname in Hnn.
    by rewrite bool_decide_eq_true_2 in Hnn.
  - apply (violates_unique_false _ _ _ "linkedin_url") in Hu; [|simpl; by left].
    by rewrite complete_cell_key in Hu.
Qed.

Lemma insert_all_blocks (leads : list (gmap string pyval)) :
  ∀ (clk : nat → Realtime.Clock) (i : nat) (db : Sqlite.Table),
    (∀ lead, lead ∈ leads → get lead "linkedin_url" ≠ PyNone) →
    ∃ new,
      Sqlite.rows (insert_all clk i leads db).1 = Sqlite.rows db ++ new
      ∧ ∀ lead, lead ∈ leads → blocked (insert_all clk i leads db).1 lead.
Proof.
  induction leads as [|lead leads IH]; intros clk i db Hurl.
  - exists []. simpl. rewrite app_nil_r. split; [done|].
    intros lead Hin. by apply elem_of_nil in Hin.
  - cbn [insert_all].
    assert (Hrest : ∀ l, l ∈ leads → get l "linkedin_url" ≠ PyNone).
    { intros l Hl. apply Hurl. by apply list_elem_of_further. }
    destruct (complete_insert_cases (clk i) db lead)
      as [[Hb ->]|(db' & id & r & -> & Hrows & Hcell)].
    + destruct (IH clk (S i) db Hrest) as (new & Hnew & Hblocked).
      exists new. split; [done|].
      intros l [->|Hl]%elem_of_cons; [|by apply Hblocked].
      by eapply blocked_grows.
    + destruct (IH clk (S i) db' Hrest) as (new & Hnew & Hblocked).
      destruct (insert_all clk (S i) leads db') as [db'' n] eqn:Hall.
      cbn [fst] in *. exists (r :: new). split.
      { rewrite Hnew, Hrows, <- app_assoc. done. }
      intros l [->|Hl]%elem_of_cons; [|by apply Hblocked].
      apply (blocked_grows db' db'' lead new Hnew). right.
      assert (complete_key lead ≠ Sqlite.Null) as Hkey.
      { unfold complete_key. specialize (Hurl lead (list_elem_of_here _ _)).
        by destruct (get lead "linkedin_url"). }
      rewrite select_eq_filter, Hrows, List.filter_app by done.
      cbn [List.filter]. rewrite bool_decide_eq_true_2 by done.
      intros Happ. by apply app_eq_nil in Happ as [_ ?].
Qed.

Lemma insert_all_blocked (leads : list (gmap string pyval)) :
  ∀ (clk : nat → Realtime.Clock) (i : nat) (db : Sqlite.Table),
    (∀ lead, lead ∈ leads → blocked db lead) →
    insert_all clk i leads db = (db, 0).
Proof.
  induction leads as [|lead leads IH]; intros clk i db Hb; [done|].
  cbn [insert_all].
  rewrite complete_insert_blocked by (apply Hb, list_elem_of_here).
  apply IH. intros l Hl. by apply Hb, list_elem_of_further.
Qed.

Lemma setup_headers_headed (sh : Gspread.Sheet) : headed (setup_headers sh).
Proof.
  unfold setup_headers, headed, Gspread.row_values_1.
  destruct (Realtime.has_header (Gspread.first_row sh)) eqn:H; [done|].
  reflexivity.
Qed.

Lemma setup_headers_idle (sh : Gspread.Sheet) :
  headed sh → setup_headers sh = sh.
Proof.
  unfold headed, setup_headers, Gspread.row_values_1. by intros ->.
Qed.

Lemma sync_leads_requests (leads : list (gmap string pyval))
    (sh : Gspread.Sheet) :
  headed sh →
  headed (sync_leads leads sh)
  ∧ Gspread.requests (sync_leads leads sh)
    = Gspread.requests sh
      ++ Gspread.BatchClear ["A2:T1000"]
         :: match Realtime.sheet_row <$> leads with
            | [] => []
            | rows => [Gspread.AppendRows rows]
            end.
Proof.
  unfold headed. intros Hrow. unfold sync_leads.
  destruct (Realtime.sheet_row <$> leads) as [|row rows].
  - split; [exact Hrow|done].
  - split.
    + cbn [Gspread.append_rows Gspread.batch_clear Gspread.log
             Gspread.first_row].
      destruct (Gspread.first_row sh); [done|exact Hrow].
    + simpl. by rewrite <- app_assoc.
Qed.

End CompleteRuns.

Section TwoRuns.

Lemma main_first_run (samples : list (gmap string pyval))
    (clk : nat → Realtime.Clock) (db : Sqlite.Table) (sh : Gspread.Sheet) :
  (first_run samples clk db sh).1.1 = (Complete.insert_all clk 0 samples db).1
  ∧ headed (first_run samples clk db sh).2.
Proof.
  unfold first_run, Complete.main.
  destruct (Complete.insert_all clk 0 samples db) as [db1 n1]. split; [done|].
  cbn [snd]. apply sync_leads_requests, setup_headers_headed.
Qed.

Lemma complete_second_run (samples : list (gmap string pyval))
    (clk clk' : nat → Realtime.Clock) (db : Sqlite.Table) (sh : Gspread.Sheet) :
  (∀ lead, lead ∈ samples → get lead "linkedin_url" ≠ PyNone) →
  (second_run samples clk clk' db sh).1.1 = (first_run samples clk db sh).1.1
  ∧ (second_run samples clk clk' db sh).1.2 = 0
  ∧ Gspread.requests (second_run samples clk clk' db sh).2
    = Gspread.requests (first_run samples clk db sh).2
      ++ full_sync_requests (first_run samples clk db sh).1.1.
Proof.
  intros Hurl.
  destruct (main_first_run samples clk db sh) as [Hdb Hhead].
  destruct (insert_all_blocks samples clk 0 db Hurl) as (new & _ & Hblocked).
  rewrite <- Hdb in Hblocked.
  unfold second_run.
  destruct (first_run samples clk db sh) as [[db1 n1] sh1].
  cbn [fst snd] in *. unfold Complete.main.
  rewrite (insert_all_blocked samples clk' 0 db1 Hblocked).
  rewrite (setup_headers_idle sh1 Hhead). cbn [fst snd].
  split; [done|]. split; [done|].
  by destruct (sync_leads_requests (Complete.get_all_leads db1) sh1 Hhead).
Qed.

Lemma apollo_sync_requests (db : Sqlite.Table) (sheet : Gspread.Sheet) :
  Gspread.requests (Apollo.sync_to_google_sheets true db sheet).1
  = Gspread.requests sheet
    ++ [ Gspread.Clear;
         Gspread.Update "A1"
           (Apollo.headers
            :: Sqlite.select_desc Apollo.sheet_columns
                 ["lead_score"; "collected_date"] db);
         Gspread.Format "A1:L1" ].
Proof. simpl. by rewrite <- !app_assoc. Qed.

Lemma apify_sync_requests (s : Apify.Scraper) :
  Gspread.requests (Apify.sheet (Apify.sync_to_google_sheets true s).1)
  = Gspread.requests (Apify.sheet s)
    ++ [ Gspread.Clear;
         Gspread.Update "A1"
           (Apify.headers
            :: Sqlite.select_desc Apify.sheet_columns
                 ["lead_score"; "collected_date"] (Apify.db s));
         Gspread.Format "A1:L1" ].
Proof. simpl. by rewrite <- !app_assoc. Qed.

Lemma append_new_leads_requests (leads : list (gmap string pyval))
    (sh : Gspread.Sheet) :
  Gspread.requests (Realtime.append_new_leads leads sh)
  = Gspread.requests sh
    ++ match leads with
       | [] => []
       | _ => [Gspread.AppendRows (Realtime.sheet_row <$> leads)]
       end.
Proof. destruct leads; simpl; by rewrite ?app_nil_r. Qed.

Context {World : Type} (env : Realtime.Env World).

Lemma process_urls_all_stored (target : Z) (urls : list string) :
  ∀ st : Realtime.Run World,
    0 < target →
    Realtime.new_leads st = [] →
    (∀ url, url ∈ urls →
        Realtime.is_duplicate (Realtime.db st) (PyStr url) = true) →
    ∃ n, Realtime.process_urls env target urls st
         = Ok (Realtime.mkRun (Realtime.world st) (Realtime.db st) [] n).
Proof.
  induction urls as [|url urls IH]; intros st Htarget Hnew Hdup.
  - exists (Realtime.attempts st). simpl. rewrite <- Hnew. by destruct st.
  - cbn [Realtime.process_urls]. rewrite Hnew. cbn [length].
    destruct (Z.leb_spec target (Z.of_nat 0)); [lia|].
    cbn [Realtime.db Realtime.world Realtime.new_leads Realtime.attempts].
    rewrite (Hdup url) by apply list_elem_of_here.
    destruct (IH (Realtime.mkRun (Realtime.world st) (Realtime.db st) []
                    (Realtime.attempts st + 1))) as [n Hn];
      [done|done| |].
    { intros u Hu. apply Hdup. by apply list_elem_of_further. }
    exists n. exact Hn.
Qed.

Lemma run_searches_all_stored (target max_attempts : Z)
    (database : Sqlite.Table) (queue : list (string * string)) :
  0 < target →
  (∀ title location w url,
      url ∈ (Realtime.search_linkedin_profiles env title location 5 w).1 →
      Realtime.is_duplicate database (PyStr url) = true) →
  ∀ st : Realtime.Run World,
    Realtime.new_leads st = [] → Realtime.db st = database →
    ∃ st' how,
      Realtime.run_searches env target max_attempts queue st = Ok (st', how)
      ∧ Realtime.new_leads st' = [] ∧ Realtime.db st' = database.
Proof.
  intros Htarget Hdup.
  induction queue as [|[title location] queue IH]; intros st Hnew Hdb.
  - exists st, Realtime.QueueExhausted. done.
  - cbn [Realtime.run_searches]. rewrite Hnew. cbn [length].
    destruct (Z.leb_spec target (Z.of_nat 0)); [lia|].
    destruct (max_attempts <=? Realtime.attempts st).
    { exists st, Realtime.MaxAttempts. done. }
    destruct (Realtime.search_linkedin_profiles env title location 5
                (Realtime.world st)) as [urls w1] eqn:Hsearch.
    destruct (process_urls_all_stored target urls
                (Realtime.mkRun w1 (Realtime.db st) [] (Realtime.attempts st)))
      as [n ->]; [done|done| |].
    { intros url Hurl. cbn [Realtime.db]. rewrite Hdb.
      apply (Hdup title location (Realtime.world st)). by rewrite Hsearch. }
    cbn [mbind res_bind]. apply IH; [done|exact Hdb].
Qed.

Lemma collect_all_stored (target : Z) (w : World) (database : Sqlite.Table)
    (sh : option Gspread.Sheet) :
  0 < target →
  (∀ title location w' url,
      url ∈ (Realtime.search_linkedin_profiles env title location 5 w').1 →
      Realtime.is_duplicate database (PyStr url) = true) →
  ∃ o, Realtime.collect_daily_leads env target w database sh = Ok o
       ∧ Realtime.new_leads (Realtime.final o) = []
       ∧ Realtime.db (Realtime.final o) = database
       ∧ Realtime.sheets o = sh.
Proof.
  intros Htarget Hdup. unfold Realtime.collect_daily_leads.
  destruct (Realtime.shuffle env Realtime.searches w) as [queue w1].
  destruct (run_searches_all_stored target (target * 3) database queue
              Htarget Hdup (Realtime.mkRun w1 database [] 0))
    as (st & how & -> & Hnew & Hdb); [done|done|].
  cbn [mbind res_bind].
  destruct (Z.eqb_spec target 0); [lia|].
  eexists. split; [done|]. cbn [Realtime.final Realtime.sheets].
  rewrite Hnew. split; [done|]. split; [done|]. by destruct sh.
Qed.

End TwoRuns.

(** C2, as stated, fails: the second run of [main] on the same sample lead
    stores nothing new, yet it asks the worksheet to clear its data range
    and writes the stored lead again. *)
Lemma second_run_rewrites_counterexample :
  (second_run [sample_candidate] (λ _, sample_clock) (λ _, sample_clock)
     Sqlite.empty Gspread.blank).1.2 = 0
  ∧ second_run_requests [sample_candidate] (λ _, sample_clock)
      (λ _, sample_clock) Sqlite.empty Gspread.blank
    = [ Gspread.BatchClear ["A2:T1000"];
        Gspread.AppendRows
          [Realtime.sheet_row
             (<["id" := PyInt 1]>
               (Sqlite.unbind <$>
                 (list_to_map
                    (Sqlite.coerce Complete.schema <$>
                     Complete.insert_values sample_clock sample_candidate)
                  : gmap string Sqlite.sqlval)))] ]
  ∧ existsb Gspread.is_write
      (second_run_requests [sample_candidate] (λ _, sample_clock)
         (λ _, sample_clock) Sqlite.empty Gspread.blank) = true
  ∧ existsb Gspread.destructive
      (second_run_requests [sample_candidate] (λ _, sample_clock)
         (λ _, sample_clock) Sqlite.empty Gspread.blank) = true.
Proof. split; [|split; [|split]]; vm_compute; reflexivity. Qed.

(** C2, amended.  A second run of [main] on the same sample leads, each
    with a profile URL, stores no new lead and leaves the table as it was;
    but synchronisation is a full rewrite, not an append of the new leads:
    the second run asks the worksheet to clear its data range and appends
    every stored lead again, and [sync_to_google_sheets] (Apollo, Apify)
    clears the whole sheet and writes the header and every stored lead on
    each call.  Only [append_new_leads] of the collector is append-only: it
    sends one append of the new leads and nothing when there is none, so a
    run of the collector in which every profile found is already stored
    accepts no lead, leaves the table as it was and sends the worksheet
    nothing. *)
Theorem second_run_full_resync :
  (∀ (samples : list (gmap string pyval)) (clk clk' : nat → Realtime.Clock)
     (db : Sqlite.Table) (sh : Gspread.Sheet),
      (∀ lead, lead ∈ samples → get lead "linkedin_url" ≠ PyNone) →
      (second_run samples clk clk' db sh).1.1 = (first_run samples clk db sh).1.1
      ∧ (second_run samples clk clk' db sh).1.2 = 0
      ∧ Gspread.requests (second_run samples clk clk' db sh).2
        = Gspread.requests (first_run samples clk db sh).2
          ++ full_sync_requests (first_run samples clk db sh).1.1)
  ∧ (∀ (db : Sqlite.Table) (sheet : Gspread.Sheet),
      Gspread.requests (Apollo.sync_to_google_sheets true db sheet).1
      = Gspread.requests sheet
        ++ [ Gspread.Clear;
             Gspread.Update "A1"
               (Apollo.headers
                :: Sqlite.select_desc Apollo.sheet_columns
                     ["lead_score"; "collected_date"] db);
             Gspread.Format "A1:L1" ])
  ∧ (∀ s : Apify.Scraper,
      Gspread.requests (Apify.sheet (Apify.sync_to_google_sheets true s).1)
      = Gspread.requests (Apify.sheet s)
        ++ [ Gspread.Clear;
             Gspread.Update "A1"
               (Apify.headers
                :: Sqlite.select_desc Apify.sheet_columns
                     ["lead_score"; "collected_date"] (Apify.db s));
             Gspread.Format "A1:L1" ])
  ∧ (∀ (leads : list (gmap string pyval)) (sh : Gspread.Sheet),
      Gspread.requests (Realtime.append_new_leads leads sh)
      = Gspread.requests sh
        ++ match leads with
           | [] => []
           | _ => [Gspread.AppendRows (Realtime.sheet_row <$> leads)]
           end)
  ∧ (∀ (World : Type) (env : Realtime.Env World) (target : Z) (w : World)
       (database : Sqlite.Table) (sh : option Gspread.Sheet),
      0 < target →
      (∀ title location w' url,
          url ∈ (Realtime.search_linkedin_profiles env title location 5 w').1 →
          Realtime.is_duplicate database (PyStr url) = true) →
      ∃ o, Realtime.collect_daily_leads env target w database sh = Ok o
           ∧ Realtime.new_leads (Realtime.final o) = []
           ∧ Realtime.db (Realtime.final o) = database
           ∧ Realtime.sheets o = sh).
Proof.
  split; [exact complete_second_run|].
  split; [exact apollo_sync_requests|].
  split; [exact apify_sync_requests|].
  split; [exact append_new_leads_requests|].
  intros World env. apply collect_all_stored.
Qed.

Lemma second_run_full_resync_witness :
  (second_run [sample_candidate] (λ _, sample_clock) (λ _, sample_clock)
     Sqlite.empty Gspread.blank).1.1
  = (first_run [sample_candidate] (λ _, sample_clock)
       Sqlite.empty Gspread.blank).1.1
  ∧ (second_run [sample_candidate] (λ _, sample_clock) (λ _, sample_clock)
       Sqlite.empty Gspread.blank).1.2 = 0
  ∧ Gspread.requests
      (second_run [sample_candidate] (λ _, sample_clock) (λ _, sample_clock)
         Sqlite.empty Gspread.blank).2
    = Gspread.requests
        (first_run [sample_candidate] (λ _, sample_clock)
           Sqlite.empty Gspread.blank).2
      ++ full_sync_requests
           (first_run [sample_candidate] (λ _, sample_clock)
              Sqlite.empty Gspread.blank).1.1.
Proof.
  apply (proj1 second_run_full_resync [sample_candidate]).
  intros lead Hlead. apply list_elem_of_singleton in Hlead as ->.
  vm_compute. discriminate.
Defined.
(** ** Guessing the company domain *)

Section Strings.

Lemma append_assoc (a b c : string) : (a +:+ b) +:+ c = a +:+ (b +:+ c).
Proof.
  induction a as [|x a IH]; [done|].
  change (String x ((a +:+ b) +:+ c) = String x (a +:+ (b +:+ c))).
  by rewrite IH.
Qed.

Lemma append_empty_r (a : string) : a +:+ "" = a.
Proof.
  induction a as [|x a IH]; [done|].
  change (String x (a +:+ "") = String x a). by rewrite IH.
Qed.

Lemma list_of_append (a b : string) :
  list_ascii_of_string (a +:+ b)
  = list_ascii_of_string a ++ list_ascii_of_string b.
Proof.
  induction a as [|x a IH]; [done|].
  change (x :: list_ascii_of_string (a +:+ b)
          = x :: (list_ascii_of_string a ++ list_ascii_of_string b)).
  by rewrite IH.
Qed.

Lemma list_of_string_inj (a b : string) :
  list_ascii_of_string a = list_ascii_of_string b → a = b.
Proof.
  intros H. rewrite <- (string_of_list_ascii_of_string a),
    <- (string_of_list_ascii_of_string b). by rewrite H.
Qed.

Lemma list_of_rev_app (a b : string) :
  list_ascii_of_string (String.rev_app a b)
  = List.rev (list_ascii_of_string a) ++ list_ascii_of_string b.
Proof.
  revert b. induction a as [|x a IH]; intros b; [done|].
  cbn. rewrite IH. cbn. by rewrite <- app_assoc.
Qed.

Lemma list_of_rev (a : string) :
  list_ascii_of_string (String.rev a) = List.rev (list_ascii_of_string a).
Proof. unfold String.rev. rewrite list_of_rev_app. cbn. apply app_nil_r. Qed.

Lemma string_rev_involutive (a : string) : String.rev (String.rev a) = a.
Proof.
  apply list_of_string_inj. by rewrite !list_of_rev, rev_involutive.
Qed.

Lemma prefix_occurs (k s : string) :
  String.prefix k s = true
  ↔ ∃ post, list_ascii_of_string s = list_ascii_of_string k ++ post.
Proof.
  split.
  - intros [rest ->]%prefix_split. exists (list_ascii_of_string rest).
    apply list_of_append.
  - revert s. induction k as [|x k IH]; intros s [post H].
    + by destruct s.
    + destruct s as [|y s]; [done|]. cbn in H. injection H as Hxy H.
      subst. cbn. destruct (Ascii.ascii_dec _ _); [|done]. apply IH. eauto.
Qed.

Lemma contains_occurs (k s : string) :
  contains k s = true
  ↔ occurs (list_ascii_of_string k) (list_ascii_of_string s).
Proof.
  induction s as [|c s IH]; cbn [contains].
  - rewrite orb_false_r, prefix_occurs. split.
    + intros [post H]. by exists [], post.
    + intros ([|] & post & H); [by exists post|done].
  - rewrite orb_true_iff, prefix_occurs, IH. split.
    + intros [[post H]|(pre & post & H)].
      * by exists [], post.
      * exists (c :: pre), post. cbn. by rewrite H.
    + intros ([|x pre] & post & H).
      * left. by exists post.
      * right. cbn in H. injection H as Hxy H. by exists pre, post.
Qed.

Lemma occurs_rev (k s : list ascii) :
  occurs k s → occurs (List.rev k) (List.rev s).
Proof.
  intros (pre & post & ->). exists (List.rev post), (List.rev pre).
  by rewrite !rev_app_distr, <- app_assoc.
Qed.

Lemma contains_rev (k s : string) :
  contains (String.rev k) (String.rev s) = contains k s.
Proof.
  apply eq_true_iff_eq. rewrite !contains_occurs, !list_of_rev. split.
  - intros H%occurs_rev. by rewrite !rev_involutive in H.
  - apply occurs_rev.
Qed.

Lemma contains_lstrip (k s : string) :
  first_nonspace k = true → contains k (lstrip s) = contains k s.
Proof.
  intros Hk. induction s as [|c s IH]; [done|].
  cbn [lstrip]. destruct (isspace c) eqn:Hc; [|done].
  rewrite IH. cbn [contains].
  destruct k as [|a k]; [done|]. cbn [String.prefix].
  destruct (Ascii.ascii_dec a c) as [->|]; [|done].
  cbn in Hk. by rewrite Hc in Hk.
Qed.

Lemma contains_strip (k s : string) :
  first_nonspace k = true → first_nonspace (String.rev k) = true →
  contains k (strip s) = contains k s.
Proof.
  intros Hfirst Hlast. unfold strip, rstrip.
  rewrite <- contains_rev, string_rev_involutive.
  rewrite (contains_lstrip _ _ Hlast), contains_rev.
  by apply contains_lstrip.
Qed.

Lemma contains_shorter_key (a b s : string) :
  contains (a +:+ b) s = true → contains a s = true.
Proof.
  rewrite !contains_occurs, list_of_append.
  intros (pre & post & ->).
  exists pre, (list_ascii_of_string b ++ post). by rewrite <- app_assoc.
Qed.

End Strings.

Section Substitution.
Variable alts : list string.
Hypothesis alts_words : Forall (λ a, all_word a = true ∧ a ≠ "") alts.

Lemma find_all_false {A} (f : A → bool) (l : list A) :
  Forall (λ x, f x = false) l → List.find f l = None.
Proof. induction 1 as [|x l Hx _ IH]; [done|]. cbn. by rewrite Hx. Qed.

Lemma find_ext_forall {A} (f g : A → bool) (l : list A) :
  Forall (λ x, f x = g x) l → List.find f l = List.find g l.
Proof. induction 1 as [|x l Hx _ IH]; [done|]. cbn. by rewrite Hx, IH. Qed.

Lemma word_prefix_after (s : string) : word_prefix s +:+ after_word s = s.
Proof.
  induction s as [|c s IH]; [done|]. cbn [word_prefix after_word].
  destruct (is_word c); [|done].
  change (String c (word_prefix s +:+ after_word s) = String c s).
  by rewrite IH.
Qed.

Lemma word_prefix_empty (s : string) : word_prefix s = "" → after_word s = s.
Proof. destruct s as [|c s]; [done|]. cbn. by destruct (is_word c). Qed.

Lemma after_word_shape (s : string) :
  after_word s = ""
  ∨ ∃ c t, after_word s = String c t ∧ is_word c = false
           ∧ (String.length t < String.length s)%nat.
Proof.
  induction s as [|c s IH]; [by left|]. cbn [after_word].
  destruct (is_word c) eqn:Hc.
  - destruct IH as [?|(c' & t & ? & ? & ?)]; [by left|].
    right. exists c', t. repeat split; try done. cbn. lia.
  - right. exists c, s. repeat split; try done. cbn. lia.
Qed.

Lemma last_is_word_all (a : string) (p : bool) :
  all_word a = true → a ≠ "" → last_is_word p a = true.
Proof.
  revert p. induction a as [|x a IH]; intros p Hall Hne; [done|].
  cbn in Hall. apply andb_true_iff in Hall as [Hx Hall]. cbn [last_is_word].
  destruct a as [|y a]; [by rewrite Hx|]. by apply IH.
Qed.

Lemma strip_prefix_run (a : string) :
  all_word a = true →
  ∀ s, (∃ rest, strip_prefix a s = Some rest ∧ next_is_word rest = false)
       ↔ a = word_prefix s.
Proof.
  induction a as [|x a IH]; intros Hall s.
  - cbn [strip_prefix]. split.
    + intros (rest & [= <-] & Hnext). destruct s as [|c s]; [done|].
      cbn in *. by rewrite Hnext.
    + intros H. exists s. split; [done|]. destruct s as [|c s]; [done|].
      cbn in *. by destruct (is_word c).
  - cbn in Hall. apply andb_true_iff in Hall as [Hx Hall].
    destruct s as [|y s].
    { cbn. split; [by intros (? & ? & _)|done]. }
    cbn [strip_prefix word_prefix].
    destruct (Ascii.eqb_spec x y) as [<-|Hxy].
    + rewrite Hx, (IH Hall s). split; [by intros ->|by intros [= ?]].
    + split; [by intros (? & ? & _)|].
      destruct (is_word y); [|done]. intros [= ? _]. done.
Qed.

Lemma alt_matches_run (a s : string) :
  all_word a = true → a ≠ "" →
  alt_matches false s a = String.eqb a (word_prefix s).
Proof.
  intros Hall Hne. apply eq_true_iff_eq. rewrite String.eqb_eq.
  rewrite <- (strip_prefix_run a Hall s). unfold alt_matches.
  rewrite (last_is_word_all a false Hall Hne).
  destruct (strip_prefix a s) as [rest|].
  - destruct (next_is_word rest) eqn:Hnext; cbn; split; try done.
    + intros (? & [= <-] & ?). congruence.
    + intros _. eauto.
  - split; [done|]. by intros (? & ? & _).
Qed.

Lemma alts_start_with_word (c : ascii) (s : string) (p : bool) :
  is_word c = false →
  List.find (alt_matches p (String c s)) alts = None.
Proof.
  intros Hc. apply find_all_false. eapply Forall_impl; [exact alts_words|].
  intros [|x a] [Hall Hne]; [done|]. unfold alt_matches. cbn [strip_prefix].
  destruct (Ascii.eqb_spec x c) as [->|]; [|done].
  cbn in Hall. by rewrite Hc in Hall.
Qed.

(** A character that is not a word character is kept. *)
Lemma re_sub_nonword (c : ascii) (s : string) (p : bool) :
  is_word c = false →
  re_sub_go alts 0 p (String c s) = String c (re_sub_go alts 0 false s).
Proof.
  intros Hc. cbn [re_sub_go]. unfold match_alt.
  rewrite (alts_start_with_word c s p Hc), Hc.
  by destruct (xorb p (next_is_word (String c s))).
Qed.

(** Inside a run that was not deleted, the run is kept to its end. *)
Lemma re_sub_keep (s : string) :
  re_sub_go alts 0 true s
  = word_prefix s +:+ re_sub_go alts 0 true (after_word s).
Proof.
  induction s as [|c s IH]; [done|].
  cbn [word_prefix after_word]. destruct (is_word c) eqn:Hc; [|done].
  cbn [re_sub_go]. unfold match_alt. cbn [next_is_word]. rewrite Hc.
  cbn [xorb]. by rewrite IH.
Qed.

(** A deleted run is skipped to its end. *)
Lemma re_sub_skip (s : string) :
  ∀ (n : nat) (p : bool),
    n = String.length (word_prefix s) → (0 < n)%nat →
    re_sub_go alts n p s = re_sub_go alts 0 true (after_word s).
Proof.
  induction s as [|c s IH]; intros n p Hn Hpos.
  - cbn in Hn. lia.
  - cbn [word_prefix after_word] in *. destruct (is_word c) eqn:Hc.
    2:{ cbn in Hn. lia. }
    cbn in Hn. destruct n as [|k]; [lia|]. injection Hn as Hk.
    cbn [re_sub_go]. rewrite Hc.
    destruct k as [|k].
    + symmetry in Hk. destruct (word_prefix s) eqn:Hw; [|done].
      by rewrite (word_prefix_empty s Hw).
    + apply IH; [done|lia].
Qed.

(** At the start of a run: the whole run is deleted when it is one of the
    alternatives and kept otherwise. *)
Lemma re_sub_run (c : ascii) (s : string) :
  is_word c = true →
  re_sub_go alts 0 false (String c s)
  = flush alts (word_prefix (String c s))
    +:+ re_sub_go alts 0 true (after_word (String c s)).
Proof.
  intros Hc. cbn [re_sub_go]. unfold match_alt. cbn [next_is_word].
  rewrite Hc. cbn [xorb].
  rewrite (find_ext_forall _ (λ a, String.eqb a (word_prefix (String c s)))).
  2:{ eapply Forall_impl; [exact alts_words|]. intros a [? ?].
      by apply alt_matches_run. }
  unfold flush.
  destruct (List.find _ alts) as [a|] eqn:Hfind.
  - apply find_some in Hfind as [Hin Heq]. apply String.eqb_eq in Heq.
    assert (existsb (String.eqb (word_prefix (String c s))) alts = true) as ->.
    { apply existsb_exists. exists a. split; [done|]. by apply String.eqb_eq. }
    subst a. cbn [fmap option_fmap option_map word_prefix after_word].
    rewrite Hc. cbn [String.length].
    destruct (String.length (word_prefix s)) as [|k] eqn:Hk.
    + destruct (word_prefix s) eqn:Hw; [|done].
      by rewrite (word_prefix_empty s Hw).
    + by rewrite (re_sub_skip s (S k) true) by (done || lia).
  - assert (existsb (String.eqb (word_prefix (String c s))) alts = false) as ->.
    { apply not_true_is_false. intros (a & Hin & Heq)%existsb_exists.
      apply String.eqb_eq in Heq.
      pose proof (List.find_none _ _ Hfind a Hin) as Hno.
      cbn in Hno. rewrite <- Heq, String.eqb_refl in Hno. done. }
    cbn [fmap option_fmap option_map word_prefix after_word]. rewrite Hc.
    rewrite re_sub_keep.
    by change (String c (word_prefix s +:+ re_sub_go alts 0 true (after_word s))
               = String c (word_prefix s) +:+ re_sub_go alts 0 true (after_word s)).
Qed.

End Substitution.

Section Keys.
Variable alts : list string.
Hypothesis alts_words : Forall (λ a, all_word a = true ∧ a ≠ "") alts.
Variable k : string.
Hypothesis k_word : all_word k = true.
Hypothesis k_not_empty : k ≠ "".
Hypothesis k_in_no_alt : existsb (contains k) alts = false.

Lemma prefix_before_nonword (x y : string) (c : ascii) :
  is_word c = false →
  String.prefix k (x +:+ String c y) = String.prefix k x.
Proof.
  intros Hc. revert x k_word. clear k_not_empty k_in_no_alt.
  induction k as [|a k' IH]; intros x Hall.
  - by destruct x.
  - cbn in Hall. apply andb_true_iff in Hall as [Ha Hall].
    destruct x as [|b x].
    + change ("" +:+ String c y) with (String c y). cbn [String.prefix].
      destruct (Ascii.ascii_dec a c) as [->|]; [|done]. congruence.
    + change (String b x +:+ String c y) with (String b (x +:+ String c y)).
      cbn [String.prefix]. destruct (Ascii.ascii_dec a b); [|done].
      by apply IH.
Qed.

Lemma contains_empty : contains k "" = false.
Proof. destruct k; [done|]. done. Qed.

(** An occurrence of the key lies on one side of a character that is not
    a word character. *)
Lemma contains_split (x y : string) (c : ascii) :
  is_word c = false →
  contains k (x +:+ String c y) = contains k x || contains k y.
Proof.
  intros Hc. induction x as [|b x IH].
  - change ("" +:+ String c y) with (String c y). cbn [contains].
    rewrite <- (prefix_before_nonword "" y c Hc).
    change ("" +:+ String c y) with (String c y).
    destruct k as [|a k'] eqn:Hk; [done|].
    cbn [String.prefix]. destruct (Ascii.ascii_dec a c) as [->|]; [|done].
    cbn in k_word. by rewrite Hc in k_word.
  - change (String b x +:+ String c y) with (String b (x +:+ String c y)).
    cbn [contains]. rewrite IH.
    rewrite <- (prefix_before_nonword (String b x) y c Hc).
    change (String b x +:+ String c y) with (String b (x +:+ String c y)).
    by rewrite orb_assoc.
Qed.

Lemma contains_flush (run : string) :
  contains k (flush alts run) = contains k run.
Proof.
  unfold flush. destruct (existsb (String.eqb run) alts) eqn:Hin; [|done].
  apply existsb_exists in Hin as (a & Hin & ->%String.eqb_eq).
  rewrite contains_empty. symmetry. apply not_true_is_false. intros Hc.
  assert (existsb (contains k) alts = true); [|congruence].
  apply existsb_exists. eauto.
Qed.

(** The substitution neither removes nor creates an occurrence of the
    key. *)
Lemma contains_re_sub (n : nat) :
  ∀ s, (String.length s < n)%nat →
       contains k (re_sub_go alts 0 false s) = contains k s.
Proof.
  induction n as [|n IH]; intros s Hlen; [lia|].
  destruct s as [|c s]; [done|].
  destruct (is_word c) eqn:Hc.
  - rewrite (re_sub_run alts alts_words c s Hc).
    rewrite <- (word_prefix_after (String c s)) at 3.
    destruct (after_word_shape (String c s)) as [->|(c' & t & -> & Hc' & Ht)].
    + cbn [re_sub_go]. rewrite !append_empty_r. apply contains_flush.
    + rewrite (re_sub_nonword alts alts_words c' t true Hc').
      rewrite !(contains_split _ _ c' Hc'), contains_flush.
      rewrite IH; [done|]. cbn in Hlen. cbn in Ht. lia.
  - rewrite (re_sub_nonword alts alts_words c s false Hc).
    pose proof (contains_split "" (re_sub_go alts 0 false s) c Hc) as H1.
    pose proof (contains_split "" s c Hc) as H2.
    change ("" +:+ String c (re_sub_go alts 0 false s))
      with (String c (re_sub_go alts 0 false s)) in H1.
    change ("" +:+ String c s) with (String c s) in H2.
    rewrite H1, H2, IH; [done|]. cbn in Hlen. lia.
Qed.

End Keys.

Section Domain.
Import Realtime.

Lemma suffixes_are_words :
  Forall (λ a, all_word a = true ∧ a ≠ "") corporate_suffixes.
Proof. repeat constructor; done. Qed.

Lemma clean_keeps_key (k company : string) :
  plain_key k = true →
  contains k (clean_company_name company) = contains k (lower company).
Proof.
  unfold plain_key. rewrite !andb_true_iff, !negb_true_iff.
  intros ((((Hne & Hall) & Hfirst) & Hlast) & Hno).
  unfold clean_company_name, re_sub_words.
  rewrite (contains_strip k _ Hfirst Hlast).
  apply (contains_re_sub corporate_suffixes suffixes_are_words k Hall)
    with (n := S (String.length (lower company))); [|done|lia].
  intros ->. done.
Qed.

Lemma lookup_on_lower_name (company : string) :
  List.find (λ kd, contains kd.1 (clean_company_name company)) uae_companies
  = List.find (λ kd, contains kd.1 (lower company)) uae_companies.
Proof.
  unfold uae_companies. cbn [List.find fst].
  rewrite !(clean_keeps_key _ company) by (vm_compute; reflexivity).
  repeat (match goal with
          | |- context [if contains ?k (lower company) then _ else _] =>
              destruct (contains k (lower company)) eqn:?; [done|]
          end).
  assert (∀ s, contains "emirates" s = false →
               contains "emirates nbd" s = false) as Hshadow.
  { intros s Hs. apply not_true_is_false. intros Hc.
    apply (contains_shorter_key "emirates" " nbd") in Hc. congruence. }
  rewrite !Hshadow; [done|done|].
  by rewrite (clean_keeps_key "emirates" company) by (vm_compute; reflexivity).
Qed.

Lemma append_not_empty (a b : string) : b ≠ "" → a +:+ b ≠ "".
Proof. destruct a; [done|]. done. Qed.

Lemma guess_company_domain_not_empty (company : string) :
  guess_company_domain company ≠ "".
Proof.
  unfold guess_company_domain.
  destruct (List.find _ uae_companies) as [[key domain]|] eqn:Hfind.
  - apply find_some in Hfind as [Hin _]. revert Hin. unfold uae_companies.
    cbn [In]. intros H.
    repeat (destruct H as [[= <- <-]|H]; [done|]). done.
  - destruct (split _) as [|base ?]; [done|]. by apply append_not_empty.
Qed.

End Domain.

(** C10.  For every company name (of code points below 256, where
    [lower], [strip], [split] and the word boundary of the substitution
    are exact) [guess_company_domain] returns a domain that is not empty: the domain of the first key of the override table
    that occurs in the lower-cased name (the lookup runs on the cleaned
    name, which has the same occurrences of the keys); otherwise the first
    word of the name stripped of its corporate suffixes, with ".ae"
    appended; and "company.ae" when no word remains, as for the empty name
    and for "LLC". *)
Theorem guess_company_domain_cases :
  ∀ company : string,
    Realtime.guess_company_domain company ≠ ""
    ∧ Realtime.guess_company_domain company
      = match List.find (λ kd, contains kd.1 (lower company))
                Realtime.uae_companies with
        | Some (_, domain) => domain
        | None =>
            match split (Realtime.clean_company_name company) with
            | base :: _ => base +:+ ".ae"
            | [] => "company.ae"
            end
        end
    ∧ Realtime.guess_company_domain "" = "company.ae"
    ∧ Realtime.guess_company_domain "LLC" = "company.ae".
Proof.
  intros company. split; [apply guess_company_domain_not_empty|].
  split; [|split; vm_compute; reflexivity].
  unfold Realtime.guess_company_domain.
  by rewrite lookup_on_lower_name.
Qed.

Example guess_company_domain_samples :
  Realtime.guess_company_domain "RAK Ceramics LLC" = "rak.ae"
  ∧ Realtime.guess_company_domain "Emirates NBD" = "emirates.com"
  ∧ Realtime.guess_company_domain "Limited Edition Ltd" = "edition.ae"
  ∧ Realtime.guess_company_domain "Alinc Trading Corp" = "alinc.ae"
  ∧ Realtime.guess_company_domain "Dubai Holdings Group" = "du.ae"
  ∧ Realtime.clean_company_name "Gulf Group Holdings, Inc." = "gulf  , .".
Proof. repeat split; vm_compute; reflexivity. Qed.

(** Names outside ASCII: the no-break space (160) separates tokens, an
    accented letter is a word character and has its lower-case form. *)
Example latin1_samples :
  split ("Ahmed" +:+ code_point 160 +:+ "Hassan") = ["Ahmed"; "Hassan"]
  ∧ Apify.names
      (<["fullName" := PyStr ("Ahmed" +:+ code_point 160 +:+ "Hassan")]> ∅)
    = Ok (PyStr ("Ahmed" +:+ code_point 160 +:+ "Hassan"),
          PyStr "Ahmed", PyStr "Hassan")
  ∧ Realtime.guess_company_domain ("Acme" +:+ code_point 160 +:+ "Trading")
    = "acme.ae"
  ∧ Realtime.guess_company_domain (code_point 233 +:+ "inc")
    = code_point 233 +:+ "inc.ae"
  ∧ Realtime.guess_company_domain (code_point 201 +:+ "clair")
    = code_point 233 +:+ "clair.ae".
Proof. repeat split; vm_compute; reflexivity. Qed.

(** * Further properties of the code *)

(** ** What [enrich_lead] produces *)

Section Enrich.
Import Realtime.
Context {World : Type} (env : Env World).

Lemma scrape_shape (url : string) (w w' : World) (pd : gmap string pyval) :
  scrape_linkedin_profile env url w = (Some pd, w') →
  ∃ name title stamp, name ≠ "" ∧ pd = scraped url name title stamp.
Proof.
  unfold scrape_linkedin_profile.
  destruct (http_title env url w) as [[title_tag|] w1]; [|done].
  set (base := list_to_map _ : gmap string pyval).
  assert (Hbase : truthy (get base "name") = false) by (by vm_compute).
  destruct title_tag as [text|]; [|by rewrite Hbase].
  destruct (split_on "|" text) as [|a [|b l]]; try (by rewrite Hbase).
  assert (get (<["title" := PyStr (strip b)]>
                 (<["name" := PyStr (strip a)]> base)) "name"
          = PyStr (strip a)) as ->.
  { unfold get. rewrite lookup_insert_ne by done. by rewrite lookup_insert_eq. }
  cbn [truthy]. destruct (String.eqb_spec (strip a) ""); [done|].
  intros [= <- <-]. by exists (strip a), (strip b), (iso_now (now env w1)).
Qed.

Lemma scraped_lookup (url name title stamp k : string) :
  k ∈ contact_keys →
  (scraped url name title stamp ∪ initial_lead url) !! k = Some (PyStr "").
Proof.
  unfold contact_keys. rewrite !elem_of_cons, elem_of_nil.
  intros [->|[->|[->|[->|[->|[->|[->|[]]]]]]]]; by vm_compute.
Qed.

Lemma scraped_url (url name title stamp : string) :
  (scraped url name title stamp ∪ initial_lead url) !! "linkedin_url"
  = Some (PyStr url).
Proof. by vm_compute. Qed.

Lemma scraped_bare (url name title stamp : string) :
  bare (scraped url name title stamp ∪ initial_lead url).
Proof.
  split; [|split; [|split]];
    [exists name|exists title| |]; by vm_compute.
Qed.

Lemma scraped_score (url name title stamp : string) :
  ∃ s, calculate_score (scraped url name title stamp ∪ initial_lead url) = Ok s
       ∧ 0 ≤ s ≤ 47.
Proof.
  unfold calculate_score, get, get_or.
  assert ((scraped url name title stamp ∪ initial_lead url) !! "title"
          = Some (PyStr title)) as -> by (by vm_compute).
  assert ((scraped url name title stamp ∪ initial_lead url) !! "location"
          = Some (PyStr "")) as -> by (by vm_compute).
  assert ((scraped url name title stamp ∪ initial_lead url) !! "company"
          = Some (PyStr "")) as -> by (by vm_compute).
  assert ((scraped url name title stamp ∪ initial_lead url) !! "email_1"
          = Some (PyStr "")) as -> by (by vm_compute).
  assert ((scraped url name title stamp ∪ initial_lead url) !! "phone"
          = Some (PyStr "")) as -> by (by vm_compute).
  rewrite scraped_url.
  cbn [default]. unfold id. cbn [str_lower mbind res_bind].
  change (lower "") with "".
  assert (any_in large_companies "" = false) as -> by (by vm_compute).
  assert (truthy (PyStr "") = false) as -> by done.
  assert (contains "sharjah" "" || contains "ras al khaimah" ""
          || contains "rak" "" = false) as -> by (by vm_compute).
  assert (contains "dubai" "" || contains "uae" "" = false)
    as -> by (by vm_compute).
  pose proof (realtime_title_points_range (lower title)).
  eexists. split; [done|]. destruct (truthy (PyStr url)); lia.
Qed.

Lemma enrich_lead_cases (url : string) (w : World) :
  (∃ w', scrape_linkedin_profile env url w = (None, w')
         ∧ enrich_lead env url w = Ok (None, w'))
  ∨ (∃ w' name title stamp s,
        name ≠ ""
        ∧ scrape_linkedin_profile env url w
          = (Some (scraped url name title stamp), w')
        ∧ 0 ≤ s ≤ 47
        ∧ enrich_lead env url w
          = Ok (Some (<["priority" := PyStr (get_priority s)]>
                       (<["lead_score" := PyInt s]>
                         (scraped url name title stamp ∪ initial_lead url))),
                w')).
Proof.
  unfold enrich_lead.
  destruct (scrape_linkedin_profile env url w) as [[pd|] w1] eqn:Hscrape.
  - right. destruct (scrape_shape _ _ _ _ Hscrape)
      as (name & title & stamp & Hname & ->).
    destruct (scraped_score url name title stamp) as (s & Hs & Hrange).
    exists w1, name, title, stamp, s. split; [done|]. split; [done|].
    split; [done|].
    rewrite (derive_emails_bare _ (scraped_bare url name title stamp)).
    cbn [mbind res_bind].
    rewrite (find_contacts_bare env _ w1 (scraped_bare url name title stamp)).
    cbn [mbind res_bind]. unfold score_lead. rewrite Hs.
    cbn [mbind res_bind]. unfold item. rewrite !lookup_insert_ne by done.
    assert ((scraped url name title stamp ∪ initial_lead url) !! "name"
            = Some (PyStr name)) as -> by (by vm_compute).
    cbn [mbind res_bind truthy]. by destruct (String.eqb_spec name "").
  - left. exists w1. split; [done|].
    rewrite (derive_emails_bare _ (initial_lead_bare url)).
    cbn [mbind res_bind].
    rewrite (find_contacts_bare env _ w1 (initial_lead_bare url)).
    cbn [mbind res_bind].
    assert (∃ s, calculate_score (initial_lead url) = Ok s) as [s Hs].
    { apply realtime_score_returns; by vm_compute. }
    unfold score_lead. rewrite Hs. cbn [mbind res_bind]. unfold item.
    rewrite !lookup_insert_ne by done.
    by assert (initial_lead url !! "name" = Some (PyStr "")) as ->
      by (by vm_compute).
Qed.

End Enrich.

(** X1.  A lead that [enrich_lead] returns carries no contact data: the
    profile scrape never fills [company], so the email candidates, the
    website, the phone and the WhatsApp number all keep their initial
    empty string; the lead keeps the URL it was asked for, its score is at
    most 47 (title and URL points only) and its priority is "Low". *)
Theorem enrich_lead_no_contact_data {World : Type} (env : Realtime.Env World)
    (url : string) (w w' : World) (lead : gmap string pyval) :
  Realtime.enrich_lead env url w = Ok (Some lead, w') →
  Forall (λ k, lead !! k = Some (PyStr "")) contact_keys
  ∧ lead !! "linkedin_url" = Some (PyStr url)
  ∧ lead !! "priority" = Some (PyStr "Low")
  ∧ ∃ s, lead !! "lead_score" = Some (PyInt s) ∧ 0 ≤ s ≤ 47.
Proof.
  intros Hrun.
  destruct (enrich_lead_cases env url w)
    as [(w1 & _ & Hnone)|(w1 & name & title & stamp & s & _ & _ & Hs & Hsome)].
  { rewrite Hnone in Hrun. discriminate. }
  rewrite Hsome in Hrun. injection Hrun as <- <-.
  split; [|split; [|split]].
  - apply Forall_forall. intros k Hk.
    assert (k ≠ "priority" ∧ k ≠ "lead_score") as [Hp Hl].
    { revert Hk. unfold contact_keys. rewrite !elem_of_cons, elem_of_nil.
      intros [->|[->|[->|[->|[->|[->|[->|[]]]]]]]]; by split. }
    rewrite !lookup_insert_ne by done. by apply scraped_lookup.
  - rewrite !lookup_insert_ne by done. apply scraped_url.
  - rewrite lookup_insert_eq. unfold Realtime.get_priority.
    destruct (Z.leb_spec 90 s); [lia|]. destruct (Z.leb_spec 80 s); [lia|].
    destruct (Z.leb_spec 70 s); [lia|]. done.
  - exists s. rewrite lookup_insert_ne by done. by rewrite lookup_insert_eq.
Qed.

Lemma enrich_lead_no_contact_data_witness :
  Forall (λ k, demo_enriched !! k = Some (PyStr "")) contact_keys
  ∧ demo_enriched !! "linkedin_url"
    = Some (PyStr "https://linkedin.com/in/ahmed-hassan")
  ∧ demo_enriched !! "priority" = Some (PyStr "Low")
  ∧ ∃ s, demo_enriched !! "lead_score" = Some (PyInt s) ∧ 0 ≤ s ≤ 47.
Proof.
  apply (enrich_lead_no_contact_data demo_env
           "https://linkedin.com/in/ahmed-hassan" () ()).
  vm_cast_no_check
    (@eq_refl _ (Ok (Some demo_enriched, ())
                 : res (option (gmap string pyval) * unit))).
Defined.

(** X2.  [enrich_lead] raises no exception and its only request is the one
    for the profile page: the world it leaves is the one the scrape left
    (no website search, no contact extraction), and it returns a lead
    exactly when the scrape returned a profile. *)
Theorem enrich_lead_only_scrapes {World : Type} (env : Realtime.Env World)
    (url : string) (w : World) :
  ∃ r, Realtime.enrich_lead env url w
       = Ok (r, (Realtime.scrape_linkedin_profile env url w).2)
       ∧ (r = None ↔ (Realtime.scrape_linkedin_profile env url w).1 = None).
Proof.
  destruct (enrich_lead_cases env url w)
    as [(w1 & Hscrape & ->)|(w1 & name & title & stamp & s & _ & Hscrape & _ & ->)];
    rewrite Hscrape; eexists; (split; [reflexivity|]); simpl; split; done.
Qed.

(** ** Storing a lead *)

Section RealtimeInsert.
Import Realtime.

Lemma realtime_cell_name (clk : Clock) (lead : gmap string pyval) :
  default Sqlite.Null
    ((list_to_map (Sqlite.coerce schema <$> insert_values clk lead)
       : gmap string Sqlite.sqlval) !! "name")
  = Sqlite.text_affinity (Sqlite.bind (get_or lead "name" (PyStr ""))).
Proof.
  unfold insert_values. generalize (get_or lead "name" (PyStr "")).
  intros v. by vm_compute.
Qed.

Lemma realtime_cell_key (clk : Clock) (lead : gmap string pyval) :
  default Sqlite.Null
    ((list_to_map (Sqlite.coerce schema <$> insert_values clk lead)
       : gmap string Sqlite.sqlval) !! "linkedin_url")
  = realtime_key lead.
Proof.
  unfold insert_values, realtime_key.
  generalize (get_or lead "linkedin_url" (PyStr "")). intros v. by vm_compute.
Qed.

Lemma name_is_null (lead : gmap string pyval) :
  Sqlite.text_affinity (Sqlite.bind (get_or lead "name" (PyStr "")))
  = Sqlite.Null
  ↔ lead !! "name" = Some PyNone.
Proof.
  unfold get_or. destruct (lead !! "name") as [[]|]; simpl; split; done.
Qed.

Lemma is_duplicate_key (db : Sqlite.Table) (lead : gmap string pyval) :
  is_duplicate db (get_or lead "linkedin_url" (PyStr "")) = false
  ↔ Sqlite.select_eq db "linkedin_url" (realtime_key lead) = [].
Proof.
  unfold is_duplicate. fold (realtime_key lead).
  rewrite negb_false_iff, bool_decide_eq_true. done.
Qed.

Lemma realtime_insert_cases (clk : Clock) (db : Sqlite.Table)
    (lead : gmap string pyval) :
  (insert_lead clk db lead = (db, None)
   ∧ (is_duplicate db (get_or lead "linkedin_url" (PyStr "")) = true
      ∨ lead !! "name" = Some PyNone))
  ∨ (∃ r,
        insert_lead clk db lead
        = (Sqlite.mkTable (Sqlite.rows db ++ [r]) (Sqlite.last_rowid db + 1),
           Some (Sqlite.last_rowid db + 1))
        ∧ Sqlite.rowid r = Sqlite.last_rowid db + 1
        ∧ url_cell r = realtime_key lead
        ∧ is_duplicate db (get_or lead "linkedin_url" (PyStr "")) = false
        ∧ lead !! "name" ≠ Some PyNone).
Proof.
  unfold insert_lead.
  destruct (is_duplicate db _) eqn:Hdup; [left; by split; [|left]|].
  pose proof (proj1 (is_duplicate_key db lead) Hdup) as Hfresh.
  unfold Sqlite.insert, Sqlite.violates_not_null, Sqlite.violates_unique.
  cbn [Sqlite.not_null Sqlite.unique schema existsb].
  rewrite !orb_false_r, realtime_cell_name, realtime_cell_key, Hfresh.
  rewrite (bool_decide_eq_true_2 ([] = [])) by done. cbn [negb].
  rewrite orb_false_r. case_bool_decide as Hname.
  - left. split; [done|]. right. by apply name_is_null.
  - right. eexists. split; [reflexivity|]. split; [done|].
    split; [apply realtime_cell_key|]. split; [done|].
    by rewrite <- name_is_null.
Qed.

End RealtimeInsert.


(** X4.  Insert then look up: once [insert_lead] has stored a lead whose
    URL is not [None], [is_duplicate] answers [True] for that URL, whatever
    is stored afterwards, and a later [insert_lead] of the same lead is
    refused and changes nothing. *)
Theorem insert_lead_round_trip (clk : Realtime.Clock) (db db' : Sqlite.Table)
    (lead : gmap string pyval) (id : Z) :
  Realtime.insert_lead clk db lead = (db', Some id) →
  realtime_key lead ≠ Sqlite.Null →
  ∀ (later : list (Realtime.Clock * gmap string pyval)) (clk' : Realtime.Clock),
    Realtime.is_duplicate (realtime_insert_all later db')
      (get_or lead "linkedin_url" (PyStr "")) = true
    ∧ Realtime.insert_lead clk' (realtime_insert_all later db') lead
      = (realtime_insert_all later db', None).
Proof.
  intros Hins Hkey later clk'.
  assert (Sqlite.select_eq db' "linkedin_url" (realtime_key lead) ≠ [])
    as Hstored.
  { destruct (realtime_insert_cases clk db lead)
      as [[Hnone _]|(r & Hsome & _ & Hcell & _)]; [congruence|].
    rewrite Hsome in Hins. injection Hins as <- <-.
    rewrite select_eq_filter by done. cbn [Sqlite.rows].
    rewrite List.filter_app. cbn [List.filter].
    unfold url_cell in Hcell. rewrite bool_decide_eq_true_2 by done.
    intros Happ. by apply app_eq_nil in Happ as [_ ?]. }
  assert (Sqlite.select_eq (realtime_insert_all later db') "linkedin_url"
            (realtime_key lead) ≠ []) as Hlater.
  { clear Hins. revert db' Hstored.
    induction later as [|[c l] later IH]; intros db' Hstored; [done|].
    apply IH. destruct (realtime_insert_appends c db' l) as [new Hnew].
    by eapply select_eq_grows. }
  assert (Realtime.is_duplicate (realtime_insert_all later db')
            (get_or lead "linkedin_url" (PyStr "")) = true) as Hdup.
  { destruct (Realtime.is_duplicate _ _) eqn:Hd; [done|].
    by apply is_duplicate_key in Hd. }
  split; [exact Hdup|]. unfold Realtime.insert_lead. by rewrite Hdup.
Qed.

Lemma insert_lead_round_trip_witness :
  Realtime.is_duplicate
    (realtime_insert_all [(sample_clock, anonymous_lead)]
       (Realtime.insert_lead sample_clock Sqlite.empty sample_candidate).1)
    (get_or sample_candidate "linkedin_url" (PyStr "")) = true
  ∧ Realtime.insert_lead sample_clock
      (realtime_insert_all [(sample_clock, anonymous_lead)]
         (Realtime.insert_lead sample_clock Sqlite.empty sample_candidate).1)
      sample_candidate
    = (realtime_insert_all [(sample_clock, anonymous_lead)]
         (Realtime.insert_lead sample_clock Sqlite.empty sample_candidate).1,
       None).
Proof.
  apply (insert_lead_round_trip sample_clock Sqlite.empty _ sample_candidate 1).
  - vm_compute. reflexivity.
  - vm_compute. discriminate.
Defined.



(** ** What a collection run adds *)

Section RunAccounting.
Import Realtime.
Context {World : Type} (env : Env World).

Lemma filter_nil_iff {A} (f : A → bool) (l : list A) :
  List.filter f l = [] ↔ ∀ x, x ∈ l → f x = false.
Proof.
  induction l as [|a l IH]; simpl.
  - split; [|done]. intros _ x Hx. by apply elem_of_nil in Hx.
  - destruct (f a) eqn:Ha; split.
    + done.
    + intros H. specialize (H a (list_elem_of_here _ _)). congruence.
    + intros Hl x [->|Hx]%elem_of_cons; [done|]. by apply IH.
    + intros H. apply IH. intros x Hx. by apply H, list_elem_of_further.
Qed.

Lemma select_eq_nil (t : Sqlite.Table) (col : string) (v : Sqlite.sqlval) :
  v ≠ Sqlite.Null →
  Sqlite.select_eq t col v = []
  ↔ ∀ r, r ∈ Sqlite.rows t → Sqlite.cell r col ≠ v.
Proof.
  intros Hv. rewrite select_eq_filter, filter_nil_iff by done.
  split; intros H r Hr; specialize (H r Hr).
  - by apply bool_decide_eq_false in H.
  - by apply bool_decide_eq_false.
Qed.

Lemma extends_refl (db0 : Sqlite.Table) (l0 : list (gmap string pyval)) :
  extends db0 l0 db0 l0.
Proof.
  exists [], []. rewrite !app_nil_r.
  split; [done|]. split; [done|]. split; [done|]. split; [constructor|].
  split; [constructor|]. split; [constructor|lia].
Qed.

Lemma extends_trans (db0 db1 db2 : Sqlite.Table)
    (l0 l1 l2 : list (gmap string pyval)) :
  extends db0 l0 db1 l1 → extends db1 l1 db2 l2 → extends db0 l0 db2 l2.
Proof.
  intros (new1 & leads1 & Hrows1 & -> & Hcells1 & Hnd1 & Hfresh1 & Hen1 & Hid1)
         (new2 & leads2 & Hrows2 & -> & Hcells2 & Hnd2 & Hfresh2 & Hen2 & Hid2).
  exists (new1 ++ new2), (leads1 ++ leads2).
  split; [by rewrite Hrows2, Hrows1, <- app_assoc|].
  split; [by rewrite <- app_assoc|].
  split; [by rewrite !fmap_app, Hcells1, Hcells2|].
  assert (∀ k, k ∈ realtime_key <$> leads2 →
            (k ∉ realtime_key <$> leads1) ∧ fresh_in db0 k) as Hnew.
  { intros k Hk.
    pose proof (proj1 (Forall_forall _ _) Hfresh2 k Hk) as [Hnull Hnone].
    pose proof (proj1 (select_eq_nil db1 "linkedin_url" k Hnull) Hnone)
      as Hrows.
    split.
    - rewrite <- Hcells1. intros (r & Hcell & Hr)%list_elem_of_fmap.
      apply (Hrows r); [|done]. rewrite Hrows1. apply elem_of_app. by right.
    - split; [done|]. apply select_eq_nil; [done|]. intros r Hr.
      apply Hrows. rewrite Hrows1. apply elem_of_app. by left. }
  split; [|split; [|split]].
  - rewrite fmap_app. apply NoDup_app. split; [done|]. split; [|done].
    intros k Hk1 Hk2. by destruct (Hnew k Hk2).
  - rewrite fmap_app. apply Forall_app. split; [done|].
    apply Forall_forall. intros k Hk. by destruct (Hnew k Hk).
  - by apply Forall_app.
  - lia.
Qed.

Lemma enriched_key (lead : gmap string pyval) :
  enriched lead →
  ∃ u, lead !! "linkedin_url" = Some (PyStr u)
       ∧ realtime_key lead = Sqlite.Text u.
Proof.
  intros (url & name & title & stamp & s & _ & _ & ->).
  exists url. unfold realtime_key, get_or.
  rewrite !lookup_insert_ne by done. by rewrite scraped_url.
Qed.

Lemma enrich_lead_enriched (url : string) (w : World) :
  ∃ r w', enrich_lead env url w = Ok (r, w')
          ∧ ∀ lead, r = Some lead → enriched lead.
Proof.
  destruct (enrich_lead_cases env url w)
    as [(w1 & _ & ->)|(w1 & name & title & stamp & s & Hn & _ & Hs & ->)].
  - exists None, w1. split; [done|]. by intros lead.
  - eexists _, w1. split; [done|]. intros lead [= <-].
    by exists url, name, title, stamp, s.
Qed.

Lemma accept_extends (st : Run World)
    (lead_data : option (gmap string pyval)) :
  0 ≤ Sqlite.last_rowid (db st) →
  (∀ lead, lead_data = Some lead → enriched lead) →
  extends (db st) (new_leads st)
    (db (accept env st lead_data)) (new_leads (accept env st lead_data)).
Proof.
  intros Hid Hen. unfold accept.
  destruct lead_data as [lead|]; [|apply extends_refl].
  destruct (truthy _); [|apply extends_refl].
  specialize (Hen lead eq_refl).
  destruct (enriched_key lead Hen) as (u & Hurl & Hkey).
  destruct (realtime_insert_cases (now env (world st)) (db st) lead)
    as [[-> _]|(r & -> & _ & Hcell & Hdup & _)]; [apply extends_refl|].
  destruct (Z.eqb_spec (Sqlite.last_rowid (db st) + 1) 0) as [?|_]; [lia|].
  cbn [negb db new_leads].
  exists [r], [lead]. cbn [Sqlite.rows Sqlite.last_rowid fmap list_fmap].
  split; [done|]. split; [done|]. split; [by rewrite Hcell|].
  split; [apply NoDup_singleton|].
  split; [|split; [by apply Forall_singleton|lia]].
  apply Forall_singleton. split; [by rewrite Hkey|].
  by apply is_duplicate_key.
Qed.

Lemma process_urls_extends (target : Z) (urls : list string) :
  ∀ st, 0 ≤ Sqlite.last_rowid (db st) →
    ∃ st', process_urls env target urls st = Ok st'
           ∧ extends (db st) (new_leads st) (db st') (new_leads st').
Proof.
  induction urls as [|url urls IH]; intros st Hid.
  - exists st. split; [done|apply extends_refl].
  - cbn [process_urls].
    destruct (target <=? Z.of_nat (length (new_leads st))).
    { exists st. split; [done|apply extends_refl]. }
    cbn [db world new_leads attempts].
    destruct (is_duplicate (db st) (PyStr url)).
    { apply (IH (mkRun (world st) (db st) (new_leads st) (attempts st + 1))).
      exact Hid. }
    destruct (enrich_lead_enriched url (world st)) as (r & w' & -> & Hen).
    cbn [mbind res_bind].
    set (st1 := mkRun w' (db st) (new_leads st) (attempts st + 1)).
    pose proof (accept_extends st1 r Hid Hen) as Hstep.
    destruct (IH (accept env st1 r)) as (st' & Hrun & Hrest).
    { destruct Hstep as (? & ? & _ & _ & _ & _ & _ & _ & Hle).
      cbn [db st1] in Hle. lia. }
    exists st'. split; [done|]. by eapply extends_trans.
Qed.

Lemma run_searches_extends (target max_attempts : Z)
    (queue : list (string * string)) :
  ∀ st, 0 ≤ Sqlite.last_rowid (db st) →
    ∃ st' how,
      run_searches env target max_attempts queue st = Ok (st', how)
      ∧ extends (db st) (new_leads st) (db st') (new_leads st').
Proof.
  induction queue as [|[title location] queue IH]; intros st Hid.
  - exists st, QueueExhausted. split; [done|apply extends_refl].
  - cbn [run_searches].
    destruct (target <=? Z.of_nat (length (new_leads st))).
    { exists st, TargetReached. split; [done|apply extends_refl]. }
    destruct (max_attempts <=? attempts st).
    { exists st, MaxAttempts. split; [done|apply extends_refl]. }
    destruct (search_linkedin_profiles env title location 5 (world st))
      as [urls w1].
    destruct (process_urls_extends target urls
                (mkRun w1 (db st) (new_leads st) (attempts st)) Hid)
      as (st1 & -> & Hstep).
    cbn [mbind res_bind]. cbn [db new_leads] in Hstep.
    destruct (IH st1) as (st' & how & Hrun & Hrest).
    { destruct Hstep as (? & ? & _ & _ & _ & _ & _ & _ & Hle). lia. }
    exists st', how. split; [done|]. by eapply extends_trans.
Qed.

Lemma collect_extends (target : Z) (w : World) (database : Sqlite.Table)
    (sh : option Gspread.Sheet) :
  target ≠ 0 → 0 ≤ Sqlite.last_rowid database →
  ∃ o, collect_daily_leads env target w database sh = Ok o
       ∧ extends database [] (db (final o)) (new_leads (final o))
       ∧ sheets o = append_new_leads (new_leads (final o)) <$> sh.
Proof.
  intros Htarget Hid. unfold collect_daily_leads.
  destruct (shuffle env searches w) as [queue w1].
  destruct (run_searches_extends target (target * 3) queue
              (mkRun w1 database [] 0) Hid) as (st & how & -> & Hext).
  cbn [mbind res_bind]. destruct (Z.eqb_spec target 0); [done|].
  eexists. split; [done|]. cbn [final sheets]. split; [exact Hext|].
  destruct sh as [sheet|]; [|done]. by destruct (new_leads st).
Qed.

End RunAccounting.

(** X6.  The books of a collection run balance.  For a target other than
    zero, on a table whose row ids are not negative, [collect_daily_leads]
    returns; the table it leaves is the one it found followed by one row
    per lead it reports, in the order of the report, each row holding the
    URL of its lead; and the worksheet, when there is one, receives exactly
    these leads through [append_new_leads]. *)
Theorem collect_daily_leads_accounting {World : Type}
    (env : Realtime.Env World) (target : Z) (w : World)
    (database : Sqlite.Table) (sh : option Gspread.Sheet) :
  target ≠ 0 → 0 ≤ Sqlite.last_rowid database →
  ∃ o new,
    Realtime.collect_daily_leads env target w database sh = Ok o
    ∧ Sqlite.rows (Realtime.db (Realtime.final o))
      = Sqlite.rows database ++ new
    ∧ url_cell <$> new = realtime_key <$> Realtime.new_leads (Realtime.final o)
    ∧ Realtime.sheets o
      = Realtime.append_new_leads (Realtime.new_leads (Realtime.final o))
          <$> sh.
Proof.
  intros Htarget Hid.
  destruct (collect_extends env target w database sh Htarget Hid)
    as (o & Hrun & (new & leads & Hrows & Hleads & Hcells & _) & Hsheet).
  exists o, new. split; [done|]. split; [done|]. split; [|done].
  by rewrite Hleads.
Qed.

Lemma collect_daily_leads_accounting_witness :
  ∃ o new,
    Realtime.collect_daily_leads demo_env 1 () Sqlite.empty
      (Some Gspread.blank) = Ok o
    ∧ Sqlite.rows (Realtime.db (Realtime.final o))
      = Sqlite.rows Sqlite.empty ++ new
    ∧ url_cell <$> new = realtime_key <$> Realtime.new_leads (Realtime.final o)
    ∧ Realtime.sheets o
      = Realtime.append_new_leads (Realtime.new_leads (Realtime.final o))
          <$> Some Gspread.blank.
Proof.
  apply (collect_daily_leads_accounting demo_env 1 () Sqlite.empty
           (Some Gspread.blank)); [lia|simpl; lia].
Defined.

(** X7.  What a collection run reports.  The leads returned by
    [collect_daily_leads] have pairwise different profile URLs, none of
    which was stored before the run; each of them has priority "Low", and
    the row [append_new_leads] writes for it starts with an empty
    "Date Added" cell, since an enriched lead has no [date_added]. *)
Theorem collect_daily_leads_reports {World : Type}
    (env : Realtime.Env World) (target : Z) (w : World)
    (database : Sqlite.Table) (sh : option Gspread.Sheet) :
  target ≠ 0 → 0 ≤ Sqlite.last_rowid database →
  ∃ o,
    Realtime.collect_daily_leads env target w database sh = Ok o
    ∧ NoDup ((λ lead, get lead "linkedin_url")
               <$> Realtime.new_leads (Realtime.final o))
    ∧ Forall (λ lead,
        Realtime.is_duplicate database (get lead "linkedin_url") = false
        ∧ lead !! "priority" = Some (PyStr "Low")
        ∧ List.hd PyNone (Realtime.sheet_row lead) = PyStr "")
        (Realtime.new_leads (Realtime.final o)).
Proof.
  intros Htarget Hid.
  destruct (collect_extends env target w database sh Htarget Hid)
    as (o & Hrun & (new & leads & _ & Hleads & _ & Hnd & Hfresh & Hen & _) & _).
  exists o. split; [done|]. cbn [app] in Hleads. rewrite Hleads.
  assert (∀ lead, lead ∈ leads →
            realtime_key lead
            = Sqlite.text_affinity (Sqlite.bind (get lead "linkedin_url")))
    as Hkeys.
  { intros lead Hlead.
    destruct (enriched_key lead (proj1 (Forall_forall _ _) Hen lead Hlead))
      as (u & Hurl & Hkey).
    unfold get. by rewrite Hurl, Hkey. }
  split.
  - apply (NoDup_fmap_1 (λ v, Sqlite.text_affinity (Sqlite.bind v))).
    rewrite <- list_fmap_compose.
    erewrite list_fmap_ext; [exact Hnd|].
    intros i lead Hi. symmetry. apply Hkeys. by eapply list_elem_of_lookup_2.
  - apply Forall_forall. intros lead Hlead.
    pose proof (proj1 (Forall_forall _ _) Hen lead Hlead) as Hl.
    pose proof (proj1 (Forall_forall _ _) Hfresh (realtime_key lead)
                  (list_elem_of_fmap_2 _ _ _ Hlead)) as [_ Hnone].
    split; [|split].
    + unfold Realtime.is_duplicate. rewrite <- (Hkeys lead Hlead), Hnone.
      by rewrite bool_decide_eq_true_2.
    + destruct Hl as (url & name & title & stamp & s & _ & Hs & ->).
      rewrite lookup_insert_eq. unfold Realtime.get_priority.
      destruct (Z.leb_spec 90 s); [lia|]. destruct (Z.leb_spec 80 s); [lia|].
      by destruct (Z.leb_spec 70 s); [lia|].
    + destruct Hl as (url & name & title & stamp & s & _ & _ & ->).
      unfold Realtime.sheet_row, get_or. cbn [List.hd].
      rewrite !lookup_insert_ne by done. by vm_compute.
Qed.

Lemma collect_daily_leads_reports_witness :
  ∃ o,
    Realtime.collect_daily_leads demo_env 1 () Sqlite.empty None = Ok o
    ∧ NoDup ((λ lead, get lead "linkedin_url")
               <$> Realtime.new_leads (Realtime.final o))
    ∧ Forall (λ lead,
        Realtime.is_duplicate Sqlite.empty (get lead "linkedin_url") = false
        ∧ lead !! "priority" = Some (PyStr "Low")
        ∧ List.hd PyNone (Realtime.sheet_row lead) = PyStr "")
        (Realtime.new_leads (Realtime.final o)).
Proof.
  apply (collect_daily_leads_reports demo_env 1 () Sqlite.empty None);
    [lia|simpl; lia].
Defined.

(** X8.  A target that is not positive.  With target 0 the run makes no
    search and then raises [ZeroDivisionError] (the "Success rate" line
    divides by the target); with a negative target it returns at once: no
    lead, no attempt, the table and the worksheet as they were. *)
Theorem collect_daily_leads_nonpositive_target {World : Type}
    (env : Realtime.Env World) (target : Z) (w : World)
    (database : Sqlite.Table) (sh : option Gspread.Sheet) :
  target ≤ 0 →
  if target =? 0
  then Realtime.collect_daily_leads env target w database sh
       = Raise ZeroDivisionError
  else ∃ how,
      Realtime.collect_daily_leads env target w database sh
      = Ok (Realtime.mkOutcome
              (Realtime.mkRun (Realtime.shuffle env Realtime.searches w).2
                 database [] 0)
              how sh)
      ∧ how ≠ Realtime.MaxAttempts.
Proof.
  intros Htarget. unfold Realtime.collect_daily_leads.
  destruct (Realtime.shuffle env Realtime.searches w) as [queue w1].
  cbn [snd].
  assert (∃ how,
            Realtime.run_searches env target (target * 3) queue
              (Realtime.mkRun w1 database [] 0)
            = Ok (Realtime.mkRun w1 database [] 0, how)
            ∧ how ≠ Realtime.MaxAttempts) as (how & -> & Hhow).
  { destruct queue as [|[title location] queue].
    - by exists Realtime.QueueExhausted.
    - exists Realtime.TargetReached. cbn [Realtime.run_searches].
      cbn [Realtime.new_leads length].
      by destruct (Z.leb_spec target (Z.of_nat 0)); [|lia]. }
  cbn [mbind res_bind]. destruct (target =? 0); [done|].
  exists how. split; [|done]. cbn [Realtime.new_leads]. by destruct sh.
Qed.

Lemma collect_daily_leads_nonpositive_target_witness :
  Realtime.collect_daily_leads demo_env 0 () Sqlite.empty None
  = Raise ZeroDivisionError
  ∧ ∃ how,
      Realtime.collect_daily_leads demo_env (-1) () Sqlite.empty None
      = Ok (Realtime.mkOutcome
              (Realtime.mkRun
                 (Realtime.shuffle demo_env Realtime.searches ()).2
                 Sqlite.empty [] 0)
              how None)
      ∧ how ≠ Realtime.MaxAttempts.
Proof.
  split.
  - apply (collect_daily_leads_nonpositive_target demo_env 0 () Sqlite.empty
             None). lia.
  - apply (collect_daily_leads_nonpositive_target demo_env (-1) ()
             Sqlite.empty None). lia.
Defined.

(** ** Tokens, and the email candidates *)

Section Tokens.

Lemma list_of_empty (s : string) : list_ascii_of_string s = [] → s = "".
Proof. by destruct s. Qed.

Lemma solid_rev (s : string) : solid s → solid (String.rev s).
Proof.
  intros [Hne Hall]. split.
  - intros Hrev. apply Hne, list_of_empty.
    apply (f_equal list_ascii_of_string) in Hrev. rewrite list_of_rev in Hrev.
    apply (f_equal (@List.rev ascii)) in Hrev.
    by rewrite rev_involutive in Hrev.
  - rewrite list_of_rev. by apply List.Forall_rev.
Qed.

Lemma split_go_solid (s : string) :
  ∀ cur, (∀ c, cur = Some c → solid c) → Forall solid (split_go cur s).
Proof.
  induction s as [|ch s IH]; intros cur Hcur; cbn [split_go].
  - destruct cur as [c|]; [|constructor].
    apply Forall_singleton, solid_rev. by apply Hcur.
  - destruct (isspace ch) eqn:Hch.
    + apply Forall_app. split.
      * destruct cur as [c|]; [|constructor].
        apply Forall_singleton, solid_rev. by apply Hcur.
      * apply IH. by intros c.
    + apply IH. intros c [= <-]. split; [done|].
      cbn. constructor; [done|].
      destruct cur as [c|]; [by apply Hcur|constructor].
Qed.

Lemma split_solid (s : string) : Forall solid (split s).
Proof. apply split_go_solid. by intros c. Qed.

Lemma solid_lstrip (s : string) : solid s → lstrip s = s.
Proof.
  intros [Hne Hall]. destruct s as [|c s]; [done|].
  cbn in Hall. apply Forall_cons in Hall as [Hc _].
  cbn [lstrip]. by rewrite Hc.
Qed.

Lemma solid_strip (s : string) : solid s → strip s = s.
Proof.
  intros Hs. unfold strip, rstrip. rewrite (solid_lstrip s Hs).
  rewrite (solid_lstrip _ (solid_rev s Hs)). apply string_rev_involutive.
Qed.

Lemma list_of_lower (s : string) :
  list_ascii_of_string (lower s) = lower_char <$> list_ascii_of_string s.
Proof. induction s as [|c s IH]; [done|]. cbn. by rewrite IH. Qed.

Lemma lower_char_space (c : ascii) : isspace (lower_char c) = isspace c.
Proof. destruct c as [[] [] [] [] [] [] [] []]; by vm_compute. Qed.

Lemma lower_char_idemp (c : ascii) : lower_char (lower_char c) = lower_char c.
Proof. destruct c as [[] [] [] [] [] [] [] []]; by vm_compute. Qed.

Lemma solid_lower (s : string) : solid s → solid (lower s).
Proof.
  intros [Hne Hall]. split.
  - destruct s; [done|]. done.
  - rewrite list_of_lower. apply Forall_fmap.
    eapply Forall_impl; [exact Hall|]. intros c Hc. cbn.
    by rewrite lower_char_space.
Qed.

Lemma lower_lowered (s : string) : lowered (lower s).
Proof.
  unfold lowered. rewrite list_of_lower. apply Forall_fmap, Forall_forall.
  intros c _. apply lower_char_idemp.
Qed.

Lemma lowered_lower (s : string) : lowered s → lower s = s.
Proof.
  unfold lowered. induction s as [|c s IH]; [done|]. cbn.
  intros [Hc Hs]%Forall_cons. by rewrite Hc, IH.
Qed.

(** Deleting characters keeps a property of all characters. *)
Section Kept.
Context (P : ascii → Prop).

Lemma kept_rev (s : string) : Forall P (list_ascii_of_string s) →
  Forall P (list_ascii_of_string (String.rev s)).
Proof. rewrite list_of_rev. apply List.Forall_rev. Qed.

Lemma kept_lstrip (s : string) : Forall P (list_ascii_of_string s) →
  Forall P (list_ascii_of_string (lstrip s)).
Proof.
  induction s as [|c s IH]; [done|]. cbn [lstrip]. intros H.
  destruct (isspace c); [|done]. cbn in H. apply Forall_cons in H as [_ H].
  by apply IH.
Qed.

Lemma kept_strip (s : string) : Forall P (list_ascii_of_string s) →
  Forall P (list_ascii_of_string (strip s)).
Proof.
  intros H. unfold strip, rstrip.
  by apply kept_rev, kept_lstrip, kept_rev, kept_lstrip.
Qed.

Lemma kept_re_sub (alts : list string) (s : string) :
  ∀ skip prev, Forall P (list_ascii_of_string s) →
    Forall P (list_ascii_of_string (re_sub_go alts skip prev s)).
Proof.
  induction s as [|c s IH]; intros skip prev H; [done|].
  cbn in H. apply Forall_cons in H as [Hc H]. cbn [re_sub_go].
  destruct skip as [|k]; [|by apply IH].
  destruct (match_alt alts prev (String c s)) as [[|k]|].
  - cbn. constructor; [done|]. by apply IH.
  - by apply IH.
  - cbn. constructor; [done|]. by apply IH.
Qed.

Lemma kept_split_go (s : string) :
  ∀ cur, Forall P (list_ascii_of_string s) →
    (∀ c, cur = Some c → Forall P (list_ascii_of_string c)) →
    Forall (λ t, Forall P (list_ascii_of_string t)) (split_go cur s).
Proof.
  induction s as [|ch s IH]; intros cur H Hcur; cbn [split_go].
  - destruct cur as [c|]; [|constructor].
    apply Forall_singleton, kept_rev. by apply Hcur.
  - cbn in H. apply Forall_cons in H as [Hch H].
    destruct (isspace ch).
    + apply Forall_app. split.
      * destruct cur as [c|]; [|constructor].
        apply Forall_singleton, kept_rev. by apply Hcur.
      * apply IH; [done|]. by intros c.
    + apply IH; [done|]. intros c [= <-]. cbn. constructor; [done|].
      destruct cur as [c|]; [by apply Hcur|constructor].
Qed.

Lemma kept_split (s : string) :
  Forall P (list_ascii_of_string s) →
  Forall (λ t, Forall P (list_ascii_of_string t)) (split s).
Proof. intros H. apply kept_split_go; [done|]. by intros c. Qed.

End Kept.

Lemma last_elem {A} (l : list A) (d : A) : l ≠ [] → List.last l d ∈ l.
Proof.
  induction l as [|x [|y l] IH]; intros Hne; [done|apply list_elem_of_here|].
  apply list_elem_of_further, IH. done.
Qed.

Lemma solid_append (a b : string) : solid a → solid b → solid (a +:+ b).
Proof.
  intros [Ha Hall] [Hb Hbll]. split.
  - by apply append_not_empty.
  - rewrite list_of_append. by apply Forall_app.
Qed.

Lemma lowered_append (a b : string) :
  lowered a → lowered b → lowered (a +:+ b).
Proof.
  unfold lowered. intros Ha Hb. rewrite list_of_append. by apply Forall_app.
Qed.

Lemma guess_company_domain_plain (company : string) :
  solid (Realtime.guess_company_domain company)
  ∧ lowered (Realtime.guess_company_domain company).
Proof.
  unfold Realtime.guess_company_domain.
  destruct (List.find _ Realtime.uae_companies) as [[key domain]|] eqn:Hfind.
  - apply find_some in Hfind as [Hin _].
    assert (Forall (λ kd, solid kd.2 ∧ lowered kd.2) Realtime.uae_companies)
      as Hall.
    { unfold Realtime.uae_companies, solid, lowered.
      repeat constructor; try done; by vm_compute. }
    apply (proj1 (Forall_forall _ _) Hall (key, domain)).
    by apply list_elem_of_In.
  - destruct (split (Realtime.clean_company_name company))
      as [|base rest] eqn:Hsplit.
    { split; [split; [done|]|]; repeat constructor. }
    pose proof (split_solid (Realtime.clean_company_name company)) as Hsolid.
    pose proof (kept_split (λ c, lower_char c = c)
                  (Realtime.clean_company_name company)) as Hlow.
    rewrite Hsplit in Hsolid, Hlow.
    apply Forall_cons in Hsolid as [Hbase _].
    split.
    + apply solid_append; [done|]. split; [done|]. repeat constructor.
    + apply lowered_append; [|repeat constructor].
      assert (lowered (Realtime.clean_company_name company)) as Hclean.
      { unfold Realtime.clean_company_name, re_sub_words.
        apply kept_strip, kept_re_sub, lower_lowered. }
      specialize (Hlow Hclean). by apply Forall_cons in Hlow as [? _].
Qed.

End Tokens.

(** X9.  The guessed domain can be used as it is: it has no blank and no
    upper-case letter, so the normalisation of [generate_emails]
    ([lower], [strip]) leaves it unchanged. *)
Theorem guess_company_domain_normal (company : string) :
  solid (Realtime.guess_company_domain company)
  ∧ lowered (Realtime.guess_company_domain company)
  ∧ strip (lower (Realtime.guess_company_domain company))
    = Realtime.guess_company_domain company.
Proof.
  destruct (guess_company_domain_plain company) as [Hsolid Hlow].
  split; [done|]. split; [done|].
  rewrite (lowered_lower _ Hlow). by apply solid_strip.
Qed.

(** X10.  [derive_emails] raises no exception on a lead whose name and
    company are strings: the first name it passes to [generate_emails] is a
    token of the name, so the index into it is safe.  With a company and a
    name of at least two tokens the three stored candidates are
    first.last, first and firstlast at the guessed domain, in lower case;
    otherwise the lead is returned as it is. *)
Theorem derive_emails_candidates (lead : gmap string pyval)
    (name company : string) :
  lead !! "name" = Some (PyStr name) →
  lead !! "company" = Some (PyStr company) →
  match split name with
  | first_name :: second :: more =>
      if String.eqb company "" then Realtime.derive_emails lead = Ok lead
      else
        let f := lower first_name in
        let l := lower (List.last (second :: more) first_name) in
        let d := Realtime.guess_company_domain company in
        Realtime.derive_emails lead
        = Ok (<["email_3" := PyStr (f +:+ l +:+ "@" +:+ d)]>
               (<["email_2" := PyStr (f +:+ "@" +:+ d)]>
                 (<["email_1" := PyStr (f +:+ "." +:+ l +:+ "@" +:+ d)]>
                   lead)))
  | _ => Realtime.derive_emails lead = Ok lead
  end.
Proof.
  intros Hname Hcompany.
  destruct (split name) as [|first_name [|second more]] eqn:Hsplit.
  - apply (derive_emails_short_name lead name Hname). rewrite Hsplit. simpl. lia.
  - apply (derive_emails_short_name lead name Hname). rewrite Hsplit. simpl. lia.
  - destruct (String.eqb_spec company "") as [->|Hne].
    { unfold Realtime.derive_emails, item. rewrite Hname, Hcompany.
      cbn [mbind res_bind truthy as_str].
      destruct (negb (name =? "")%string); [|done].
      rewrite Hsplit. cbn [length Nat.leb Py.first mbind res_bind].
      rewrite py_last_is_last. done. }
    rewrite (derive_emails_two_tokens lead name company first_name
               (second :: more) Hname Hcompany Hne Hsplit) by done.
    pose proof (split_solid name) as Htokens. rewrite Hsplit in Htokens.
    assert (solid first_name) as Hfirst by (by apply Forall_cons in Htokens as [? _]).
    assert (solid (List.last (second :: more) first_name)) as Hlast.
    { apply Forall_cons in Htokens as [_ Hrest].
      apply (proj1 (Forall_forall _ _) Hrest). by apply last_elem. }
    unfold Realtime.generate_emails.
    rewrite (solid_strip _ (solid_lower _ Hfirst)),
      (solid_strip _ (solid_lower _ Hlast)).
    destruct (guess_company_domain_plain company) as [Hsd Hld].
    rewrite (lowered_lower _ Hld), (solid_strip _ Hsd).
    destruct (solid_lower _ Hfirst) as [Hlow _].
    destruct (lower first_name) as [|c rest] eqn:Hl; [done|].
    reflexivity.
Qed.

Lemma derive_emails_candidates_witness :
  Realtime.derive_emails named_lead
  = Ok (<["email_3" := PyStr "ahmedqasimi@rak.ae"]>
         (<["email_2" := PyStr "ahmed@rak.ae"]>
           (<["email_1" := PyStr "ahmed.qasimi@rak.ae"]> named_lead))).
Proof.
  refine (derive_emails_candidates named_lead "Ahmed Hassan Al Qasimi"
            "RAK Ceramics LLC" _ _); vm_compute; reflexivity.
Defined.

(** ** The header row *)

Section Headers.
Import Realtime.

Lemma realtime_setup_headed (sh : Gspread.Sheet) : headed (setup_headers sh).
Proof.
  unfold setup_headers, headed, Gspread.row_values_1.
  destruct (has_header (Gspread.first_row sh)) eqn:H; [done|]. reflexivity.
Qed.

Lemma append_new_leads_headed (leads : list (gmap string pyval))
    (sh : Gspread.Sheet) :
  headed sh → headed (append_new_leads leads sh).
Proof.
  unfold headed. intros H. destruct leads as [|lead leads]; [done|].
  cbn [append_new_leads Gspread.append_rows Gspread.log Gspread.first_row].
  by destruct (Gspread.first_row sh).
Qed.

Lemma appends_headed (batches : list (list (gmap string pyval))) :
  ∀ sh, headed sh →
    headed (fold_left (λ s b, append_new_leads b s) batches sh).
Proof.
  induction batches as [|b batches IH]; intros sh H; [done|].
  apply IH. by apply append_new_leads_headed.
Qed.

End Headers.

(** X11.  The header row is written once.  [setup_headers] inserts the
    header and formats it when row 1 does not start with "Date Added", and
    sends nothing otherwise; after it has run, however many batches of
    leads are appended, a later [setup_headers] changes nothing. *)
Theorem setup_headers_once (sh : Gspread.Sheet)
    (batches : list (list (gmap string pyval))) :
  let first := Realtime.setup_headers sh in
  let later :=
    fold_left (λ s b, Realtime.append_new_leads b s) batches first in
  Realtime.setup_headers later = later
  ∧ Gspread.requests first
    = Gspread.requests sh
      ++ (if Realtime.has_header (Gspread.first_row sh) then []
          else [Gspread.InsertRow Realtime.headers 1; Gspread.Format "A1:T1"]).
Proof.
  intros first later. split.
  - assert (headed later) as H
      by apply appends_headed, realtime_setup_headed.
    unfold Realtime.setup_headers, Gspread.row_values_1.
    unfold headed in H. by rewrite H.
  - subst first. unfold Realtime.setup_headers, Gspread.row_values_1.
    destruct (Realtime.has_header (Gspread.first_row sh)).
    + by rewrite app_nil_r.
    + simpl. by rewrite <- app_assoc.
Qed.

(** ** Directors and the first band *)

Section Director.

Lemma contains_inside (a k b s : string) :
  contains (a +:+ k +:+ b) s = true → contains k s = true.
Proof.
  rewrite !contains_occurs, !list_of_append.
  intros (pre & post & ->).
  exists (pre ++ list_ascii_of_string a), (list_ascii_of_string b ++ post).
  by rewrite <- !app_assoc.
Qed.

Lemma director_has_cto (title : string) :
  contains "director" title = true → contains "cto" title = true.
Proof. apply (contains_inside "dire" "cto" "r"). Qed.

End Director.

(** X12.  The keyword "cto" of the first band is matched as a substring,
    and "director" contains it: in all four scorers a title with
    "director" in it gets the points of the first band (40, 40, 35 and the
    30 of "CTO" on the platform), never the points of "Director". *)
Theorem director_scores_as_cto (title : string) :
  contains "director" (lower title) = true →
  Realtime.title_points (lower title) = 40
  ∧ Apify.title_points (lower title) = 40
  ∧ Apollo.title_points (lower title) = 35
  ∧ Platform.title_score Platform.title_scores title = 30.
Proof.
  intros H%director_has_cto.
  unfold Realtime.title_points, Apify.title_points, Apollo.title_points.
  unfold any_in. cbn [existsb Platform.title_score Platform.title_scores].
  change (lower "CTO") with "cto". by rewrite H.
Qed.

Lemma director_scores_as_cto_witness :
  Realtime.title_points (lower "Finance Director") = 40
  ∧ Apify.title_points (lower "Finance Director") = 40
  ∧ Apollo.title_points (lower "Finance Director") = 35
  ∧ Platform.title_score Platform.title_scores "Finance Director" = 30.
Proof.
  apply (director_scores_as_cto "Finance Director"). vm_compute. reflexivity.
Defined.

(** ** Processing and saving an Apify profile *)

Section ApifyRoundTrip.
Import Apify.




End ApifyRoundTrip.



Section ApifyAccounting.
Import Apify.
Context {World : Type} (env : Env World).



End ApifyAccounting.



(** ** The sibling scorers *)

Section SiblingScores.

Lemma apify_title_points_range (t : string) : 0 ≤ Apify.title_points t ≤ 40.
Proof. unfold Apify.title_points. repeat case_match; lia. Qed.


Lemma apify_score_range (profile : gmap string pyval) (s : Z) :
  Apify.calculate_lead_score profile = Ok s → 0 ≤ s ≤ 100.
Proof.
  unfold Apify.calculate_lead_score.
  destruct (str_lower (por (get profile "title") _)) as [t|]; [|done].
  cbn [mbind res_bind].
  destruct (str_lower (por (get profile "location") _)) as [l|]; [|done].
  cbn [mbind res_bind].
  pose proof (apify_title_points_range t).
  match goal with
  | |- ?m ≫= _ = _ → _ =>
      assert (∀ c, m = Ok c → 0 ≤ c ≤ 10) as Hpoints;
        [|destruct m as [points|]; [|done]]
  end.
  { intros c. destruct (truthy (get profile "connections")).
    - destruct (Apify.py_str _) as [text|]; [|done]. cbn [mbind res_bind].
      destruct (contains "500+" text); [intros [= <-]; lia|].
      destruct (Apify.py_int _) as [count|]; [|done]. cbn [mbind res_bind].
      intros [= <-]. case_match; lia.
    - intros [= <-]. lia. }
  specialize (Hpoints points eq_refl).
  cbn [mbind res_bind]. intros [= <-].
  repeat case_match; lia.
Qed.


End SiblingScores.

(** X15.  The Apify score.  On a profile whose title, headline and
    location are strings, [None] or missing, and whose connection count
    converts, [calculate_lead_score] returns a score; and every score it
    returns lies in [0, 100]. *)
Theorem apify_score_bounded (profile : gmap string pyval) :
  (∀ s, Apify.calculate_lead_score profile = Ok s → 0 ≤ s ≤ 100)
  ∧ (not_a_number (get profile "title") →
     not_a_number (get profile "headline") →
     not_a_number (get profile "location") →
     converts (get_or profile "connections" (PyStr "")) →
     ∃ s, Apify.calculate_lead_score profile = Ok s ∧ 0 ≤ s ≤ 100).
Proof.
  split; [apply apify_score_range|]. intros Ht Hh Hl Hc.
  destruct (apify_score_returns profile Ht Hh Hl Hc) as [s Hs].
  exists s. split; [done|]. by apply (apify_score_range profile).
Qed.

Lemma apify_score_bounded_witness :
  ∃ s, Apify.calculate_lead_score demo_apify_lead = Ok s ∧ 0 ≤ s ≤ 100.
Proof.
  apply (proj2 (apify_score_bounded demo_apify_lead));
    [vm_compute; exact I..|].
  exists "", 0. split; reflexivity.
Defined.


(** ** The order of a listing *)

Section Ordering.
Import Sqlite.

Lemma ascii_compare_eq (x y : ascii) : Ascii.compare x y = Eq → x = y.
Proof. apply Ascii.compare_eq_iff. Qed.

Lemma ascii_compare_lt_trans (x y z : ascii) :
  Ascii.compare x y = Lt → Ascii.compare y z = Lt → Ascii.compare x z = Lt.
Proof.
  unfold Ascii.compare. rewrite !N.compare_lt_iff. apply N.lt_trans.
Qed.

Lemma string_compare_lt_trans (a : string) :
  ∀ b c, String.compare a b = Lt → String.compare b c = Lt →
         String.compare a c = Lt.
Proof.
  induction a as [|x a IH]; intros [|y b] [|z c]; cbn; try done.
  destruct (Ascii.compare x y) eqn:Hxy; [|intros _|done].
  - apply ascii_compare_eq in Hxy as ->.
    destruct (Ascii.compare y z) eqn:Hyz; [apply IH|done|done].
  - destruct (Ascii.compare y z) eqn:Hyz; [|intros _|done].
    + apply ascii_compare_eq in Hyz as <-. by rewrite Hxy.
    + by rewrite (ascii_compare_lt_trans x y z).
Qed.

Lemma sql_compare_antisym (a b : sqlval) :
  sql_compare a b = CompOpp (sql_compare b a).
Proof.
  destruct a, b; cbn; try done.
  - apply String.compare_antisym.
  - apply Z.compare_antisym.
Qed.

Lemma sql_compare_eq (a b : sqlval) : sql_compare a b = Eq → a = b.
Proof.
  destruct a, b; cbn; try done.
  - intros H. by apply String.compare_eq_iff in H as ->.
  - intros H. by apply Z.compare_eq in H as ->.
Qed.

Lemma sql_compare_lt_trans (a b c : sqlval) :
  sql_compare a b = Lt → sql_compare b c = Lt → sql_compare a c = Lt.
Proof.
  destruct a, b, c; cbn; try done.
  - apply string_compare_lt_trans.
  - rewrite !Z.compare_lt_iff. apply Z.lt_trans.
Qed.

Lemma strongly_sorted_impl {A} (R R' : A → A → Prop) (l : list A) :
  (∀ x y, R x y → R' x y) → StronglySorted R l → StronglySorted R' l.
Proof.
  intros Himpl. induction 1 as [|x l Hl IH Hall]; constructor; [done|].
  eapply Forall_impl; [exact Hall|]. intros y. apply Himpl.
Qed.

Lemma desc_leb_total (cols : list string) (r1 r2 : Row) :
  desc_leb cols r1 r2 = true ∨ desc_leb cols r2 r1 = true.
Proof.
  induction cols as [|c cols IH]; [by left|]. cbn [desc_leb].
  rewrite (sql_compare_antisym (cell r2 c)).
  destruct (sql_compare (cell r1 c) (cell r2 c)); cbn; auto.
Qed.

Lemma desc_leb_trans (cols : list string) (r1 r2 r3 : Row) :
  desc_leb cols r1 r2 = true → desc_leb cols r2 r3 = true →
  desc_leb cols r1 r3 = true.
Proof.
  induction cols as [|c cols IH]; [done|]. cbn [desc_leb].
  destruct (sql_compare (cell r1 c) (cell r2 c)) eqn:H12; [|done|].
  - apply sql_compare_eq in H12. rewrite H12.
    destruct (sql_compare (cell r2 c) (cell r3 c)); auto.
  - intros _.
    destruct (sql_compare (cell r2 c) (cell r3 c)) eqn:H23; [|done|].
    + apply sql_compare_eq in H23. by rewrite <- H23, H12.
    + intros _.
      assert (sql_compare (cell r3 c) (cell r1 c) = Lt) as H31.
      { apply (sql_compare_lt_trans _ (cell r2 c)).
        - by rewrite sql_compare_antisym, H23.
        - by rewrite sql_compare_antisym, H12. }
      by rewrite sql_compare_antisym, H31.
Qed.

Lemma order_by_desc_sorted (cols : list string) (rs : list Row) :
  order_by_desc cols rs ≡ₚ rs
  ∧ StronglySorted (λ r1 r2, desc_leb cols r1 r2 = true)
      (order_by_desc cols rs).
Proof.
  unfold order_by_desc. split; [apply merge_sort_Permutation|].
  assert (Transitive (λ r1 r2, Is_true (desc_leb cols r1 r2))) as Htrans.
  { intros r1 r2 r3 H1%Is_true_eq_true H2%Is_true_eq_true.
    apply Is_true_eq_left. by eapply desc_leb_trans. }
  assert (Total (λ r1 r2, Is_true (desc_leb cols r1 r2))) as Htotal.
  { intros r1 r2.
    destruct (desc_leb_total cols r1 r2) as [H|H]; [left|right];
      by apply Is_true_eq_left. }
  eapply strongly_sorted_impl;
    [|apply (StronglySorted_merge_sort
               (λ r1 r2, Is_true (desc_leb cols r1 r2)))].
  intros r1 r2. apply Is_true_eq_true.
Qed.

End Ordering.

(** X17.  The listing of [complete_scraper_gsheets]: [get_all_leads]
    returns every stored lead exactly once (the rows read back as
    dictionaries with their id, in some order of the stored rows), and in
    that order no lead comes before one with a higher [lead_score]. *)
Theorem get_all_leads_sorted (db : Sqlite.Table) :
  ∃ ordered,
    Complete.get_all_leads db
    = (λ r, <["id" := PyInt (Sqlite.rowid r)]>
              (Sqlite.unbind <$> Sqlite.cells r)) <$> ordered
    ∧ ordered ≡ₚ Sqlite.rows db
    ∧ StronglySorted (not_below "lead_score") ordered.
Proof.
  exists (Sqlite.order_by_desc ["lead_score"] (Sqlite.rows db)).
  split; [done|].
  destruct (order_by_desc_sorted ["lead_score"] (Sqlite.rows db))
    as [Hperm Hsorted].
  split; [done|].
  eapply strongly_sorted_impl; [|exact Hsorted].
  intros r r'. unfold not_below. cbn [Sqlite.desc_leb].
  by destruct (Sqlite.sql_compare (Sqlite.cell r "lead_score")
                 (Sqlite.cell r' "lead_score")).
Qed.
